(** * Stock trading signals: the analysis pass of [app.py]

    A shallow embedding of [load_and_analyze_data] (app.py, lines 18-71), of
    the guard that follows it (lines 75-79) and of what the page shows of
    the result (lines 81-256), with the properties of the design document
    checked against it.

    What is modelled, and how:
    - Numbers.  pandas stores prices as IEEE doubles.  The frames of the
      run are modelled in exact arithmetic: a numeric cell is a real number
      or the missing value NaN ([None]), comparisons with NaN are false and
      arithmetic on NaN is NaN; a window statistic is computed from the
      cells of the window.  What rounding does is studied on the numeric
      part of the program on its own (lines 55-66 on one 'Close' column,
      module [Kernel]), with pandas' running update of the window
      statistics (module [Aggregations]) in IEEE binary64 (module
      [Binary64]).  Run in exact arithmetic, the running update gives the
      window statistics of the frames ([exact_rolling_mean],
      [exact_rolling_std]).
    - Tables.  A file is a list of rows with the columns 'Date' and 'Expiry'
      (text), 'Close' (numeric) and any further columns; every cell may be
      missing.  A frame is the list of its rows, in row order.  Files of
      another shape are outside the model: without a numeric 'Close'
      column line 55 raises, and an 'Expiry' column of numbers is sorted as
      numbers, not as text.
    - Files.  [pd.read_csv] is a function from file names to what the call
      does: it raises [FileNotFoundError], raises something else, or
      delivers a table.
    - Effects.  The messages given to [st.error] are collected in a list;
      an exception that leaves the function is the outcome [Raised].
      [st.cache_data] only memoizes the call and is left out. *)

From stdpp Require Import gmap strings list sorting.
From Stdlib Require Import Ascii Reals Lra Lia.
From Stdlib Require SpecFloat.

(** ** Numeric cells *)

Module Float.

Local Open Scope R_scope.

(** A float64 cell: [None] is NaN. *)
Definition float : Type := option R.

Definition NaN : float := None.

Definition add (a b : float) : float :=
  match a, b with Some x, Some y => Some (x + y) | _, _ => None end.

Definition sub (a b : float) : float :=
  match a, b with Some x, Some y => Some (x - y) | _, _ => None end.

Definition mul (a b : float) : float :=
  match a, b with Some x, Some y => Some (x * y) | _, _ => None end.

(** Division.  A zero divisor gives NaN (0/0) or an infinity (x/0) in
    IEEE arithmetic; both are outside the finite cells and are
    represented by the missing value here.  The only division of the
    program is by [STD_10], and lemma [zero_deviation_score] below shows
    that in exact arithmetic its numerator is then 0 as well, so that the
    result is NaN. *)
Definition div (a b : float) : float :=
  match a, b with
  | Some x, Some y => if Req_dec_T y 0 then None else Some (x / y)
  | _, _ => None
  end.

(** [a < b] on cells: false as soon as one side is NaN. *)
Definition lt (a b : float) : bool :=
  match a, b with
  | Some x, Some y => if Rlt_dec x y then true else false
  | _, _ => false
  end.

Definition gt (a b : float) : bool := lt b a.

(** The same comparison as a proposition. *)
Definition Less (a b : float) : Prop :=
  match a, b with
  | Some x, Some y => x < y
  | _, _ => False
  end.

(** Drop the missing cells of a column slice. *)
Definition dropna (l : list float) : list R := omap (fun c : float => c) l.

Fixpoint sum (l : list R) : R :=
  match l with
  | [] => 0
  | x :: l' => x + sum l'
  end.

(** Sum of squared deviations from [m]. *)
Definition ssqdm (m : R) (l : list R) : R := sum ((fun x => (x - m) * (x - m)) <$> l).

End Float.

Import Float.

(** ** Rolling windows: [Series.rolling(window, min_periods)] *)

Module Rolling.

Local Open Scope R_scope.

(** The rows of the fixed window that ends at row [i]: positions
    [i + 1 - window] (not below 0) to [i], both included. *)
Definition window_at {A} (window : nat) (col : list A) (i : nat) : list A :=
  drop (i + 1 - window) (take (i + 1) col).

(** [.mean()] of one window: the mean of its non-missing cells, NaN when
    there are fewer than [min_periods] of them (or none). *)
Definition mean_of (min_periods : nat) (w : list float) : float :=
  let xs := dropna w in
  let nobs := length xs in
  if bool_decide (min_periods ≤ nobs)%nat && bool_decide (0 < nobs)%nat
  then Some (sum xs / INR nobs) else None.

(** [.var(ddof)] of one window: sum of squared deviations from the mean
    over [nobs - ddof], NaN when [nobs < min_periods] or [nobs <= ddof]. *)
Definition var_of (min_periods ddof : nat) (w : list float) : float :=
  let xs := dropna w in
  let nobs := length xs in
  if bool_decide (min_periods ≤ nobs)%nat && bool_decide (ddof < nobs)%nat
  then Some (ssqdm (sum xs / INR nobs) xs / (INR nobs - INR ddof)) else None.

(** [.std(ddof)]: square root of the variance. *)
Definition std_of (min_periods ddof : nat) (w : list float) : float :=
  match var_of min_periods ddof w with
  | Some v => Some (sqrt v)
  | None => None
  end.

(** Apply a window statistic at every row of a column. *)
Definition rolling (stat : list float → float) (window : nat) (col : list float) : list float :=
  imap (fun i _ => stat (window_at window col i)) col.

Definition rolling_mean (window min_periods : nat) (col : list float) : list float :=
  rolling (mean_of min_periods) window col.

(** pandas' default for [.std()] is [ddof = 1]. *)
Definition rolling_std (window min_periods : nat) (col : list float) : list float :=
  rolling (std_of min_periods 1) window col.

End Rolling.

Import Rolling.

(** ** Sorting: [DataFrame.sort_values]

    A sort on several keys is stable in pandas (it goes through a
    lexicographic [lexsort]).  A stable sort on a total preorder has one
    possible result; insertion from the right computes it. *)

Module Sort.

Section Defs.
Context {A : Type} (cmp : A → A → comparison).

Fixpoint insert (x : A) (l : list A) : list A :=
  match l with
  | [] => [x]
  | y :: l' =>
      match cmp x y with
      | Gt => y :: insert x l'
      | _ => x :: y :: l'
      end
  end.

Fixpoint sort_values (l : list A) : list A :=
  match l with
  | [] => []
  | x :: l' => insert x (sort_values l')
  end.

(** [x] may stand before [y]. *)
Definition le (x y : A) : Prop := cmp x y ≠ Gt.
End Defs.

(** The comparisons used as sort keys are total preorders. *)
Class Comparator {A} (cmp : A → A → comparison) := {
  cmp_opp : ∀ x y, cmp y x = CompOpp (cmp x y);
  cmp_le_trans : ∀ x y z, le cmp x y → le cmp y z → le cmp x z
}.

(** Two keys in turn: the second decides when the first ties. *)
Definition lex (c1 c2 : comparison) : comparison :=
  match c1 with Eq => c2 | _ => c1 end.

(** Missing keys sort last ([na_position='last']). *)
Definition na_last {K} (cmp : K → K → comparison) (a b : option K) : comparison :=
  match a, b with
  | Some x, Some y => cmp x y
  | Some _, None => Lt
  | None, Some _ => Gt
  | None, None => Eq
  end.

End Sort.

Import Sort.

(** ** Calendar dates: [pd.to_datetime(..., format='%d-%b-%Y')] *)

Module Dates.

(** A timestamp with no time component. *)
Record date := mkDate { year : nat; month : nat; day : nat }.

Definition cmp_date (a b : date) : comparison :=
  lex (Nat.compare (year a) (year b))
    (lex (Nat.compare (month a) (month b)) (Nat.compare (day a) (day b))).

Definition digit (c : ascii) : option nat :=
  let n := nat_of_ascii c in
  if (48 <=? n)%nat && (n <=? 57)%nat then Some (n - 48)%nat else None.

(** The decimal number written by [s], when [s] holds digits only. *)
Fixpoint number (acc : nat) (s : string) : option nat :=
  match s with
  | EmptyString => Some acc
  | String c s' =>
      match digit c with
      | Some d => number (10 * acc + d) s'
      | None => None
      end
  end.

Definition lower (c : ascii) : ascii :=
  let n := nat_of_ascii c in
  if (65 <=? n)%nat && (n <=? 90)%nat then ascii_of_nat (n + 32) else c.

Fixpoint lowercase (s : string) : string :=
  match s with
  | EmptyString => EmptyString
  | String c s' => String (lower c) (lowercase s')
  end.

(** [%b]: the abbreviated month name, in any letter case. *)
Definition month_of_abbr (s : string) : option nat :=
  (fix find (names : list string) (n : nat) : option nat :=
     match names with
     | [] => None
     | m :: rest => if String.eqb (lowercase s) m then Some n else find rest (S n)
     end)
    ["jan"; "feb"; "mar"; "apr"; "may"; "jun"; "jul"; "aug"; "sep"; "oct"; "nov"; "dec"]%string 1%nat.

Definition leap (y : nat) : bool :=
  ((y mod 4 =? 0) && negb (y mod 100 =? 0) || (y mod 400 =? 0))%nat.

Definition days_in_month (y m : nat) : nat :=
  match m with
  | 2 => if leap y then 29 else 28
  | 4 | 6 | 9 | 11 => 30
  | _ => 31
  end.

(** Split a text at every occurrence of [sep]. *)
Fixpoint split (sep : ascii) (s : string) : list string :=
  match s with
  | EmptyString => [EmptyString]
  | String c s' =>
      if Ascii.eqb c sep then EmptyString :: split sep s'
      else match split sep s' with
           | [] => [String c EmptyString]
           | w :: ws => String c w :: ws
           end
  end.

(** [%d]: one or two digits, or a blank and one digit. *)
Definition day_digits (d : string) : string :=
  match d with
  | String c (String c' EmptyString) =>
      if Ascii.eqb c " "%char then String c' EmptyString else d
  | _ => d
  end.

(** Parse one Date cell: the day ([%d]), a month abbreviation ([%b]) and
    four digits of year ([%Y]), separated by hyphens.  The day is between
    1 and the length of the month, the year is not 0.  [None] stands for
    the [ValueError] that pandas raises on a text that does not match the
    format. *)
Definition to_datetime (s : string) : option date :=
  match split "-"%char s with
  | [d; b; y] =>
      if bool_decide (1 ≤ String.length d ≤ 2) && bool_decide (String.length y = 4) then
        match number 0 (day_digits d), month_of_abbr b, number 0 y with
        | Some dd, Some mm, Some yy =>
            if bool_decide (1 ≤ dd ≤ days_in_month yy mm) && bool_decide (1 ≤ yy)
            then Some (mkDate yy mm dd) else None
        | _, _, _ => None
        end
      else None
  | _ => None
  end.

End Dates.

Import Dates.

(** ** Tables *)

Inductive signal := Hold | Buy | Sell.

(** The columns that the program carries along: 'Expiry', 'Close' and
    every further column of the file, by (stripped) column name.  An absent
    key of [Other] is a missing cell. *)
Record Cells := mkCells {
  Expiry : option string;
  Close : float;
  Other : gmap string string
}.

(** A row as [pd.read_csv] delivers it. *)
Record RawRow := mkRaw {
  raw_Date : option string;
  raw_cells : Cells
}.

(** A row once 'Stock' is set.  [D] is the type of the 'Date' cell: text
    in the frames of [dfs], a date after [pd.to_datetime]. *)
Record Row (D : Type) := mkRow {
  Stock : string;
  Date : D;
  cells : Cells
}.
Arguments mkRow {D} _ _ _.
Arguments Stock {D} _.
Arguments Date {D} _.
Arguments cells {D} _.

(** A row of the result: the merged row with the derived columns. *)
Record Point := mkPoint {
  row : Row date;
  MA_10 : float;
  STD_10 : float;
  Upper_Band : float;
  Lower_Band : float;
  Signal : signal;
  Std_Deviations : float
}.

Definition point_Stock (p : Point) : string := Stock (row p).
Definition point_Close (p : Point) : float := Close (cells (row p)).

(** ** The loader (lines 20-38) *)

Module Loader.

(** [Series.unique()]: the distinct values in order of first appearance. *)
Fixpoint unique `{EqDecision A} (l : list A) : list A :=
  match l with
  | [] => []
  | x :: l' => x :: filter (fun y => y ≠ x) (unique l')
  end.

(** The first non-missing cell of a column slice; missing when there is
    none.  This is what [GroupBy.first()] computes for each column of
    each group (pandas: "Compute the first entry of each column within
    each group. Defaults to skipping NA elements."). *)
Definition first_valid {A} (col : list (option A)) : option A :=
  head (omap (fun c : option A => c) col).

Definition first (group : list Cells) : Cells :=
  {| Expiry := first_valid (Expiry <$> group);
     Close := first_valid (Close <$> group);
     Other := foldr (∪) ∅ (Other <$> group) |}.

Definition cmp_Date_Expiry (a b : RawRow) : comparison :=
  lex (na_last String.compare (raw_Date a) (raw_Date b))
    (na_last String.compare (Expiry (raw_cells a)) (Expiry (raw_cells b))).

(** The rows of the group of date text [d], in frame order. *)
Definition group_of (d : string) (df : list RawRow) : list RawRow :=
  filter (fun r => raw_Date r = Some d) df.

(** [df.groupby('Date')]: one group for each distinct date text, by
    ascending key; rows without a date belong to no group
    ([dropna=True]).  [.first().reset_index()] turns each group into one
    row. *)
Definition groupby_Date_first (df : list RawRow) : list (string * Cells) :=
  (fun d => (d, first (raw_cells <$> group_of d df)))
    <$> sort_values String.compare (unique (omap raw_Date df)).

(** Lines 33-34:
    [df.sort_values(['Date', 'Expiry']).groupby('Date').first().reset_index()]
    and [df['Stock'] = stock_name].  (Line 32 strips the column names;
    columns are addressed by stripped name throughout.) *)
Definition normalize (stock_name : string) (df : list RawRow) : list (Row string) :=
  (fun '(d, c) => mkRow stock_name d c)
    <$> groupby_Date_first (sort_values cmp_Date_Expiry df).

(** What [pd.read_csv(file)] does, for each file name. *)
Inductive read_result :=
| FileNotFoundError
    (** there is no such file *)
| OtherError
    (** any other exception of the [try] body: [EmptyDataError] for a file
        of zero bytes, [ParserError], [UnicodeDecodeError],
        [PermissionError], a [KeyError] for a table without 'Date' or
        'Expiry' *)
| Table (df : list RawRow).

Inductive outcome (A : Type) :=
| Raised
| Returned (a : A).
Arguments Raised {A}.
Arguments Returned {A} _.

Definition files : list (string * string) :=
  [("Eternal", "Eternal.csv"); ("ADANIGREEN", "ADANIGREEN.csv");
   ("PAYTM", "PAYTM.csv"); ("NTPC", "NTPC.csv"); ("DLF", "DLF.csv")]%string.

Definition not_found (file : string) : string :=
  String.append "File " (String.append file " not found!").

(** The loop of lines 29-38.  [dfs] is the list being filled, [shown] the
    messages given to [st.error] so far.  Only [FileNotFoundError] is
    caught. *)
Fixpoint load (read_csv : string → read_result) (files : list (string * string))
    (dfs : list (list (Row string))) (shown : list string)
    : list string * outcome (list (list (Row string))) :=
  match files with
  | [] => (shown, Returned dfs)
  | (stock_name, file) :: rest =>
      match read_csv file with
      | Table df => load read_csv rest (dfs ++ [normalize stock_name df]) shown
      | FileNotFoundError => load read_csv rest dfs (shown ++ [not_found file])
      | OtherError => (shown, Raised)
      end
  end.

(** The frames that a run without exception leaves in [dfs], and the
    messages it shows: one frame for each file that is there, one message
    for each file that is not. *)
Definition frames (read_csv : string → read_result) (files : list (string * string))
    : list (list (Row string)) :=
  omap (fun '(stock_name, file) =>
          match read_csv file with
          | Table df => Some (normalize stock_name df)
          | _ => None
          end) files.

Definition warnings (read_csv : string → read_result) (files : list (string * string))
    : list string :=
  omap (fun '(_, file) =>
          match read_csv file with
          | FileNotFoundError => Some (not_found file)
          | _ => None
          end) files.

(** The file raises an exception that the loop does not catch. *)
Definition fatal (read_csv : string → read_result) (entry : string * string) : Prop :=
  read_csv entry.2 = OtherError.

#[global] Instance fatal_dec read_csv entry : Decision (fatal read_csv entry).
Proof. unfold fatal. destruct (read_csv entry.2); [right | left | right]; congruence. Defined.

(** The file is not there. *)
Definition missing (read_csv : string → read_result) (entry : string * string) : Prop :=
  read_csv entry.2 = FileNotFoundError.

#[global] Instance missing_dec read_csv entry : Decision (missing read_csv entry).
Proof. unfold missing. destruct (read_csv entry.2); [left | right | right]; congruence. Defined.

Definition cmp_Expiry (a b : RawRow) : comparison :=
  na_last String.compare (Expiry (raw_cells a)) (Expiry (raw_cells b)).

(** The rows that share the date text [d], sorted by 'Expiry' ascending
    (as text; missing last; ties in file order). *)
Definition candidates (d : string) (df : list RawRow) : list RawRow :=
  sort_values cmp_Expiry (group_of d df).

(** [r] has a cell wherever one of [others] has one. *)
Definition complete (r : RawRow) (others : list RawRow) : Prop :=
  is_Some (Expiry (raw_cells r)) ∧ is_Some (Close (raw_cells r)) ∧
  Forall (fun r' => dom (Other (raw_cells r')) ⊆ dom (Other (raw_cells r))) others.

(** The source contributes no row: its file is missing, or its table has
    no row with a date. *)
Definition no_rows (read_csv : string → read_result) (entry : string * string) : Prop :=
  read_csv entry.2 = FileNotFoundError ∨
  ∃ df, read_csv entry.2 = Table df ∧ omap raw_Date df = [].

End Loader.

Import Loader.

(** ** The analysis (lines 43-71) *)

Module Analysis.

Definition window_size : nat := 10.

(** Line 44: parse the whole 'Date' column; one text that does not match
    the format raises. *)
Definition parse_row (r : Row string) : option (Row date) :=
  d ← to_datetime (Date r); Some (mkRow (Stock r) d (cells r)).

Definition parse_Date (combined_df : list (Row string)) : option (list (Row date)) :=
  mapM parse_row combined_df.

Definition cmp_Stock_Date (a b : Row date) : comparison :=
  lex (String.compare (Stock a) (Stock b)) (cmp_date (Date a) (Date b)).

Definition cmp_Date (a b : Row date) : comparison := cmp_date (Date a) (Date b).

(** Lines 57-66 for one row, given its cells of 'MA_10' and 'STD_10'. *)
Definition derive (r : Row date) (ma sd : float) : Point :=
  let close := Close (cells r) in
  let upper := add ma (mul (Some 1%R) sd) in
  let lower := sub ma (mul (Some 1%R) sd) in
  let s := Hold in
  let s := if lt close lower then Buy else s in
  let s := if gt close upper then Sell else s in
  {| row := r; MA_10 := ma; STD_10 := sd;
     Upper_Band := upper; Lower_Band := lower;
     Signal := s;
     Std_Deviations := div (sub close ma) sd |}.

(** The column [stock_data['Close']]. *)
Definition Close_col (stock_data : list (Row date)) : list float :=
  (fun r => Close (cells r)) <$> stock_data.

(** The cells of 'Close' under the window that ends at row [i]. *)
Definition win (stock_data : list (Row date)) (i : nat) : list float :=
  window_at window_size (Close_col stock_data) i.

(** What the rolling statistics guarantee about the cells 'MA_10' and
    'STD_10' of a row, given its cell of 'Close': a defined deviation is
    not negative and has a defined average, and it is 0 only when the
    price sits on the average. *)
Definition statistics (close ma sd : float) : Prop :=
  (∀ s, sd = Some s → (0 <= s)%R ∧ ∃ m, ma = Some m) ∧
  (sd = Some 0%R → ∀ c m, close = Some c → ma = Some m → c = m).

(** Lines 55-66 for the frame of one stock. *)
Definition analyze_stock (stock_data : list (Row date)) : list Point :=
  let close := Close_col stock_data in
  let ma := rolling_mean window_size 1 close in
  let sd := rolling_std window_size 1 close in
  zip_with (fun r '(m, s) => derive r m s) stock_data (zip ma sd).

(** Lines 49-70: the loop over the stocks.  [sort_values('Date')] on one
    key is not a stable sort in pandas; the rows of a stock are in date
    order already at that point, and with distinct dates every sort gives
    the same frame. *)
Definition analyze (combined_df : list (Row date)) : list Point :=
  foldl
    (fun result_df stock =>
       let stock_data := filter (fun r => Stock r = stock) combined_df in
       let stock_data := sort_values cmp_Date stock_data in
       result_df ++ analyze_stock stock_data)
    [] (unique (Stock <$> combined_df)).

Definition load_and_analyze_data (read_csv : string → read_result)
    : list string * outcome (list Point) :=
  match load read_csv files [] [] with
  | (shown, Raised) => (shown, Raised)
  | (shown, Returned dfs) =>
      match dfs with
      | [] => (shown, Returned [])
      | _ =>
          match parse_Date (concat dfs) with
          | None => (shown, Raised)
          | Some combined_df =>
              (shown, Returned (analyze (sort_values cmp_Stock_Date combined_df)))
          end
      end
  end.

(** What the page does after the call (lines 75-79). *)
Inductive page :=
| Crashed
    (** an exception left [load_and_analyze_data] *)
| Stopped
    (** [data.empty]: "No data available", then [st.stop()] *)
| Dashboard (data : list Point).

Definition no_data : string := "No data available. Please check your CSV files.".

Definition main (read_csv : string → read_result) : list string * page :=
  match load_and_analyze_data read_csv with
  | (shown, Raised) => (shown, Crashed)
  | (shown, Returned data) =>
      match data with
      | [] => (shown ++ [no_data], Stopped)
      | _ => (shown, Dashboard data)
      end
  end.

(** The observations of one instrument taken on their own: the rows of
    its file, normalized, dated and in date order; none when the file is
    not there. *)
Definition own_rows (read_csv : string → read_result) (stock_name file : string)
    : list (Row date) :=
  match read_csv file with
  | Table df => sort_values cmp_Date (default [] (parse_Date (normalize stock_name df)))
  | _ => []
  end.

(** The rows of the result that belong to one stock. *)
Definition points_of (stock : string) (data : list Point) : list Point :=
  filter (fun p => point_Stock p = stock) data.

(** What a run computes for one stock; nothing when the run raises. *)
Definition computed (read_csv : string → read_result) (stock : string)
    : option (list Point) :=
  match (load_and_analyze_data read_csv).2 with
  | Returned data => Some (points_of stock data)
  | Raised => None
  end.

End Analysis.

Import Analysis.

(** ** Frames sorted by a text key *)

Module Frames.

(** The keys of two rows are in ascending order. *)
Definition key_le {A} (key : A → string) (a b : A) : Prop :=
  String.compare (key a) (key b) ≠ Gt.

(** The number of distinct date texts of the table of a file; 0 when the
    file is not there. *)
Definition distinct_dates (read_csv : string → read_result) (entry : string * string) : nat :=
  match read_csv entry.2 with
  | Table df => length (unique (omap raw_Date df))
  | _ => 0
  end.

End Frames.

Import Frames.

(** ** Day numbers: [Timestamp - pd.Timedelta(days=n)]

    A timestamp without time of day is a whole number of days; subtracting
    [n] days and comparing timestamps is arithmetic on that number.  The
    day number is the proleptic Gregorian ordinal, computed as Python's
    [date.toordinal] does. *)

Module Calendar.

Local Open Scope Z_scope.

(** Days before January 1st of year [y]. *)
Definition days_before_year (y : Z) : Z :=
  let y' := y - 1 in y' * 365 + y' / 4 - y' / 100 + y' / 400.

(** Days of year [y] before the first day of month [m]. *)
Definition days_before_month (y m : nat) : Z :=
  match m with
  | 1%nat => 0 | 2%nat => 31 | 3%nat => 59 | 4%nat => 90 | 5%nat => 120
  | 6%nat => 151 | 7%nat => 181 | 8%nat => 212 | 9%nat => 243 | 10%nat => 273
  | 11%nat => 304 | _ => 334
  end
  + (if (2 <? m)%nat && leap y then 1 else 0).

Definition toordinal (d : date) : Z :=
  days_before_year (Z.of_nat (year d)) + days_before_month (year d) (month d)
  + Z.of_nat (day d).

Definition days_in_year (y : nat) : Z := 365 + (if leap y then 1 else 0).

(** A date of the calendar. *)
Definition valid (d : date) : Prop :=
  (1 ≤ month d ≤ 12)%nat ∧ (1 ≤ day d ≤ days_in_month (year d) (month d))%nat.

End Calendar.

Import Calendar.

(** ** The page (lines 81-256)

    The widgets are functions of the result [data] and of what the user
    selects.  Texts that format a price ([:.2f]) and the styling of the
    charts are left out; a column or a chart is represented by the rows and
    the series it shows. *)

Module Dashboard.

#[global] Instance date_eq_dec : EqDecision date.
Proof. solve_decision. Defined.

#[global] Instance signal_eq_dec : EqDecision signal.
Proof. solve_decision. Defined.

(** Line 83: [sorted(data['Date'].dt.date.unique())]. *)
Definition available_dates (data : list Point) : list date :=
  sort_values cmp_date (unique ((fun p => Date (row p)) <$> data)).

(** Lines 84-88: the select box starts on index [len(available_dates)-1]. *)
Definition default_date (data : list Point) : option date :=
  last (available_dates data).

(** Line 92: [data[data['Date'] == selected_datetime]]. *)
Definition date_data (data : list Point) (selected : date) : list Point :=
  filter (fun p => Date (row p) = selected) data.

(** Lines 100-102: [date_data[date_data['Signal'] == s]]. *)
Definition with_signal (s : signal) (rows : list Point) : list Point :=
  filter (fun p => Signal p = s) rows.

(** One of the three columns (lines 104-129): one entry for each row, or
    the note that there is none. *)
Inductive column :=
| Info (note : string)
| Entries (rows : list Point).

Definition signal_column (s : signal) (note : string) (rows : list Point) : column :=
  match with_signal s rows with
  | [] => Info note
  | found => Entries found
  end.

(** Lines 97-131: the three columns, or the warning when no row has the
    selected date. *)
Inductive date_section :=
| Columns (buy sell hold : column)
| No_data_for_date.

Definition signals_for (data : list Point) (selected : date) : date_section :=
  match date_data data selected with
  | [] => No_data_for_date
  | rows =>
      Columns (signal_column Buy "No buy signals" rows)
        (signal_column Sell "No sell signals" rows)
        (signal_column Hold "No hold signals" rows)
  end.

(** [Series.value_counts()]: the count of each value that occurs; a value
    that does not occur has no entry. *)
Definition value_counts (col : list signal) (s : signal) : option nat :=
  match length (filter (fun s' => s' = s) col) with
  | O => None
  | n => Some n
  end.

(** [Series.get(key, default)]. *)
Definition get (counts : signal → option nat) (key : signal) (default : nat) : nat :=
  match counts key with
  | Some n => n
  | None => default
  end.

(** Lines 247-256: the three metrics, shown when the date has rows. *)
Definition summary (rows : list Point) : option (nat * nat * nat) :=
  match rows with
  | [] => None
  | _ =>
      let signal_summary := value_counts (Signal <$> rows) in
      Some (get signal_summary Buy 0, get signal_summary Sell 0, get signal_summary Hold 0)
  end.

(** Lines 137-141: [sorted(data['Stock'].unique())], the options and the
    default of the multiselect. *)
Definition stock_options (data : list Point) : list string :=
  sort_values String.compare (unique (point_Stock <$> data)).

Inductive time_period := All_Data | Last_7_Days | Last_14_Days.

(** [data['Date'].max()]; nothing for a frame without rows. *)
Definition max_Date (data : list Point) : option date :=
  foldr (fun p acc =>
           match acc with
           | Some m => Some (if cmp_date (Date (row p)) m is Gt then Date (row p) else m)
           | None => Some (Date (row p))
           end) None data.

(** [data[data['Date'] >= data['Date'].max() - pd.Timedelta(days=n)]]. *)
Definition since (n : Z) (data : list Point) : list Point :=
  match max_Date data with
  | Some m => filter (fun p => (toordinal m - n ≤ toordinal (Date (row p)))%Z) data
  | None => []
  end.

(** Lines 151-159. *)
Definition chart_data (period : time_period) (data : list Point) : list Point :=
  match period with
  | Last_7_Days => since 7 data
  | Last_14_Days => since 14 data
  | All_Data => data
  end.

(** One [go.Scatter]: its name, its mode and its two series. *)
Record trace := mkTrace {
  name : string;
  mode : string;
  x : list date;
  y : list float
}.

Record figure := mkFigure {
  title : string;
  traces : list trace
}.

Definition scatter (name mode : string) (col : Point → float) (rows : list Point) : trace :=
  mkTrace name mode ((fun p => Date (row p)) <$> rows) (col <$> rows).

Definition chart_title (stock : string) : string :=
  String.append stock " - Price Analysis with Trading Signals".

(** Lines 168-239 for the rows of one stock: the price line, the moving
    average, the two bands, and the markers of the signals that occur. *)
Definition chart (stock : string) (stock_data : list Point) : figure :=
  let buy_points := with_signal Buy stock_data in
  let sell_points := with_signal Sell stock_data in
  mkFigure (chart_title stock)
    ([scatter "Close Price" "lines+markers" point_Close stock_data;
      scatter "10-Day MA" "lines" MA_10 stock_data;
      scatter "Upper Band (+1σ)" "lines" Upper_Band stock_data;
      scatter "Lower Band (-1σ)" "lines" Lower_Band stock_data]
     ++ match buy_points with
        | [] => []
        | _ => [scatter "Buy Signal" "markers" point_Close buy_points]
        end
     ++ match sell_points with
        | [] => []
        | _ => [scatter "Sell Signal" "markers" point_Close sell_points]
        end).

(** Lines 143-241: the charts given to [st.plotly_chart], in order.  A
    selected stock without rows in the period is passed over. *)
Definition charts (selected_stocks : list string) (period : time_period)
    (data : list Point) : list figure :=
  match selected_stocks with
  | [] => []
  | _ =>
      let chart_data := chart_data period data in
      omap (fun stock =>
              match filter (fun p => point_Stock p = stock) chart_data with
              | [] => None
              | stock_data => Some (chart stock stock_data)
              end) selected_stocks
  end.

End Dashboard.

Import Dashboard.

(** ** Arithmetic of the numeric columns

    The columns 'Close', 'MA_10', 'STD_10', the bands and the score are
    float64 columns.  The operations the program applies to them are
    collected in one interface with two instances: the exact cells of
    [Float] above, and IEEE binary64 as specified in the Standard Library
    (round to nearest even, signed zeros, infinities, NaN). *)

Module Arithmetic.

Class Arith (F : Type) := {
  nan : F;
  (** an integer used as a float: [<float64_t>nobs], the literals 0 and 1 *)
  of_nat : nat → F;
  neg : F → F;
  plus : F → F → F;
  minus : F → F → F;
  times : F → F → F;
  divide : F → F → F;
  root : F → F;
  (** [==] and [<]: false as soon as one side is NaN *)
  eqb : F → F → bool;
  ltb : F → F → bool;
  isinf : F → bool;
  signbit : F → bool
}.

End Arithmetic.

(** Exact arithmetic: the cells of [Float].  There is no infinite cell
    and no negative zero. *)
Module Exact.

Definition eq (a b : float) : bool :=
  match a, b with
  | Some x, Some y => if Req_dec_T x y then true else false
  | _, _ => false
  end.

Definition opp (a : float) : float :=
  match a with Some x => Some (- x)%R | None => None end.

Definition sqrt (a : float) : float :=
  match a with Some x => Some (R_sqrt.sqrt x) | None => None end.

#[global] Instance exact : Arithmetic.Arith float := {|
  Arithmetic.nan := None;
  Arithmetic.of_nat n := Some (INR n);
  Arithmetic.neg := opp;
  Arithmetic.plus := add;
  Arithmetic.minus := sub;
  Arithmetic.times := mul;
  Arithmetic.divide := div;
  Arithmetic.root := sqrt;
  Arithmetic.eqb := eq;
  Arithmetic.ltb := lt;
  Arithmetic.isinf := fun _ => false;
  Arithmetic.signbit := fun a => lt a (Some 0%R)
|}.

End Exact.

(** IEEE binary64: 53 bits of precision, exponents below 1024. *)
Module Binary64.

Import SpecFloat.

Definition prec : Z := 53.
Definition emax : Z := 1024.

Definition float64 : Type := spec_float.

Definition NaN : float64 := S754_nan.

(** [+0.0] and [+inf]. *)
Definition zero : float64 := S754_zero false.
Definition infinity : float64 := S754_infinity false.

(** The double nearest to [m * 2^e]. *)
Definition of_Z (m e : Z) : float64 := binary_normalize prec emax m e false.

(** The double nearest to the decimal [m * 10^-k], for [m] and [10^k]
    below [2^53]: what a correctly rounding parser makes of the text. *)
Definition decimal (m : Z) (k : nat) : float64 :=
  SFdiv prec emax (of_Z m 0) (of_Z (10 ^ Z.of_nat k) 0).

Definition is_infinite (x : float64) : bool :=
  match x with S754_infinity _ => true | _ => false end.

Definition is_finite (x : float64) : bool :=
  match x with
  | S754_zero _ | S754_finite _ _ _ => true
  | _ => false
  end.

Definition sign (x : float64) : bool :=
  match x with
  | S754_zero s | S754_infinity s | S754_finite s _ _ => s
  | S754_nan => false
  end.

#[global] Instance binary64 : Arithmetic.Arith float64 := {|
  Arithmetic.nan := S754_nan;
  Arithmetic.of_nat n := of_Z (Z.of_nat n) 0;
  Arithmetic.neg := SFopp;
  Arithmetic.plus := SFadd prec emax;
  Arithmetic.minus := SFsub prec emax;
  Arithmetic.times := SFmul prec emax;
  Arithmetic.divide := SFdiv prec emax;
  Arithmetic.root := SFsqrt prec emax;
  Arithmetic.eqb := SFeqb;
  Arithmetic.ltb := SFltb;
  Arithmetic.isinf := is_infinite;
  Arithmetic.signbit := sign
|}.

End Binary64.

(** ** The running update behind [.rolling(...).mean()] and [.std()]

    pandas does not compute a window afresh.  [roll_mean] and [roll_var]
    (pandas/_libs/window/aggregations.pyx, pandas 2) keep a running state over the
    rows: a row that enters the window is added to it, a row that leaves
    is removed from it, with Kahan compensation of the sum and Welford's
    update of the sum of squared deviations.  In binary64 the state, and
    with it the cells of a row, depends on all the rows before it. *)

Module Aggregations.

Import Arithmetic.

(** [FixedWindowIndexer.get_window_bounds]: row [i] has the window
    [start i .. end_ i - 1]. *)
Definition start (window i : nat) : nat := i + 1 - window.
Definition end_ (i : nat) : nat := i + 1.

(** [values[a:b]]. *)
Definition slice {A} (a b : nat) (values : list A) : list A := take (b - a) (drop a values).

Section Arith.

Context {F : Type} `{Arith F}.

Definition zero : F := of_nat 0.

(** [BaseWindow._prep_values]: an infinite cell is given to the running
    update as NaN. *)
Definition prep_values (values : list F) : list F :=
  (fun v => if isinf v then nan else v) <$> values.

(** The loop shared by [roll_mean] and [roll_var]: the state after row
    [i].  The first window is set up with additions only; afterwards the
    rows that left the window are removed, then the new rows are added. *)
Definition roll {State} (setup : F → State) (add_ remove_ : State → F → State)
    (window : nat) (values : list F) : nat → State :=
  fix state_at (i : nat) : State :=
    let s := start window i in
    let e := end_ i in
    match i with
    | O => foldl add_ (setup (default nan (values !! s))) (slice s e values)
    | S j =>
        if bool_decide (end_ j ≤ s) then
          foldl add_ (setup (default nan (values !! s))) (slice s e values)
        else
          let st := foldl remove_ (state_at j) (slice (start window j) s values) in
          foldl add_ st (slice (end_ j) e values)
    end.

(** *** [roll_mean] *)

Record mean_state := MeanState {
  nobs : nat;
  sum_x : F;
  neg_ct : nat;
  compensation_add : F;
  compensation_remove : F;
  num_consecutive_same_value : nat;
  prev_value : F
}.

Definition setup_mean (first : F) : mean_state :=
  MeanState 0 zero 0 zero zero 0 first.

(** [add_mean]: Kahan summation; a NaN is passed over. *)
Definition add_mean (st : mean_state) (val : F) : mean_state :=
  if eqb val val then
    let y := minus val (compensation_add st) in
    let t := plus (sum_x st) y in
    {| nobs := nobs st + 1;
       sum_x := t;
       neg_ct := if signbit val then neg_ct st + 1 else neg_ct st;
       compensation_add := minus (minus t (sum_x st)) y;
       compensation_remove := compensation_remove st;
       num_consecutive_same_value :=
         if eqb val (prev_value st) then num_consecutive_same_value st + 1 else 1;
       prev_value := val |}
  else st.

Definition remove_mean (st : mean_state) (val : F) : mean_state :=
  if eqb val val then
    let y := minus (neg val) (compensation_remove st) in
    let t := plus (sum_x st) y in
    {| nobs := nobs st - 1;
       sum_x := t;
       neg_ct := if signbit val then neg_ct st - 1 else neg_ct st;
       compensation_add := compensation_add st;
       compensation_remove := minus (minus t (sum_x st)) y;
       num_consecutive_same_value := num_consecutive_same_value st;
       prev_value := prev_value st |}
  else st.

(** [calc_mean]: a window of one repeated value gives that value; a mean
    of the wrong sign is set to 0. *)
Definition calc_mean (minp : nat) (st : mean_state) : F :=
  if bool_decide (minp ≤ nobs st) && bool_decide (0 < nobs st) then
    let result := divide (sum_x st) (of_nat (nobs st)) in
    if bool_decide (nobs st ≤ num_consecutive_same_value st) then prev_value st
    else if bool_decide (neg_ct st = 0) && ltb result zero then zero
    else if bool_decide (neg_ct st = nobs st) && ltb zero result then zero
    else result
  else nan.

Definition roll_mean (window minp : nat) (values : list F) : list F :=
  (fun i => calc_mean minp (roll setup_mean add_mean remove_mean window values i))
    <$> seq 0 (length values).

(** *** [roll_var] *)

Record var_state := VarState {
  v_nobs : nat;
  mean_x : F;
  ssqdm_x : F;
  v_compensation_add : F;
  v_compensation_remove : F;
  v_num_consecutive_same_value : nat;
  v_prev_value : F
}.

Definition setup_var (first : F) : var_state :=
  VarState 0 zero zero zero zero 0 first.

(** [add_var]: Welford's update, with Kahan compensation of the mean. *)
Definition add_var (st : var_state) (val : F) : var_state :=
  if eqb val val then
    let nobs := v_nobs st + 1 in
    let prev_mean := minus (mean_x st) (v_compensation_add st) in
    let y := minus val (v_compensation_add st) in
    let t := minus y (mean_x st) in
    let delta := t in
    let mean :=
      if bool_decide (nobs = 0) then zero
      else plus (mean_x st) (divide delta (of_nat nobs)) in
    {| v_nobs := nobs;
       mean_x := mean;
       ssqdm_x := plus (ssqdm_x st) (times (minus val prev_mean) (minus val mean));
       v_compensation_add := minus (plus t (mean_x st)) y;
       v_compensation_remove := v_compensation_remove st;
       v_num_consecutive_same_value :=
         if eqb val (v_prev_value st) then v_num_consecutive_same_value st + 1 else 1;
       v_prev_value := val |}
  else st.

Definition remove_var (st : var_state) (val : F) : var_state :=
  if eqb val val then
    let nobs := v_nobs st - 1 in
    if bool_decide (nobs = 0) then
      {| v_nobs := nobs; mean_x := zero; ssqdm_x := zero;
         v_compensation_add := v_compensation_add st;
         v_compensation_remove := v_compensation_remove st;
         v_num_consecutive_same_value := v_num_consecutive_same_value st;
         v_prev_value := v_prev_value st |}
    else
      let prev_mean := minus (mean_x st) (v_compensation_remove st) in
      let y := minus val (v_compensation_remove st) in
      let t := minus y (mean_x st) in
      let delta := t in
      let mean := minus (mean_x st) (divide delta (of_nat nobs)) in
      {| v_nobs := nobs;
         mean_x := mean;
         ssqdm_x := minus (ssqdm_x st) (times (minus val prev_mean) (minus val mean));
         v_compensation_add := v_compensation_add st;
         v_compensation_remove := minus (plus t (mean_x st)) y;
         v_num_consecutive_same_value := v_num_consecutive_same_value st;
         v_prev_value := v_prev_value st |}
  else st.

(** [calc_var]: a window of one repeated value has the variance 0. *)
Definition calc_var (minp ddof : nat) (st : var_state) : F :=
  if bool_decide (minp ≤ v_nobs st) && bool_decide (ddof < v_nobs st) then
    if bool_decide (v_nobs st = 1) || bool_decide (v_nobs st ≤ v_num_consecutive_same_value st)
    then zero
    else divide (ssqdm_x st) (minus (of_nat (v_nobs st)) (of_nat ddof))
  else nan.

Definition roll_var (window minp ddof : nat) (values : list F) : list F :=
  (fun i => calc_var (Nat.max minp 1) ddof
              (roll setup_var add_var remove_var window values i))
    <$> seq 0 (length values).

(** [zsqrt]: the square root, 0 for a negative variance. *)
Definition zsqrt (x : F) : F := if ltb x zero then zero else root x.

(** [Series.rolling(window, min_periods).mean()]. *)
Definition rolling_mean (window min_periods : nat) (col : list F) : list F :=
  roll_mean window min_periods (prep_values col).

(** [Series.rolling(window, min_periods).std()], with [ddof = 1]. *)
Definition rolling_std (window min_periods : nat) (col : list F) : list F :=
  zsqrt <$> roll_var window min_periods 1 (prep_values col).

End Arith.

End Aggregations.

(** ** Lines 55-66 on one 'Close' column, in a given arithmetic *)

Module Kernel.

Import Arithmetic.

Section Arith.

Context {F : Type} `{Arith F}.

Record Point := mkPoint {
  Close : F;
  MA_10 : F;
  STD_10 : F;
  Upper_Band : F;
  Lower_Band : F;
  Signal : signal;
  Std_Deviations : F
}.

(** Lines 57-66 for one row. *)
Definition derive (close ma sd : F) : Point :=
  let upper := plus ma (times (of_nat 1) sd) in
  let lower := minus ma (times (of_nat 1) sd) in
  let s := Hold in
  let s := if ltb close lower then Buy else s in
  let s := if ltb upper close then Sell else s in
  {| Close := close; MA_10 := ma; STD_10 := sd;
     Upper_Band := upper; Lower_Band := lower;
     Signal := s;
     Std_Deviations := divide (minus close ma) sd |}.

(** Lines 55-66 for the 'Close' column of one stock, in date order. *)
Definition analyze_stock (close : list F) : list Point :=
  let ma := Aggregations.rolling_mean window_size 1 close in
  let sd := Aggregations.rolling_std window_size 1 close in
  zip_with (fun c '(m, s) => derive c m s) close (zip ma sd).

End Arith.

End Kernel.

(** ** What the running update holds in exact arithmetic *)

Module Invariants.

Import Arithmetic Aggregations.

Local Open Scope R_scope.

(** The number of negative values. *)
Fixpoint negatives (xs : list R) : nat :=
  match xs with
  | [] => 0
  | x :: xs' => (if Rlt_dec x 0 then 1 else 0) + negatives xs'
  end.

(** The last [k] values of [h] are all equal to the cell [prev]. *)
Definition same_run (k : nat) (prev : float) (h : list R) : Prop :=
  ∀ x, x ∈ drop (length h - k) h → prev = Some x.

(** What the state of [roll_mean] holds in exact arithmetic, after the
    cells [full] have been added and the first [s] of them removed: the
    number, the sum and the number of negative values of the cells that
    are left and are not NaN; both compensations are 0. *)
Definition mean_rep (st : mean_state) (full : list float) (s : nat) : Prop :=
  let xs := dropna (drop s full) in
  (s ≤ length full)%nat ∧
  nobs st = length xs ∧
  sum_x st = Some (sum xs) ∧
  compensation_add st = Some 0 ∧
  compensation_remove st = Some 0 ∧
  neg_ct st = negatives xs ∧
  same_run (num_consecutive_same_value st) (prev_value st) (dropna full).

(** The same for [roll_var]: the mean and the sum of squared deviations
    from it. *)
Definition var_rep (st : var_state) (full : list float) (s : nat) : Prop :=
  let xs := dropna (drop s full) in
  (s ≤ length full)%nat ∧
  v_nobs st = length xs ∧
  (∃ m, mean_x st = Some m ∧ INR (length xs) * m = sum xs ∧ ssqdm_x st = Some (ssqdm m xs)) ∧
  v_compensation_add st = Some 0 ∧
  v_compensation_remove st = Some 0 ∧
  same_run (v_num_consecutive_same_value st) (v_prev_value st) (dropna full).

(** The states of the running update in binary64 on a column that
    repeats one finite value [x]: the window holds [length full - s]
    cells, and at least as many equal values have been counted in a
    row. *)
Definition flat_mean (x : Binary64.float64) (st : mean_state) (full : list Binary64.float64)
    (s : nat) : Prop :=
  prev_value st = x ∧ (s ≤ length full)%nat ∧ nobs st = (length full - s)%nat ∧
  (nobs st ≤ num_consecutive_same_value st)%nat.

Definition flat_var (x : Binary64.float64) (st : var_state) (full : list Binary64.float64)
    (s : nat) : Prop :=
  v_prev_value st = x ∧ (s ≤ length full)%nat ∧ v_nobs st = (length full - s)%nat ∧
  (v_nobs st ≤ v_num_consecutive_same_value st)%nat.

(** The numeric columns of a row of the result. *)
Definition numeric (p : Point) : Kernel.Point :=
  Kernel.mkPoint (point_Close p) (MA_10 p) (STD_10 p) (Upper_Band p) (Lower_Band p)
    (Signal p) (Std_Deviations p).

End Invariants.

(** ** The design document's rolling statistics

    Section 4.3 of the design document, in its own words, to be compared
    with what the program computes. *)

Module Design.

Local Open Scope R_scope.

(** [start = max(0, i - W + 1)] *)
Definition start (W i : nat) : Z := Z.max 0 (Z.of_nat i - Z.of_nat W + 1).


(** Arithmetic mean. *)
Definition mean (l : list R) : R := sum l / INR (length l).



End Design.

(** ** Sample inputs *)

Module Examples.

Local Open Scope string_scope.

(** A complete row: date, expiry and closing price, no further column. *)
Definition quote (d e : string) (c : R) : RawRow :=
  mkRaw (Some d) (mkCells (Some e) (Some c) ∅).

(** 'DLF.csv' with two trading days, the later one first. *)
Definition dlf_csv : list RawRow :=
  [quote "02-Jan-2024" "25-Jan-2024" 3; quote "01-Jan-2024" "25-Jan-2024" 1].

(** Only 'DLF.csv' is there. *)
Definition only_dlf (file : string) : read_result :=
  if String.eqb file "DLF.csv" then Table dlf_csv else FileNotFoundError.

Definition dlf_day1 : Row date :=
  mkRow "DLF" (mkDate 2024 1 1) (mkCells (Some "25-Jan-2024") (Some 1%R) ∅).

Definition dlf_day2 : Row date :=
  mkRow "DLF" (mkDate 2024 1 2) (mkCells (Some "25-Jan-2024") (Some 3%R) ∅).

(** The two rows of the result for that input. *)
Definition dlf_point1 : Point :=
  derive dlf_day1 (mean_of 1 [Some 1%R]) (std_of 1 1 [Some 1%R]).

Definition dlf_point2 : Point :=
  derive dlf_day2 (mean_of 1 [Some 1%R; Some 3%R]) (std_of 1 1 [Some 1%R; Some 3%R]).

(** 'Eternal.csv' is there but cannot be parsed (say, a file of zero
    bytes); the other files are tables without rows. *)
Definition corrupt_eternal (file : string) : read_result :=
  if String.eqb file "Eternal.csv" then OtherError else Table [].

(** Every file is there and holds a header line only. *)
Definition all_empty (file : string) : read_result := Table [].

(** No file is there. *)
Definition all_missing (file : string) : read_result := FileNotFoundError.

(** 'Eternal.csv' with one trading day. *)
Definition eternal_csv : list RawRow := [quote "01-Jan-2024" "25-Jan-2024" 7].

Definition eternal_day1 : Row date :=
  mkRow "Eternal" (mkDate 2024 1 1) (mkCells (Some "25-Jan-2024") (Some 7%R) ∅).

Definition eternal_point1 : Point :=
  derive eternal_day1 (mean_of 1 [Some 7%R]) (std_of 1 1 [Some 7%R]).

(** Two inputs that differ in 'DLF.csv' only: in the second one its single
    date is written year first. *)
Definition eternal_and_dlf (file : string) : read_result :=
  if String.eqb file "Eternal.csv" then Table eternal_csv
  else if String.eqb file "DLF.csv" then Table dlf_csv
  else FileNotFoundError.

Definition eternal_and_iso_dlf (file : string) : read_result :=
  if String.eqb file "Eternal.csv" then Table eternal_csv
  else if String.eqb file "DLF.csv" then Table [quote "2024-01-02" "25-Jan-2024" 3]
  else FileNotFoundError.

Definition only_eternal (file : string) : read_result :=
  if String.eqb file "Eternal.csv" then Table eternal_csv else FileNotFoundError.

(** 'NTPC.csv' with a further column 'Open'. *)
Definition ntpc_csv : list RawRow :=
  [mkRaw (Some "01-Jan-2024")
     (mkCells (Some "25-Jan-2024") (Some 350%R) {["Open" := "348.5"]})].

Definition only_ntpc (file : string) : read_result :=
  if String.eqb file "NTPC.csv" then Table ntpc_csv else FileNotFoundError.

Definition ntpc_day1 : Row date :=
  mkRow "NTPC" (mkDate 2024 1 1)
    (mkCells (Some "25-Jan-2024") (Some 350%R) {["Open" := "348.5"]}).

Definition ntpc_point1 : Point :=
  derive ntpc_day1 (mean_of 1 [Some 350%R]) (std_of 1 1 [Some 350%R]).

(** Two rows of one date.  The row of the earlier expiry has no cell of
    'Open'; the other one has. *)
Definition near_month : RawRow :=
  mkRaw (Some "01-Jan-2024") (mkCells (Some "25-Jan-2024") (Some 100%R) ∅).

Definition far_month : RawRow :=
  mkRaw (Some "01-Jan-2024")
    (mkCells (Some "29-Feb-2024") (Some 101%R) {["Open" := "99"]}).

Definition duplicate_csv : list RawRow := [far_month; near_month].

(** One date written in two ways. *)
Definition respelled_csv : list RawRow :=
  [quote "1-Jan-2024" "25-Jan-2024" 5; quote "01-Jan-2024" "25-Jan-2024" 6].

(** The windows of the scenarios of the design document (section 8): nine
    closes of 100 then one of 80, and a flat window. *)
Definition closes_X : list float := replicate 9 (Some 100%R) ++ [Some 80%R].

Definition closes_flat : list float := replicate 10 (Some 10%R).

(** The messages shown when only 'DLF.csv' is there. *)
Definition dlf_shown : list string :=
  not_found <$> ["Eternal.csv"; "ADANIGREEN.csv"; "PAYTM.csv"; "NTPC.csv"].

End Examples.

(** ** Sample inputs for the page and for missing cells *)

Module Samples.

Local Open Scope string_scope.

(** 'DLF.csv' with one row whose cell of 'Close' is blank. *)
Definition only_blank (file : string) : read_result :=
  if String.eqb file "DLF.csv"
  then Table [mkRaw (Some "01-Jan-2024") (mkCells (Some "25-Jan-2024") None ∅)]
  else FileNotFoundError.

Definition blank_point : Point :=
  derive (mkRow "DLF" (mkDate 2024 1 1) (mkCells (Some "25-Jan-2024") None ∅))
    (mean_of 1 [None]) (std_of 1 1 [None]).

(** The result for 'Eternal.csv' with one day and 'DLF.csv' with two. *)
Definition two_stocks : list Point :=
  [Examples.dlf_point1; Examples.dlf_point2; Examples.eternal_point1].

(** Two first rows: their signals need no comparison of numbers. *)
Definition first_rows : list Point := [Examples.dlf_point1; Examples.eternal_point1].

(** 'DLF.csv' with two days at 10 and a fall to 1 on the third. *)
Definition dip_csv : list RawRow :=
  [Examples.quote "01-Jan-2024" "25-Jan-2024" 10; Examples.quote "02-Jan-2024" "25-Jan-2024" 10;
   Examples.quote "03-Jan-2024" "25-Jan-2024" 1].

Definition only_dip (file : string) : read_result :=
  if String.eqb file "DLF.csv" then Table dip_csv else FileNotFoundError.

Definition dip_day (d : nat) (c : R) : Row date :=
  mkRow "DLF" (mkDate 2024 1 d) (mkCells (Some "25-Jan-2024") (Some c) ∅).

Definition dip_closes : list float := [Some 10%R; Some 10%R; Some 1%R].

(** The row of the third day, and the result for that input. *)
Definition dip_point3 : Point :=
  derive (dip_day 3 1) (mean_of 1 dip_closes) (std_of 1 1 dip_closes).

Definition dip_points : list Point :=
  [derive (dip_day 1 10) (mean_of 1 [Some 10%R]) (std_of 1 1 [Some 10%R]);
   derive (dip_day 2 10) (mean_of 1 [Some 10%R; Some 10%R]) (std_of 1 1 [Some 10%R; Some 10%R]);
   dip_point3].

(** 'DLF.csv' with two days at 1 and a rise to 10 on the third. *)
Definition rise_csv : list RawRow :=
  [Examples.quote "01-Jan-2024" "25-Jan-2024" 1; Examples.quote "02-Jan-2024" "25-Jan-2024" 1;
   Examples.quote "03-Jan-2024" "25-Jan-2024" 10].

Definition only_rise (file : string) : read_result :=
  if String.eqb file "DLF.csv" then Table rise_csv else FileNotFoundError.

Definition rise_closes : list float := [Some 1%R; Some 1%R; Some 10%R].

Definition rise_point3 : Point :=
  derive (dip_day 3 10) (mean_of 1 rise_closes) (std_of 1 1 rise_closes).

Definition rise_points : list Point :=
  [derive (dip_day 1 1) (mean_of 1 [Some 1%R]) (std_of 1 1 [Some 1%R]);
   derive (dip_day 2 1) (mean_of 1 [Some 1%R; Some 1%R]) (std_of 1 1 [Some 1%R; Some 1%R]);
   rise_point3].

(** 'DLF.csv' with four days; the close of the second and of the fourth
    day is blank. *)
Definition gap_row (d : string) (c : float) : RawRow :=
  mkRaw (Some d) (mkCells (Some "25-Jan-2024") c ∅).

Definition gap_csv : list RawRow :=
  [gap_row "01-Jan-2024" (Some 1%R); gap_row "02-Jan-2024" None;
   gap_row "03-Jan-2024" (Some 3%R); gap_row "04-Jan-2024" None].

Definition only_gap (file : string) : read_result :=
  if String.eqb file "DLF.csv" then Table gap_csv else FileNotFoundError.

Definition gap_day (d : nat) (c : float) : Row date :=
  mkRow "DLF" (mkDate 2024 1 d) (mkCells (Some "25-Jan-2024") c ∅).

Definition gap_closes : list float := [Some 1%R; None; Some 3%R; None].

(** The rows of the second and of the fourth day, and the result for that
    input. *)
Definition gap_point2 : Point :=
  derive (gap_day 2 None) (mean_of 1 [Some 1%R; None]) (std_of 1 1 [Some 1%R; None]).

Definition gap_point4 : Point :=
  derive (gap_day 4 None) (mean_of 1 gap_closes) (std_of 1 1 gap_closes).

Definition gap_points : list Point :=
  [derive (gap_day 1 (Some 1%R)) (mean_of 1 [Some 1%R]) (std_of 1 1 [Some 1%R]);
   gap_point2;
   derive (gap_day 3 (Some 3%R)) (mean_of 1 [Some 1%R; None; Some 3%R])
     (std_of 1 1 [Some 1%R; None; Some 3%R]);
   gap_point4].

(** Two rows of one date; the row of the earlier expiry has no close. *)
Definition near_unpriced : RawRow :=
  mkRaw (Some "01-Jan-2024") (mkCells (Some "25-Jan-2024") None ∅).

Definition far_priced : RawRow :=
  mkRaw (Some "01-Jan-2024") (mkCells (Some "29-Feb-2024") (Some 101%R) ∅).

Definition unpriced_csv : list RawRow := [far_priced; near_unpriced].

(** Columns of binary64 closes: two closes so small that the square of
    their distance is below the least positive double ([2^-700] is about
    1.9e-211), and two columns of prices with two decimals. *)
Definition tiny_closes : list Binary64.float64 :=
  [Binary64.of_Z 1 (-700); Binary64.of_Z 3 (-700)].

Definition cent_closes : list Binary64.float64 :=
  [Binary64.decimal 15 2; Binary64.decimal 10 2; Binary64.decimal 20 2].

Definition rupee_closes : list Binary64.float64 :=
  [Binary64.decimal 20227 2; Binary64.decimal 13227 2; Binary64.decimal 6227 2].

(** The columns of the scenarios of the design document (section 8) in
    binary64: nine closes of 100 then 80, nine of 50 then 70, fifteen
    of 10. *)
Definition X_closes : list Binary64.float64 :=
  replicate 9 (Binary64.of_Z 100 0) ++ [Binary64.of_Z 80 0].

Definition Y_closes : list Binary64.float64 :=
  replicate 9 (Binary64.of_Z 50 0) ++ [Binary64.of_Z 70 0].

Definition flat_closes : list Binary64.float64 := replicate 15 (Binary64.of_Z 10 0).

End Samples.

(** * Properties *)

(** ** Numeric cells and window statistics *)

Section FloatFacts.

Local Open Scope R_scope.

Lemma lt_Less (a b : float) : lt a b = true ↔ Less a b.
Proof.
  destruct a as [x|], b as [y|]; simpl; try (split; [discriminate | tauto]).
  destruct (Rlt_dec x y); split; auto; discriminate.
Qed.

Lemma mul_one (a : float) : mul (Some 1) a = a.
Proof. destruct a as [x|]; simpl; [f_equal; lra | reflexivity]. Qed.

Lemma ssqdm_nonneg (m : R) (l : list R) : 0 <= ssqdm m l.
Proof.
  unfold ssqdm. induction l as [|x l IH]; csimpl; [lra |].
  pose proof (Rle_0_sqr (x - m)) as Hsq. unfold Rsqr in Hsq. lra.
Qed.

(** A sum of squared deviations vanishes only when every value sits on
    the centre. *)
Lemma ssqdm_zero (m : R) (l : list R) : ssqdm m l = 0 → ∀ x, x ∈ l → x = m.
Proof.
  unfold ssqdm. induction l as [|y l IH]; csimpl; intros Hz x Hx.
  - inversion Hx.
  - pose proof (Rle_0_sqr (y - m)) as Hsq. unfold Rsqr in Hsq.
    pose proof (ssqdm_nonneg m l) as Hl. unfold ssqdm in Hl.
    assert (Hy : (y - m) * (y - m) = 0) by lra.
    assert (Hr : sum ((λ x, (x - m) * (x - m)) <$> l) = 0) by lra.
    apply elem_of_cons in Hx as [-> | Hx].
    + apply Rmult_integral in Hy. lra.
    + apply IH; assumption.
Qed.

Lemma INR_ge_2 (n : nat) : (1 < n)%nat → 0 < INR n - INR 1.
Proof. intros H. apply lt_INR in H. lra. Qed.

End FloatFacts.

Section RollingFacts.

Local Open Scope R_scope.

Lemma mean_of_Some (w : list float) (m : R) :
  mean_of 1 w = Some m ↔
  (1 ≤ length (dropna w))%nat ∧ m = sum (dropna w) / INR (length (dropna w)).
Proof.
  unfold mean_of.
  destruct (bool_decide_reflect (1 ≤ length (dropna w))%nat);
    destruct (bool_decide_reflect (0 < length (dropna w))%nat); simpl;
    split; try (intros [= <-]; split; [assumption | reflexivity]);
    try (intros [? ->]; reflexivity); try discriminate; intros [? _]; lia.
Qed.

Lemma var_of_Some (w : list float) (v : R) :
  var_of 1 1 w = Some v ↔
  (2 ≤ length (dropna w))%nat ∧
  v = ssqdm (sum (dropna w) / INR (length (dropna w))) (dropna w)
      / (INR (length (dropna w)) - INR 1).
Proof.
  unfold var_of.
  destruct (bool_decide_reflect (1 ≤ length (dropna w))%nat);
    destruct (bool_decide_reflect (1 < length (dropna w))%nat); simpl;
    split; try (intros [= <-]; split; [lia | reflexivity]);
    try (intros [? ->]; reflexivity); try discriminate; intros [? _]; lia.
Qed.

Lemma var_of_nonneg (w : list float) (v : R) : var_of 1 1 w = Some v → 0 <= v.
Proof.
  intros [Hn ->]%var_of_Some.
  apply Rmult_le_pos; [apply ssqdm_nonneg |].
  apply Rlt_le, Rinv_0_lt_compat, INR_ge_2. lia.
Qed.

Lemma std_of_Some (w : list float) (s : R) :
  std_of 1 1 w = Some s ↔ ∃ v, var_of 1 1 w = Some v ∧ s = sqrt v.
Proof.
  unfold std_of. destruct (var_of 1 1 w) as [v|]; split.
  - intros [= <-]. eauto.
  - intros (v' & [= <-] & ->). reflexivity.
  - discriminate.
  - intros (v' & [=] & _).
Qed.

(** A defined standard deviation is not negative and comes with a
    defined mean. *)
Lemma std_of_nonneg (w : list float) (s : R) : std_of 1 1 w = Some s → 0 <= s.
Proof. intros (v & _ & ->)%std_of_Some. apply sqrt_pos. Qed.

Lemma std_of_mean (w : list float) (s : R) :
  std_of 1 1 w = Some s → ∃ m, mean_of 1 w = Some m.
Proof.
  intros (v & [Hn _]%var_of_Some & _)%std_of_Some.
  eexists. apply mean_of_Some. split; [lia | reflexivity].
Qed.

(** With a standard deviation of exactly 0, every value of the window is
    the mean. *)
Lemma std_of_zero (w : list float) (m x : R) :
  std_of 1 1 w = Some 0 → mean_of 1 w = Some m → Some x ∈ w → x = m.
Proof.
  intros (v & Hv & Hs)%std_of_Some [_ ->]%mean_of_Some Hx.
  pose proof (var_of_nonneg _ _ Hv) as Hv0.
  symmetry in Hs. apply sqrt_eq_0 in Hs; [subst v | assumption].
  apply var_of_Some in Hv as [Hn Hv].
  apply ssqdm_zero with (l := dropna w).
  - symmetry in Hv. apply Rmult_integral in Hv as [Hv | Hv]; [assumption |].
    pose proof (Rinv_0_lt_compat _ (INR_ge_2 (length (dropna w)) ltac:(lia))). lra.
  - unfold dropna. apply list_elem_of_omap. eauto.
Qed.

(** The window of row [i] ends with the cell of row [i]. *)
Lemma window_at_last {A} (window : nat) (col : list A) (i : nat) (c : A) :
  (1 ≤ window)%nat → col !! i = Some c → c ∈ window_at window col i.
Proof.
  intros Hw Hc. unfold window_at. apply list_elem_of_lookup.
  exists (i - (i + 1 - window))%nat. rewrite lookup_drop.
  replace (i + 1 - window + (i - (i + 1 - window)))%nat with i by lia.
  rewrite lookup_take_lt by lia. assumption.
Qed.


Lemma lookup_window_at {A} (window : nat) (col : list A) (i j : nat) :
  (j < Nat.min (i + 1) window)%nat →
  window_at window col i !! j = col !! (i + 1 - window + j)%nat.
Proof.
  intros Hj. unfold window_at. rewrite lookup_drop, lookup_take_lt by lia. reflexivity.
Qed.

Lemma lookup_rolling (stat : list float → float) (window : nat) (col : list float) (i : nat) :
  (i < length col)%nat → rolling stat window col !! i = Some (stat (window_at window col i)).
Proof.
  intros Hi. unfold rolling. rewrite list_lookup_imap.
  destruct (lookup_lt_is_Some_2 col i Hi) as [c ->]. reflexivity.
Qed.

Lemma length_rolling (stat : list float → float) (window : nat) (col : list float) :
  length (rolling stat window col) = length col.
Proof. apply length_imap. Qed.

End RollingFacts.

(** ** Sorting *)

Section ComparatorFacts.
Context {A : Type} (cmp : A → A → comparison) `{!Comparator cmp}.

Lemma cmp_Gt_le (x y : A) : cmp x y = Gt → le cmp y x.
Proof. intros H. unfold le. rewrite (cmp_opp (cmp := cmp) x y), H. discriminate. Qed.

Lemma cmp_Lt_Gt (x y : A) : cmp x y = Lt ↔ cmp y x = Gt.
Proof. rewrite (cmp_opp (cmp := cmp) x y). destruct (cmp x y); simpl; split; congruence. Qed.

Lemma cmp_Eq_sym (x y : A) : cmp x y = Eq → cmp y x = Eq.
Proof. intros H. rewrite (cmp_opp (cmp := cmp) x y), H. reflexivity. Qed.

Lemma cmp_refl (x : A) : cmp x x = Eq.
Proof. pose proof (cmp_opp (cmp := cmp) x x) as H. destruct (cmp x x); simpl in H; congruence. Qed.

Lemma cmp_Eq_trans (x y z : A) : cmp x y = Eq → cmp y z = Eq → cmp x z = Eq.
Proof.
  intros Hxy Hyz.
  assert (H1 : le cmp x z) by (apply (cmp_le_trans (cmp := cmp) x y z); unfold le; congruence).
  assert (H2 : le cmp z x).
  { apply (cmp_le_trans (cmp := cmp) z y x); unfold le;
      [rewrite (cmp_Eq_sym _ _ Hyz) | rewrite (cmp_Eq_sym _ _ Hxy)]; discriminate. }
  unfold le in *. rewrite (cmp_opp (cmp := cmp) x z) in H2.
  destruct (cmp x z); simpl in *; congruence.
Qed.

(** A strict step on either side of a chain makes the whole chain strict. *)
Lemma cmp_Lt_le_trans (x y z : A) : cmp x y = Lt → le cmp y z → cmp x z = Lt.
Proof.
  intros Hxy Hyz.
  assert (H1 : le cmp x z) by (apply (cmp_le_trans (cmp := cmp) x y z); unfold le in *; congruence).
  destruct (cmp x z) eqn:Hxz; [| reflexivity | unfold le in H1; congruence].
  assert (H2 : le cmp y x).
  { apply (cmp_le_trans (cmp := cmp) y z x); [assumption |].
    unfold le. rewrite (cmp_Eq_sym _ _ Hxz). discriminate. }
  apply cmp_Lt_Gt in Hxy. unfold le in H2. congruence.
Qed.

Lemma cmp_le_Lt_trans (x y z : A) : le cmp x y → cmp y z = Lt → cmp x z = Lt.
Proof.
  intros Hxy Hyz.
  assert (H1 : le cmp x z) by (apply (cmp_le_trans (cmp := cmp) x y z); unfold le in *; congruence).
  destruct (cmp x z) eqn:Hxz; [| reflexivity | unfold le in H1; congruence].
  assert (H2 : le cmp z y).
  { apply (cmp_le_trans (cmp := cmp) z x y); [| assumption].
    unfold le. rewrite (cmp_Eq_sym _ _ Hxz). discriminate. }
  apply cmp_Lt_Gt in Hyz. unfold le in H2. congruence.
Qed.

End ComparatorFacts.

(** Comparing by a key, and by two keys in turn, keeps the laws. *)
Lemma Comparator_on {A K} (key : A → K) (cmp : K → K → comparison) :
  Comparator cmp → Comparator (fun a b => cmp (key a) (key b)).
Proof.
  intros [Ho Ht]. split.
  - intros x y. apply Ho.
  - intros x y z. apply Ht.
Qed.

Lemma Comparator_lex {A} (c1 c2 : A → A → comparison) :
  Comparator c1 → Comparator c2 → Comparator (fun a b => lex (c1 a b) (c2 a b)).
Proof.
  intros H1 H2. split.
  - intros x y. rewrite (cmp_opp (cmp := c1) x y), (cmp_opp (cmp := c2) x y).
    destruct (c1 x y); reflexivity.
  - intros x y z. unfold le, lex. intros Hxy Hyz.
    destruct (c1 x y) eqn:E1; [| | congruence].
    + destruct (c1 y z) eqn:E2; [| | congruence].
      * rewrite (cmp_Eq_trans c1 x y z E1 E2).
        apply (cmp_le_trans (cmp := c2) x y z); assumption.
      * rewrite (cmp_le_Lt_trans c1 x y z); [discriminate | | assumption].
        unfold le. congruence.
    + rewrite (cmp_Lt_le_trans c1 x y z); [discriminate | assumption |].
      unfold le. destruct (c1 y z); congruence.
Qed.

Lemma Comparator_na_last {K} (cmp : K → K → comparison) :
  Comparator cmp → Comparator (na_last cmp).
Proof.
  intros H. split.
  - intros [x|] [y|]; simpl; try reflexivity. apply cmp_opp.
  - intros [x|] [y|] [z|]; unfold le; simpl; try congruence.
    apply (cmp_le_trans (cmp := cmp)).
Qed.

#[local] Instance Comparator_nat : Comparator Nat.compare.
Proof.
  split.
  - intros x y. apply Nat.compare_antisym.
  - intros x y z. unfold le. rewrite !Nat.compare_gt_iff. lia.
Qed.

#[local] Instance Comparator_N : Comparator N.compare.
Proof.
  split.
  - intros x y. apply N.compare_antisym.
  - intros x y z. unfold le. rewrite !N.compare_gt_iff. lia.
Qed.

#[local] Instance Comparator_ascii : Comparator Ascii.compare.
Proof. unfold Ascii.compare. apply (Comparator_on N_of_ascii N.compare), _. Qed.

Lemma ascii_compare_Eq (a b : ascii) : Ascii.compare a b = Eq → a = b.
Proof. apply Ascii.compare_eq_iff. Qed.

#[local] Instance Comparator_string : Comparator String.compare.
Proof.
  split.
  - intros x y. apply String.compare_antisym.
  - unfold le. intros x. induction x as [|a x IH]; intros [|b y] [|c z]; simpl; try congruence.
    destruct (Ascii.compare a b) eqn:Eab; [| | congruence].
    + apply ascii_compare_Eq in Eab as ->.
      destruct (Ascii.compare b c); [apply IH | congruence | congruence].
    + intros _ Hbc.
      rewrite (cmp_Lt_le_trans Ascii.compare a b c Eab); [discriminate |].
      unfold le. destruct (Ascii.compare b c); congruence.
Qed.

#[local] Instance Comparator_date : Comparator cmp_date.
Proof.
  unfold cmp_date.
  apply (Comparator_lex (fun a b => Nat.compare (year a) (year b))
           (fun a b => lex (Nat.compare (month a) (month b)) (Nat.compare (day a) (day b)))).
  - apply (Comparator_on year), _.
  - apply (Comparator_lex (fun a b => Nat.compare (month a) (month b))
             (fun a b => Nat.compare (day a) (day b))).
    + apply (Comparator_on month), _.
    + apply (Comparator_on day), _.
Qed.

#[local] Instance Comparator_Date : Comparator cmp_Date.
Proof. apply (Comparator_on (fun r : Row date => Date r) cmp_date), _. Qed.

#[local] Instance Comparator_Stock_Date : Comparator cmp_Stock_Date.
Proof.
  apply (Comparator_lex (fun a b : Row date => String.compare (Stock a) (Stock b)) cmp_Date).
  - apply (Comparator_on (fun r : Row date => Stock r)), _.
  - apply _.
Qed.

#[local] Instance Comparator_Date_Expiry : Comparator cmp_Date_Expiry.
Proof.
  apply (Comparator_lex
           (fun a b => na_last String.compare (raw_Date a) (raw_Date b))
           (fun a b => na_last String.compare (Expiry (raw_cells a)) (Expiry (raw_cells b)))).
  - apply (Comparator_on raw_Date), Comparator_na_last, _.
  - apply (Comparator_on (fun r => Expiry (raw_cells r))), Comparator_na_last, _.
Qed.

Section SortFacts.
Context {A : Type} (cmp : A → A → comparison).

Lemma insert_perm (x : A) (l : list A) : insert cmp x l ≡ₚ x :: l.
Proof.
  induction l as [|y l IH]; simpl; [reflexivity |].
  destruct (cmp x y); try reflexivity.
  rewrite IH. apply Permutation_swap.
Qed.

Lemma sort_values_perm (l : list A) : sort_values cmp l ≡ₚ l.
Proof.
  induction l as [|x l IH]; simpl; [reflexivity |].
  rewrite insert_perm, IH. reflexivity.
Qed.

Lemma elem_of_sort_values (x : A) (l : list A) : x ∈ sort_values cmp l ↔ x ∈ l.
Proof. rewrite sort_values_perm. reflexivity. Qed.

Lemma length_sort_values (l : list A) : length (sort_values cmp l) = length l.
Proof. rewrite sort_values_perm. reflexivity. Qed.

(** Sorting looks at the comparison on the rows of the frame only. *)
Lemma insert_ext (cmp' : A → A → comparison) (x : A) (l : list A) :
  (∀ y, y ∈ l → cmp x y = cmp' x y) → insert cmp x l = insert cmp' x l.
Proof.
  induction l as [|y l IH]; simpl; intros H; [reflexivity |].
  rewrite <- (H y) by left.
  destruct (cmp x y); try reflexivity.
  f_equal. apply IH. intros z Hz. apply H. right. assumption.
Qed.

Lemma sort_values_ext (cmp' : A → A → comparison) (l : list A) :
  (∀ x y, x ∈ l → y ∈ l → cmp x y = cmp' x y) →
  sort_values cmp l = sort_values cmp' l.
Proof.
  induction l as [|x l IH]; simpl; intros H; [reflexivity |].
  rewrite <- IH by (intros; apply H; right; assumption).
  apply insert_ext. intros y Hy. rewrite elem_of_sort_values in Hy.
  apply H; [left | right; assumption].
Qed.

Lemma insert_head (x : A) (l : list A) : Forall (le cmp x) l → insert cmp x l = x :: l.
Proof.
  destruct l as [|y l]; simpl; [reflexivity |].
  intros [Hy _]%Forall_cons. unfold le in Hy.
  destruct (cmp x y); congruence.
Qed.

(** A sorted frame is left as it is. *)
Lemma sort_values_id (l : list A) : StronglySorted (le cmp) l → sort_values cmp l = l.
Proof.
  induction 1 as [|x l Hl IH Hx]; simpl; [reflexivity |].
  rewrite IH. apply insert_head. assumption.
Qed.

Context `{!Comparator cmp}.

Lemma insert_sorted (x : A) (l : list A) :
  StronglySorted (le cmp) l → StronglySorted (le cmp) (insert cmp x l).
Proof.
  induction 1 as [|y l Hl IH Hy]; simpl.
  - repeat constructor.
  - destruct (cmp x y) eqn:E.
    + constructor; [constructor; assumption |].
      constructor; [unfold le; congruence |].
      eapply Forall_impl; [exact Hy |]. intros z Hz.
      apply (cmp_le_trans (cmp := cmp) x y z); [unfold le; congruence | assumption].
    + constructor; [constructor; assumption |].
      constructor; [unfold le; congruence |].
      eapply Forall_impl; [exact Hy |]. intros z Hz.
      apply (cmp_le_trans (cmp := cmp) x y z); [unfold le; congruence | assumption].
    + constructor; [assumption |].
      rewrite insert_perm. constructor; [| assumption].
      apply cmp_Gt_le; assumption.
Qed.

Lemma sort_values_sorted (l : list A) : StronglySorted (le cmp) (sort_values cmp l).
Proof.
  induction l as [|x l IH]; simpl; [constructor | apply insert_sorted, IH].
Qed.

(** Selecting rows commutes with the stable sort. *)
Lemma filter_insert (P : A → Prop) `{!∀ x, Decision (P x)} (x : A) (l : list A) :
  StronglySorted (le cmp) l →
  filter P (insert cmp x l) = if decide (P x) then insert cmp x (filter P l) else filter P l.
Proof.
  induction 1 as [|y l Hl IH Hy]; simpl.
  - rewrite filter_cons, filter_nil. destruct (decide (P x)); reflexivity.
  - destruct (cmp x y) eqn:E.
    1,2: assert (Hall : Forall (le cmp x) (y :: l))
      by (constructor; [unfold le; congruence |];
          eapply Forall_impl; [exact Hy |]; intros z Hz;
          apply (cmp_le_trans (cmp := cmp) x y z); [unfold le; congruence | assumption]).
    1,2: rewrite (filter_cons P x); destruct (decide (P x)) as [Hx|Hx]; [| reflexivity];
      symmetry; apply insert_head; apply Forall_forall; intros z Hz;
      apply list_elem_of_filter in Hz as [_ Hz];
      rewrite Forall_forall in Hall; apply Hall, Hz.
    + rewrite !(filter_cons P y), IH.
      destruct (decide (P y)), (decide (P x)); simpl; try rewrite E; reflexivity.
Qed.

Lemma filter_sort_values (P : A → Prop) `{!∀ x, Decision (P x)} (l : list A) :
  filter P (sort_values cmp l) = sort_values cmp (filter P l).
Proof.
  induction l as [|x l IH]; simpl; [reflexivity |].
  rewrite filter_insert by apply sort_values_sorted.
  rewrite filter_cons, IH. destruct (decide (P x)); reflexivity.
Qed.

(** The first row of a sorted frame is a least one. *)
Lemma sort_values_head (l : list A) (x y : A) :
  head (sort_values cmp l) = Some x → y ∈ l → le cmp x y.
Proof.
  intros Hh Hy. pose proof (sort_values_sorted l) as Hs.
  rewrite <- elem_of_sort_values in Hy.
  destruct (sort_values cmp l) as [|z k]; [discriminate |].
  injection Hh as ->. apply StronglySorted_inv in Hs as [_ Hs].
  apply elem_of_cons in Hy as [-> | Hy].
  - unfold le. rewrite cmp_refl; [discriminate | assumption].
  - rewrite Forall_forall in Hs. apply Hs. assumption.
Qed.

End SortFacts.

(** ** The frame of one stock *)

Section StockFacts.

Lemma analyze_stock_lookup (stock_data : list (Row date)) (i : nat) (p : Point) :
  analyze_stock stock_data !! i = Some p ↔
  ∃ r, stock_data !! i = Some r ∧
       p = derive r (mean_of 1 (win stock_data i)) (std_of 1 1 (win stock_data i)).
Proof.
  unfold analyze_stock, rolling_mean, rolling_std, win.
  rewrite lookup_zip_with.
  destruct (stock_data !! i) as [r|] eqn:Hr; simpl.
  - assert (Hi : i < length (Close_col stock_data)).
    { unfold Close_col. rewrite length_fmap. eapply lookup_lt_Some, Hr. }
    rewrite (lookup_zip_with pair), !lookup_rolling by assumption. simpl.
    split.
    + intros [= <-]. eauto.
    + intros (r' & [= <-] & ->). reflexivity.
  - split; [discriminate | intros (r' & [=] & _)].
Qed.

Lemma length_analyze_stock (stock_data : list (Row date)) :
  length (analyze_stock stock_data) = length stock_data.
Proof.
  unfold analyze_stock, rolling_mean, rolling_std.
  rewrite length_zip_with, (length_zip_with pair), !length_rolling. unfold Close_col.
  rewrite length_fmap. lia.
Qed.

Lemma analyze_stock_elem (stock_data : list (Row date)) (p : Point) :
  p ∈ analyze_stock stock_data →
  ∃ i r, stock_data !! i = Some r ∧
         p = derive r (mean_of 1 (win stock_data i)) (std_of 1 1 (win stock_data i)).
Proof.
  intros [i Hi]%list_elem_of_lookup. exists i. apply analyze_stock_lookup, Hi.
Qed.

(** The derived columns are added to the rows; the rows stay as they are. *)
Lemma analyze_stock_row (stock_data : list (Row date)) :
  row <$> analyze_stock stock_data = stock_data.
Proof.
  apply list_eq. intros i. rewrite list_lookup_fmap.
  destruct (analyze_stock stock_data !! i) as [p|] eqn:Hp; simpl.
  - apply analyze_stock_lookup in Hp as (r & Hr & ->). rewrite Hr. reflexivity.
  - apply lookup_ge_None in Hp. rewrite length_analyze_stock in Hp.
    symmetry. apply lookup_ge_None. assumption.
Qed.

(** The cell of row [i] is the last cell of its window. *)
Lemma Close_in_window (stock_data : list (Row date)) (i : nat) (r : Row date) :
  stock_data !! i = Some r → Close (cells r) ∈ win stock_data i.
Proof.
  intros Hr. apply window_at_last; [unfold window_size; lia |].
  unfold Close_col. rewrite list_lookup_fmap, Hr. reflexivity.
Qed.

(** The loop over the stocks lays the per-stock frames end to end. *)
Lemma analyze_bind (combined_df : list (Row date)) :
  analyze combined_df =
  unique (Stock <$> combined_df) ≫=
    (fun stock =>
       analyze_stock (sort_values cmp_Date (filter (fun r => Stock r = stock) combined_df))).
Proof.
  unfold analyze.
  generalize (unique (Stock <$> combined_df)). intros stocks.
  rewrite <- (app_nil_l (stocks ≫= _)). generalize (@nil Point).
  induction stocks as [|s stocks IH]; intros acc; simpl.
  - rewrite app_nil_r. reflexivity.
  - rewrite IH, <- app_assoc. reflexivity.
Qed.

Lemma analyze_elem (combined_df : list (Row date)) (p : Point) :
  p ∈ analyze combined_df → ∃ stock_data, p ∈ analyze_stock stock_data.
Proof.
  rewrite analyze_bind. intros (s & Hp & _)%list_elem_of_bind. eauto.
Qed.

Lemma load_and_analyze_data_elem (read_csv : string → read_result)
    (shown : list string) (data : list Point) (p : Point) :
  load_and_analyze_data read_csv = (shown, Returned data) → p ∈ data →
  ∃ stock_data, p ∈ analyze_stock stock_data.
Proof.
  unfold load_and_analyze_data.
  destruct (load read_csv files [] []) as [sh [|dfs]]; [discriminate |].
  destruct dfs as [|df dfs].
  - intros [= _ <-] Hp. inversion Hp.
  - destruct (parse_Date _) as [combined|]; [| discriminate].
    intros [= _ <-]. apply analyze_elem.
Qed.

End StockFacts.

(** ** Bands, signal and deviation of one row *)

Section PointFacts.

Local Open Scope R_scope.

Lemma window_statistics (stock_data : list (Row date)) (i : nat) (r : Row date) :
  stock_data !! i = Some r →
  statistics (Close (cells r)) (mean_of 1 (win stock_data i)) (std_of 1 1 (win stock_data i)).
Proof.
  intros Hr. split.
  - intros s Hs. split; [eapply std_of_nonneg, Hs | eapply std_of_mean, Hs].
  - intros Hs c m Hc Hm. eapply std_of_zero; [exact Hs | exact Hm |].
    rewrite <- Hc. apply Close_in_window. assumption.
Qed.

(** Every row of the result comes from [derive] on such statistics. *)
Lemma result_point (read_csv : string → read_result) (shown : list string)
    (data : list Point) (p : Point) :
  load_and_analyze_data read_csv = (shown, Returned data) → p ∈ data →
  ∃ r ma sd, p = derive r ma sd ∧ statistics (Close (cells r)) ma sd.
Proof.
  intros Hrun Hp.
  destruct (load_and_analyze_data_elem _ _ _ _ Hrun Hp) as [sd Hsd].
  apply analyze_stock_elem in Hsd as (i & r & Hr & ->).
  eexists _, _, _. split; [reflexivity |]. apply window_statistics. assumption.
Qed.

Lemma derive_bands (r : Row date) (ma sd : float) :
  Upper_Band (derive r ma sd) = add ma sd ∧ Lower_Band (derive r ma sd) = sub ma sd.
Proof. unfold derive. cbn [Upper_Band Lower_Band]. rewrite mul_one. split; reflexivity. Qed.

Lemma derive_signal (r : Row date) (ma sd : float) :
  statistics (Close (cells r)) ma sd →
  let p := derive r ma sd in
  (Signal p = Buy ↔ Less (point_Close p) (Lower_Band p)) ∧
  (Signal p = Sell ↔ Less (Upper_Band p) (point_Close p)) ∧
  (Signal p = Hold ↔
     ¬ Less (point_Close p) (Lower_Band p) ∧ ¬ Less (Upper_Band p) (point_Close p)).
Proof.
  intros [Hnn _]. unfold point_Close, derive.
  cbn [Upper_Band Lower_Band Signal row]. rewrite mul_one.
  destruct sd as [s|].
  - destruct (Hnn s eq_refl) as [Hs [m ->]].
    destruct (Close (cells r)) as [c|]; simpl.
    + destruct (Rlt_dec c (m - s)), (Rlt_dec (m + s) c);
        repeat split; try congruence; try tauto; try lra.
    + repeat split; try congruence; tauto.
  - destruct ma as [m|], (Close (cells r)) as [c|]; simpl;
      repeat split; try congruence; tauto.
Qed.

Lemma derive_Hold (r : Row date) (ma sd : float) :
  statistics (Close (cells r)) ma sd →
  let p := derive r ma sd in
  sd = None ∨ sd = Some 0 ∨
  point_Close p = Lower_Band p ∨ point_Close p = Upper_Band p →
  Signal p = Hold.
Proof.
  intros [Hnn Hz]. unfold point_Close, derive.
  cbn [Upper_Band Lower_Band Signal row]. rewrite mul_one.
  destruct sd as [s|].
  - destruct (Hnn s eq_refl) as [Hs [m ->]].
    destruct (Close (cells r)) as [c|]; simpl; [| reflexivity].
    intros [H | [H | [H | H]]]; try discriminate.
    + injection H as ->. rewrite (Hz eq_refl c m eq_refl eq_refl).
      destruct (Rlt_dec m (m - 0)), (Rlt_dec (m + 0) m); try reflexivity; lra.
    + injection H as ->.
      destruct (Rlt_dec (m - s) (m - s)), (Rlt_dec (m + s) (m - s)); try reflexivity; lra.
    + injection H as ->.
      destruct (Rlt_dec (m + s) (m - s)), (Rlt_dec (m + s) (m + s)); try reflexivity; lra.
  - intros _. destruct ma as [m|], (Close (cells r)) as [c|]; reflexivity.
Qed.

End PointFacts.

(** ** The loop over the files *)

Section LoaderFacts.
Context (read_csv : string → read_result).

Lemma load_ok (fl : list (string * string)) (dfs : list (list (Row string)))
    (shown : list string) :
  Forall (fun entry => ¬ fatal read_csv entry) fl →
  load read_csv fl dfs shown
  = (shown ++ warnings read_csv fl, Returned (dfs ++ frames read_csv fl)).
Proof.
  revert dfs shown. induction fl as [|[name file] fl IH]; intros dfs shown Hok; simpl.
  - rewrite !app_nil_r. reflexivity.
  - apply Forall_cons in Hok as [Hf Hok]. unfold fatal in Hf. simpl in Hf.
    destruct (read_csv file); [| congruence |]; rewrite IH by assumption;
      rewrite <- app_assoc; reflexivity.
Qed.

Lemma load_fatal (fl : list (string * string)) (dfs : list (list (Row string)))
    (shown : list string) :
  Exists (fatal read_csv) fl → (load read_csv fl dfs shown).2 = Raised.
Proof.
  revert dfs shown. induction fl as [|[name file] fl IH]; intros dfs shown Hex; simpl.
  - inversion Hex.
  - destruct (read_csv file) eqn:Hread; [| reflexivity |];
      apply Exists_cons in Hex as [Hf | Hex];
      try (unfold fatal in Hf; simpl in Hf; congruence); apply IH; assumption.
Qed.

(** The whole function, by cases on the files. *)
Lemma load_and_analyze_data_ok :
  Forall (fun entry => ¬ fatal read_csv entry) files →
  load_and_analyze_data read_csv
  = (warnings read_csv files,
     match parse_Date (concat (frames read_csv files)) with
     | Some combined_df => Returned (analyze (sort_values cmp_Stock_Date combined_df))
     | None => Raised
     end).
Proof.
  intros Hok. unfold load_and_analyze_data. rewrite load_ok by assumption.
  rewrite !app_nil_l. destruct (frames read_csv files) as [|df dfs]; [reflexivity |].
  destruct (parse_Date _); reflexivity.
Qed.

Lemma load_and_analyze_data_fatal :
  Exists (fatal read_csv) files → (load_and_analyze_data read_csv).2 = Raised.
Proof.
  intros Hex. unfold load_and_analyze_data.
  pose proof (load_fatal files [] [] Hex) as H.
  destruct (load read_csv files [] []) as [sh [|dfs]]; [reflexivity | discriminate].
Qed.

Lemma load_and_analyze_data_Returned (shown : list string) (data : list Point) :
  load_and_analyze_data read_csv = (shown, Returned data) →
  Forall (fun entry => ¬ fatal read_csv entry) files ∧
  shown = warnings read_csv files ∧
  ∃ combined_df,
    parse_Date (concat (frames read_csv files)) = Some combined_df ∧
    data = analyze (sort_values cmp_Stock_Date combined_df).
Proof.
  intros Hrun.
  assert (Hok : Forall (fun entry => ¬ fatal read_csv entry) files).
  { apply Forall_Exists_neg. intros Hex.
    apply load_and_analyze_data_fatal in Hex. rewrite Hrun in Hex. discriminate. }
  rewrite load_and_analyze_data_ok in Hrun by assumption.
  destruct (parse_Date _) as [combined|]; [| discriminate].
  injection Hrun as <- <-. eauto.
Qed.

End LoaderFacts.

(** ** One stock inside the combined frame *)

Section ListFacts.
Context {A : Type}.

Lemma filter_all (P : A → Prop) `{!∀ x, Decision (P x)} (l : list A) :
  Forall P l → filter P l = l.
Proof.
  induction 1 as [|x l Hx Hl IH]; [reflexivity |].
  rewrite filter_cons_True by assumption. f_equal. assumption.
Qed.

Lemma filter_none (P : A → Prop) `{!∀ x, Decision (P x)} (l : list A) :
  Forall (fun x => ¬ P x) l → filter P l = [].
Proof.
  induction 1 as [|x l Hx Hl IH]; [reflexivity |].
  rewrite filter_cons_False by assumption. assumption.
Qed.

End ListFacts.

Section UniqueFacts.
Context `{EqDecision A}.

Lemma elem_of_unique (x : A) (l : list A) : x ∈ unique l ↔ x ∈ l.
Proof.
  induction l as [|y l IH]; simpl; [reflexivity |].
  rewrite !elem_of_cons, list_elem_of_filter, IH.
  destruct (decide (x = y)); tauto.
Qed.

Lemma NoDup_unique (l : list A) : NoDup (unique l).
Proof.
  induction l as [|y l IH]; simpl; constructor.
  - rewrite list_elem_of_filter. tauto.
  - apply NoDup_filter, IH.
Qed.

(** Selecting by key in frames laid end to end, one frame for each key. *)
Lemma filter_bind_key {B} (key : B → A) (g : A → list B) (k : A) (l : list A) :
  NoDup l → (∀ a b, b ∈ g a → key b = a) →
  filter (fun b => key b = k) (l ≫= g) = if decide (k ∈ l) then g k else [].
Proof.
  intros Hnd Hkey. induction Hnd as [|a l Ha Hnd IH]; [reflexivity |].
  rewrite bind_cons, filter_app, IH.
  destruct (decide (a = k)) as [-> | Hne].
  - rewrite (filter_all (fun b => key b = k))
      by (apply Forall_forall; intros b Hb; apply (Hkey _ _ Hb)).
    rewrite (decide_False (P := k ∈ l)) by assumption.
    rewrite (decide_True (P := k ∈ k :: l)) by left.
    apply app_nil_r.
  - rewrite (filter_none (fun b => key b = k))
      by (apply Forall_forall; intros b Hb; rewrite (Hkey _ _ Hb); assumption).
    destruct (decide (k ∈ l)) as [Hin | Hout].
    + rewrite (decide_True (P := k ∈ a :: l)) by (right; assumption). reflexivity.
    + rewrite (decide_False (P := k ∈ a :: l)); [reflexivity |].
      intros [? | ?]%elem_of_cons; [congruence | contradiction].
Qed.

End UniqueFacts.

Section CombinedFacts.

Lemma analyze_stock_Stock (stock_data : list (Row date)) (p : Point) :
  p ∈ analyze_stock stock_data → row p ∈ stock_data.
Proof.
  intros Hp. rewrite <- (analyze_stock_row stock_data).
  apply list_elem_of_fmap_2. assumption.
Qed.

(** The rows of one stock in the result are computed from the rows of
    that stock in the combined frame, and from nothing else. *)
Lemma points_of_analyze (stock : string) (combined_df : list (Row date)) :
  points_of stock (analyze combined_df)
  = analyze_stock (sort_values cmp_Date (filter (fun r => Stock r = stock) combined_df)).
Proof.
  unfold points_of. rewrite analyze_bind.
  rewrite (filter_bind_key point_Stock) by
    (try apply NoDup_unique; intros s p Hp%analyze_stock_Stock;
     rewrite elem_of_sort_values in Hp; apply list_elem_of_filter in Hp as [Hp _];
     exact Hp).
  destruct (decide (stock ∈ unique (Stock <$> combined_df))) as [Hin | Hout];
    [reflexivity |].
  rewrite filter_none; [reflexivity |].
  apply Forall_forall. intros r Hr Hs. apply Hout, elem_of_unique.
  rewrite <- Hs. apply list_elem_of_fmap_2. assumption.
Qed.

(** Sorting the combined frame by stock and date, then selecting a stock
    and sorting it by date, is sorting the rows of that stock by date. *)
Lemma stock_data_sorted (stock : string) (combined_df : list (Row date)) :
  sort_values cmp_Date
    (filter (fun r => Stock r = stock) (sort_values cmp_Stock_Date combined_df))
  = sort_values cmp_Date (filter (fun r => Stock r = stock) combined_df).
Proof.
  rewrite (filter_sort_values cmp_Stock_Date).
  rewrite (sort_values_ext cmp_Stock_Date cmp_Date).
  - apply sort_values_id, sort_values_sorted, _.
  - intros x y [Hx _]%list_elem_of_filter [Hy _]%list_elem_of_filter.
    unfold cmp_Stock_Date. rewrite Hx, Hy.
    rewrite (cmp_refl String.compare). reflexivity.
Qed.

Lemma parse_row_Stock (r : Row string) (r' : Row date) :
  parse_row r = Some r' → Stock r' = Stock r ∧ cells r' = cells r ∧ to_datetime (Date r) = Some (Date r').
Proof.
  unfold parse_row. destruct (to_datetime (Date r)) as [d|]; simpl; [| discriminate].
  intros [= <-]. auto.
Qed.

Lemma parse_Date_app (l1 l2 : list (Row string)) (k : list (Row date)) :
  parse_Date (l1 ++ l2) = Some k ↔
  ∃ k1 k2, parse_Date l1 = Some k1 ∧ parse_Date l2 = Some k2 ∧ k = k1 ++ k2.
Proof.
  unfold parse_Date. rewrite mapM_Some. split.
  - intros (k1 & k2 & H1 & H2 & ->)%Forall2_app_inv_l.
    exists k1, k2. rewrite !mapM_Some. auto.
  - intros (k1 & k2 & H1%mapM_Some & H2%mapM_Some & ->).
    apply Forall2_app; assumption.
Qed.

Lemma parse_Date_Stock (l : list (Row string)) (k : list (Row date)) (name : string) :
  parse_Date l = Some k → Forall (fun r => Stock r = name) l →
  Forall (fun r => Stock r = name) k.
Proof.
  unfold parse_Date. rewrite mapM_Some. induction 1 as [|r r' l k Hr Hl IH]; [constructor |].
  intros [Hs Hall]%Forall_cons. constructor; [| apply IH, Hall].
  apply parse_row_Stock in Hr as [-> _]. assumption.
Qed.

Lemma normalize_Stock (name : string) (df : list RawRow) :
  Forall (fun r => Stock r = name) (normalize name df).
Proof.
  unfold normalize. apply Forall_fmap, Forall_forall. intros [d c] _. reflexivity.
Qed.

Context (read_csv : string → read_result).

Lemma combined_without (name : string) (fl : list (string * string))
    (combined_df : list (Row date)) :
  name ∉ fl.*1 → parse_Date (concat (frames read_csv fl)) = Some combined_df →
  filter (fun r => Stock r = name) combined_df = [].
Proof.
  revert combined_df. induction fl as [|[n f] fl IH]; intros combined Hout Hp.
  - injection Hp as <-. reflexivity.
  - simpl in Hout. apply not_elem_of_cons in Hout as [Hne Hout].
    simpl in Hp. destruct (read_csv f) as [| |df]; simpl in Hp; try (apply IH; assumption).
    apply parse_Date_app in Hp as (k1 & k2 & H1 & H2 & ->).
    rewrite filter_app, (IH k2) by assumption. rewrite app_nil_r.
    apply filter_none. eapply Forall_impl.
    + eapply parse_Date_Stock; [exact H1 | apply normalize_Stock].
    + simpl. intros r ->. congruence.
Qed.

Lemma combined_of_stock (name file : string) (fl : list (string * string))
    (combined_df : list (Row date)) :
  NoDup fl.*1 → (name, file) ∈ fl →
  parse_Date (concat (frames read_csv fl)) = Some combined_df →
  sort_values cmp_Date (filter (fun r => Stock r = name) combined_df)
  = own_rows read_csv name file.
Proof.
  revert combined_df. induction fl as [|[n f] fl IH]; intros combined Hnd Hin Hp.
  - inversion Hin.
  - simpl in Hnd. apply NoDup_cons in Hnd as [Hn Hnd].
    apply elem_of_cons in Hin as [[= <- <-] | Hin].
    + unfold own_rows. simpl in Hp.
      destruct (read_csv file) as [| |df]; simpl in Hp;
        try (rewrite (combined_without name fl combined) by assumption; reflexivity).
      apply parse_Date_app in Hp as (k1 & k2 & H1 & H2 & ->).
      rewrite filter_app, (combined_without name fl k2) by assumption.
      rewrite app_nil_r, H1. simpl. f_equal. apply filter_all.
      eapply parse_Date_Stock; [exact H1 | apply normalize_Stock].
    + assert (Hne : n ≠ name).
      { intros ->. apply Hn. apply list_elem_of_fmap. exists (name, file). auto. }
      simpl in Hp. destruct (read_csv f) as [| |df]; simpl in Hp;
        try (apply IH; assumption).
      apply parse_Date_app in Hp as (k1 & k2 & H1 & H2 & ->).
      rewrite filter_app.
      rewrite (filter_none (fun r : Row date => Stock r = name) k1).
      * apply IH; assumption.
      * eapply Forall_impl; [eapply parse_Date_Stock; [exact H1 | apply normalize_Stock] |].
        simpl. intros r ->. assumption.
Qed.

Lemma NoDup_files : NoDup files.*1.
Proof. apply (bool_decide_unpack _). vm_compute. exact I. Qed.

(** The rows of a listed stock in the result are the analysis of its own
    observations. *)
Lemma points_of_stock (shown : list string) (data : list Point) (name file : string) :
  load_and_analyze_data read_csv = (shown, Returned data) → (name, file) ∈ files →
  points_of name data = analyze_stock (own_rows read_csv name file).
Proof.
  intros (_ & _ & combined & Hp & ->)%load_and_analyze_data_Returned Hin.
  rewrite points_of_analyze, stock_data_sorted.
  f_equal. apply (combined_of_stock name file files); [apply NoDup_files | assumption..].
Qed.

End CombinedFacts.

(** ** Runs on the sample inputs *)

Section ExampleRuns.
Import Examples.

Lemma run_only_dlf :
  load_and_analyze_data only_dlf = (dlf_shown, Returned [dlf_point1; dlf_point2]).
Proof. vm_compute. reflexivity. Qed.

End ExampleRuns.

(** ** Signals *)

Section SignalFacts.

Local Open Scope R_scope.

(** The sample with a fall on the third day: the average of 10, 10 and 1
    is 7 and the deviation is the square root of 27, between 5 and 6. *)
Lemma dip_statistics :
  mean_of 1 Samples.dip_closes = Some 7 ∧ std_of 1 1 Samples.dip_closes = Some (sqrt 27).
Proof.
  split.
  - apply mean_of_Some. split; [simpl; lia |]. simpl. lra.
  - apply std_of_Some. exists 27. split; [| reflexivity].
    apply var_of_Some. split; [simpl; lia |]. unfold ssqdm. simpl. lra.
Qed.

Lemma sqrt_27 : 5 < sqrt 27 < 6.
Proof.
  assert (Hsq : sqrt 27 * sqrt 27 = 27) by (apply sqrt_sqrt; lra).
  pose proof (sqrt_pos 27). split; nra.
Qed.

(** Its close of 1 is below the lower band. *)
Lemma dip_below_band :
  Less (point_Close Samples.dip_point3)
    (sub (MA_10 Samples.dip_point3) (STD_10 Samples.dip_point3)).
Proof.
  destruct dip_statistics as [Hm Hs]. pose proof sqrt_27.
  unfold point_Close, Samples.dip_point3. cbn [MA_10 STD_10 row derive].
  rewrite Hm, Hs. simpl. lra.
Qed.

Lemma run_only_dip :
  load_and_analyze_data Samples.only_dip = (Examples.dlf_shown, Returned Samples.dip_points).
Proof. vm_compute. reflexivity. Qed.

(** The sample with a rise on the third day: the average of 1, 1 and 10
    is 4, the deviation is the same, and the close of 10 is above the
    upper band. *)
Lemma rise_statistics :
  mean_of 1 Samples.rise_closes = Some 4 ∧ std_of 1 1 Samples.rise_closes = Some (sqrt 27).
Proof.
  split.
  - apply mean_of_Some. split; [simpl; lia |]. simpl. lra.
  - apply std_of_Some. exists 27. split; [| reflexivity].
    apply var_of_Some. split; [simpl; lia |]. unfold ssqdm. simpl. lra.
Qed.

Lemma rise_above_band :
  Less (add (MA_10 Samples.rise_point3) (STD_10 Samples.rise_point3))
    (point_Close Samples.rise_point3).
Proof.
  destruct rise_statistics as [Hm Hs]. pose proof sqrt_27.
  unfold point_Close, Samples.rise_point3. cbn [MA_10 STD_10 row derive].
  rewrite Hm, Hs. simpl. lra.
Qed.

Lemma run_only_rise :
  load_and_analyze_data Samples.only_rise = (Examples.dlf_shown, Returned Samples.rise_points).
Proof. vm_compute. reflexivity. Qed.

End SignalFacts.

(** In binary64 as in exact arithmetic, a row without standard deviation
    has no bands and holds, and a row without close holds and has no
    score. *)
Lemma binary64_nan_holds (close ma sd : Binary64.float64) :
  Kernel.Signal (Kernel.derive close ma Binary64.NaN) = Hold ∧
  Kernel.Upper_Band (Kernel.derive close ma Binary64.NaN) = Binary64.NaN ∧
  Kernel.Lower_Band (Kernel.derive close ma Binary64.NaN) = Binary64.NaN ∧
  Kernel.Signal (Kernel.derive Binary64.NaN ma sd) = Hold ∧
  Kernel.Std_Deviations (Kernel.derive Binary64.NaN ma sd) = Binary64.NaN.
Proof.
  unfold Kernel.derive. cbn [Kernel.Signal Kernel.Upper_Band Kernel.Lower_Band
                              Kernel.Std_Deviations].
  split; [| split; [| split; [| split]]].
  - destruct ma, close; reflexivity.
  - destruct ma; reflexivity.
  - destruct ma; reflexivity.
  - destruct (Arithmetic.plus ma _), (Arithmetic.minus ma _); reflexivity.
  - destruct ma; reflexivity.
Qed.

(** C1, as stated, fails.  In binary64 the standard deviation of two
    distinct closes can be 0: with the closes [2^-700] and [3 * 2^-700] the
    product of the two distances from the mean is below the least positive
    double and rounds to 0.  Both bands of the second row are then equal to
    its moving average [2 * 2^-700], its close is above them, and the row
    is a 'Sell' with a standard deviation of zero. *)
Lemma zero_deviation_sells :
  let rows := Kernel.analyze_stock Samples.tiny_closes in
  Kernel.MA_10 <$> rows = [Binary64.of_Z 1 (-700); Binary64.of_Z 2 (-700)] ∧
  Kernel.STD_10 <$> rows = [Binary64.NaN; Binary64.zero] ∧
  Kernel.Upper_Band <$> rows = [Binary64.NaN; Binary64.of_Z 2 (-700)] ∧
  Kernel.Lower_Band <$> rows = [Binary64.NaN; Binary64.of_Z 2 (-700)] ∧
  Kernel.Signal <$> rows = [Hold; Sell].
Proof. vm_compute. repeat split; reflexivity. Qed.

(** C1, amended.  In every row of the result the signal is 'Buy' exactly
    when the close is strictly below the lower band (moving average minus
    standard deviation), 'Sell' exactly when it is strictly above the upper
    band (moving average plus standard deviation), and 'Hold' in every
    other case; the row holds in particular when the standard deviation is
    missing and when the close sits exactly on a band. *)
Theorem signal_classification (read_csv : string → read_result) (shown : list string)
    (data : list Point) (p : Point) :
  load_and_analyze_data read_csv = (shown, Returned data) → p ∈ data →
  let lower := sub (MA_10 p) (STD_10 p) in
  let upper := add (MA_10 p) (STD_10 p) in
  (Signal p = Buy ↔ Less (point_Close p) lower) ∧
  (Signal p = Sell ↔ Less upper (point_Close p)) ∧
  (Signal p = Hold ↔ ¬ Less (point_Close p) lower ∧ ¬ Less upper (point_Close p)) ∧
  (STD_10 p = None ∨ point_Close p = lower ∨ point_Close p = upper → Signal p = Hold).
Proof.
  intros Hrun Hp.
  destruct (result_point _ _ _ _ Hrun Hp) as (r & ma & sd & -> & Hst).
  pose proof (derive_signal r ma sd Hst) as (HB & HS & HH).
  pose proof (derive_Hold r ma sd Hst) as Hhold.
  destruct (derive_bands r ma sd) as [HU HL].
  cbv zeta in Hhold. rewrite HL in HB. rewrite HU in HS. rewrite HU, HL in HH, Hhold.
  change (MA_10 (derive r ma sd)) with ma. change (STD_10 (derive r ma sd)) with sd.
  cbv zeta. split; [exact HB | split; [exact HS | split; [exact HH |]]].
  intros [H | H]; apply Hhold; [left; exact H | right; right; exact H].
Qed.

Lemma signal_classification_example :
  Signal Samples.dip_point3 = Buy ∧ Signal Samples.rise_point3 = Sell.
Proof.
  split.
  - apply (signal_classification Samples.only_dip Examples.dlf_shown Samples.dip_points).
    + exact run_only_dip.
    + unfold Samples.dip_points. do 2 right. left.
    + exact dip_below_band.
  - apply (signal_classification Samples.only_rise Examples.dlf_shown Samples.rise_points).
    + exact run_only_rise.
    + unfold Samples.rise_points. do 2 right. left.
    + exact rise_above_band.
Defined.

(** ** Bands *)

(** C3.  In every row of the result the upper band is the moving average
    plus the standard deviation and the lower band is the moving average
    minus it (multiplier 1 on both sides); when the standard deviation is
    defined and not negative, the three are defined and
    lower band <= moving average <= upper band. *)
Theorem band_invariant (read_csv : string → read_result) (shown : list string)
    (data : list Point) (p : Point) :
  load_and_analyze_data read_csv = (shown, Returned data) → p ∈ data →
  Upper_Band p = add (MA_10 p) (STD_10 p) ∧
  Lower_Band p = sub (MA_10 p) (STD_10 p) ∧
  ∀ s, STD_10 p = Some s → (0 <= s)%R →
       ∃ l m u, Lower_Band p = Some l ∧ MA_10 p = Some m ∧ Upper_Band p = Some u ∧
                (l <= m <= u)%R.
Proof.
  intros Hrun Hp.
  destruct (result_point _ _ _ _ Hrun Hp) as (r & ma & sd & -> & [Hnn _]).
  destruct (derive_bands r ma sd) as [HU HL].
  split; [exact HU | split; [exact HL |]].
  intros s Hs Hpos. rewrite HU, HL. cbn [STD_10 MA_10 derive] in *. subst sd.
  destruct (Hnn s eq_refl) as [_ [m ->]].
  exists (m - s)%R, m, (m + s)%R. simpl. repeat split; lra.
Qed.

Lemma band_invariant_example :
  let p := Examples.dlf_point2 in
  ∃ l m u, Lower_Band p = Some l ∧ MA_10 p = Some m ∧ Upper_Band p = Some u ∧
           (l <= m <= u)%R.
Proof.
  destruct (band_invariant Examples.only_dlf Examples.dlf_shown
              [Examples.dlf_point1; Examples.dlf_point2] Examples.dlf_point2)
    as (_ & _ & Hle).
  - vm_compute. reflexivity.
  - right. left.
  - eapply Hle; [reflexivity | apply sqrt_pos].
Defined.

(** ** Deviation score *)

Lemma run_only_gap :
  load_and_analyze_data Samples.only_gap = (Examples.dlf_shown, Returned Samples.gap_points).
Proof. vm_compute. reflexivity. Qed.

(** C10, as stated, fails, in two ways.  A row without close (the fourth
    day of the sample with gaps) has a positive standard deviation, from
    the closes before it; it holds, and its score is NaN, not a number
    between -1 and 1.  And in binary64 the signal is decided by the
    rounded bands, the score by a rounded quotient: after the closes 0.15
    and 0.10 the close 0.20 sits on the upper band and holds with a score
    above 1, and after 202.27 and 132.27 the close 62.27 is a 'Buy' with a
    score of -1, not below it. *)
Lemma score_disagrees_with_signal :
  (load_and_analyze_data Samples.only_gap = (Examples.dlf_shown, Returned Samples.gap_points) ∧
   Samples.gap_point4 ∈ Samples.gap_points ∧
   (∃ s, STD_10 Samples.gap_point4 = Some s ∧ (0 < s)%R) ∧
   Signal Samples.gap_point4 = Hold ∧ Std_Deviations Samples.gap_point4 = None) ∧
  (∃ p, Kernel.analyze_stock Samples.cent_closes !! 2 = Some p ∧
        Arithmetic.ltb Binary64.zero (Kernel.STD_10 p) = true ∧
        Kernel.Signal p = Hold ∧
        Arithmetic.ltb (Arithmetic.of_nat 1) (Kernel.Std_Deviations p) = true) ∧
  (∃ p, Kernel.analyze_stock Samples.rupee_closes !! 2 = Some p ∧
        Arithmetic.ltb Binary64.zero (Kernel.STD_10 p) = true ∧
        Kernel.Signal p = Buy ∧
        Kernel.Std_Deviations p = Arithmetic.neg (Arithmetic.of_nat 1)).
Proof.
  split; [| split].
  - split; [exact run_only_gap |]. split; [do 3 right; left |].
    split; [| split; reflexivity].
    eexists. split; [reflexivity |]. apply sqrt_lt_R0. unfold ssqdm. simpl. lra.
  - eexists. split; [vm_compute; reflexivity |]. vm_compute. repeat split; reflexivity.
  - eexists. split; [vm_compute; reflexivity |]. vm_compute. repeat split; reflexivity.
Qed.

(** C10, amended.  In every row of the result whose standard deviation is
    defined and strictly positive, the moving average is defined.  When
    the close is a number, the deviation score is (close - moving average)
    / standard deviation, a 'Buy' has a score of -1 or less and a 'Sell' a
    score of 1 or more, so that a row with a score strictly between -1 and
    1 holds.  When the close is missing, the row holds and has no score. *)
Theorem deviation_score_agrees (read_csv : string → read_result) (shown : list string)
    (data : list Point) (p : Point) (s : R) :
  load_and_analyze_data read_csv = (shown, Returned data) → p ∈ data →
  STD_10 p = Some s → (0 < s)%R →
  ∃ m, MA_10 p = Some m ∧
       match point_Close p with
       | Some c =>
           Std_Deviations p = Some ((c - m) / s)%R ∧
           (Signal p = Buy → ((c - m) / s <= -1)%R) ∧
           (Signal p = Sell → (1 <= (c - m) / s)%R) ∧
           ((-1 < (c - m) / s < 1)%R → Signal p = Hold)
       | None => Std_Deviations p = None ∧ Signal p = Hold
       end.
Proof.
  intros Hrun Hp Hs Hpos.
  destruct (result_point _ _ _ _ Hrun Hp) as (r & ma & sd & -> & [Hnn _]).
  unfold point_Close. cbn [STD_10 MA_10 row derive] in *. subst sd.
  destruct (Hnn s eq_refl) as [_ [m ->]].
  exists m. split; [reflexivity |].
  unfold derive. cbn [Std_Deviations Signal]. rewrite mul_one.
  destruct (Close (cells r)) as [c|]; simpl; [| split; reflexivity].
  assert (Hz : (c = m + (c - m) / s * s)%R) by (field; lra).
  set (z := ((c - m) / s)%R) in *.
  destruct (Req_dec_T s 0) as [H0 | _]; [lra |].
  split; [reflexivity |].
  destruct (Rlt_dec c (m - s)), (Rlt_dec (m + s) c);
    repeat split; intros; try discriminate; try reflexivity; try nra.
Qed.

Lemma deviation_score_agrees_example :
  (∃ m z, MA_10 Samples.dip_point3 = Some m ∧
          Std_Deviations Samples.dip_point3 = Some z ∧ (z <= -1)%R) ∧
  (∃ m z, MA_10 Samples.rise_point3 = Some m ∧
          Std_Deviations Samples.rise_point3 = Some z ∧ (1 <= z)%R).
Proof.
  split.
  - destruct (deviation_score_agrees Samples.only_dip Examples.dlf_shown
                Samples.dip_points Samples.dip_point3 (sqrt 27))
      as (m & Hm & Hz & HB & _).
    + exact run_only_dip.
    + unfold Samples.dip_points. do 2 right. left.
    + apply dip_statistics.
    + pose proof sqrt_27. lra.
    + exists m. eexists. split; [exact Hm | split; [exact Hz |]].
      apply HB.
      apply (derive_signal (Samples.dip_day 3 1) (mean_of 1 Samples.dip_closes)
               (std_of 1 1 Samples.dip_closes)).
      * apply (window_statistics
                 [Samples.dip_day 1 10; Samples.dip_day 2 10; Samples.dip_day 3 1] 2).
        reflexivity.
      * destruct (derive_bands (Samples.dip_day 3 1) (mean_of 1 Samples.dip_closes)
                    (std_of 1 1 Samples.dip_closes)) as [_ HL].
        rewrite HL. exact dip_below_band.
  - destruct (deviation_score_agrees Samples.only_rise Examples.dlf_shown
                Samples.rise_points Samples.rise_point3 (sqrt 27))
      as (m & Hm & Hz & _ & HS & _).
    + exact run_only_rise.
    + unfold Samples.rise_points. do 2 right. left.
    + apply rise_statistics.
    + pose proof sqrt_27. lra.
    + exists m. eexists. split; [exact Hm | split; [exact Hz |]].
      apply HS.
      apply (derive_signal (Samples.dip_day 3 10) (mean_of 1 Samples.rise_closes)
               (std_of 1 1 Samples.rise_closes)).
      * apply (window_statistics
                 [Samples.dip_day 1 1; Samples.dip_day 2 1; Samples.dip_day 3 10] 2).
        reflexivity.
      * destruct (derive_bands (Samples.dip_day 3 10) (mean_of 1 Samples.rise_closes)
                    (std_of 1 1 Samples.rise_closes)) as [HU _].
        rewrite HU. exact rise_above_band.
Defined.

(** ** Warm-up *)

(** C4.  The first row of any instrument in the result has its moving
    average equal to its close, a missing standard deviation, and the
    signal 'Hold'. *)
Theorem first_observation (read_csv : string → read_result) (shown : list string)
    (data : list Point) (stock : string) (p : Point) :
  load_and_analyze_data read_csv = (shown, Returned data) →
  head (points_of stock data) = Some p →
  MA_10 p = point_Close p ∧ STD_10 p = None ∧ Signal p = Hold.
Proof.
  intros (_ & _ & combined & _ & ->)%load_and_analyze_data_Returned.
  rewrite points_of_analyze. generalize (sort_values cmp_Date
    (filter (fun r => Stock r = stock) (sort_values cmp_Stock_Date combined))).
  intros stock_data. rewrite head_lookup.
  intros (r & Hr & ->)%analyze_stock_lookup.
  destruct stock_data as [|r0 rest]; [discriminate |]. injection Hr as ->.
  assert (Hw : win (r :: rest) 0 = [Close (cells r)]) by reflexivity.
  pose proof (window_statistics (r :: rest) 0 r eq_refl) as Hst.
  rewrite Hw in *.
  assert (Hsd : std_of 1 1 [Close (cells r)] = None)
    by (destruct (Close (cells r)); reflexivity).
  split; [| split].
  - unfold point_Close. cbn [MA_10 row derive].
    destruct (Close (cells r)) as [c|]; [| reflexivity].
    unfold mean_of. simpl. f_equal. field.
  - exact Hsd.
  - apply derive_Hold; [assumption | left; assumption].
Qed.

Lemma first_observation_example :
  MA_10 Examples.dlf_point1 = point_Close Examples.dlf_point1 ∧
  STD_10 Examples.dlf_point1 = None ∧ Signal Examples.dlf_point1 = Hold.
Proof.
  apply (first_observation Examples.only_dlf Examples.dlf_shown
           [Examples.dlf_point1; Examples.dlf_point2] "DLF").
  - vm_compute. reflexivity.
  - vm_compute. reflexivity.
Defined.

(** ** The running update in exact arithmetic

    [roll_mean] and [roll_var] keep a state over the rows.  In exact
    arithmetic both compensations stay 0, the state holds the sum, the mean
    and the sum of squared deviations of the non-missing cells of the
    current window, and the value given for a row is the statistic of its
    window computed afresh.  So the frames of the run hold, in exact
    arithmetic, what lines 55-66 compute with pandas. *)

Section LoopFacts.

Import Arithmetic Aggregations.

Context {F : Type} `{Arith F}.

(** *** The loop *)

Lemma slice_single {A} (values : list A) (a b : nat) (v : A) :
  values !! a = Some v → b = S a → slice a b values = [v].
Proof.
  intros Hv ->. unfold slice. replace (S a - a)%nat with 1%nat by lia.
  rewrite (drop_S _ _ _ Hv). reflexivity.
Qed.

Lemma slice_empty {A} (values : list A) (a b : nat) : (b ≤ a)%nat → slice a b values = [].
Proof. intros Hb. unfold slice. replace (b - a)%nat with 0%nat by lia. reflexivity. Qed.

(** The state after a row is the state after the row before it, less the
    cell that has left the window, plus the cell of the row. *)
Lemma roll_first {St} (setup : F → St) (add_ remove_ : St → F → St)
    (values : list F) (v : F) :
  values !! 0%nat = Some v →
  roll setup add_ remove_ window_size values 0 = add_ (setup v) v.
Proof.
  intros Hv. cbn [roll]. change (start window_size 0) with 0%nat.
  rewrite Hv, (slice_single values 0 (end_ 0) v Hv) by reflexivity. reflexivity.
Qed.

Lemma roll_next {St} (setup : F → St) (add_ remove_ : St → F → St)
    (values : list F) (j : nat) (v : F) :
  values !! S j = Some v →
  roll setup add_ remove_ window_size values (S j)
  = add_ (if decide (window_size ≤ S j)%nat
          then match values !! (S j - window_size)%nat with
               | Some old => remove_ (roll setup add_ remove_ window_size values j) old
               | None => roll setup add_ remove_ window_size values j
               end
          else roll setup add_ remove_ window_size values j) v.
Proof.
  intros Hv. cbn [roll].
  rewrite bool_decide_eq_false_2 by (unfold start, end_, window_size; lia).
  rewrite (slice_single values (end_ j) (end_ (S j)) v)
    by (unfold end_; first [rewrite Nat.add_1_r; exact Hv | lia]).
  cbn [foldl]. f_equal.
  destruct (decide (window_size ≤ S j)%nat) as [Hj | Hj].
  - destruct (lookup_lt_is_Some_2 values (S j - window_size)%nat) as [old Hold].
    { apply lookup_lt_Some in Hv. lia. }
    rewrite Hold.
    rewrite (slice_single values (start window_size j) (start window_size (S j)) old).
    + reflexivity.
    + unfold start. replace (j + 1 - window_size)%nat with (S j - window_size)%nat by lia.
      exact Hold.
    + unfold start, window_size in *. lia.
  - rewrite slice_empty by (unfold start, window_size in *; lia). reflexivity.
Qed.

Lemma roll_rep {St} (Rep : St → list F → nat → Prop)
    (setup : F → St) (add_ remove_ : St → F → St) (col : list F) :
  (∀ first, col !! 0%nat = Some first → Rep (setup first) [] 0%nat) →
  (∀ st full s val, Rep st full s → full ++ [val] `prefix_of` col →
                    Rep (add_ st val) (full ++ [val]) s) →
  (∀ st full s val, Rep st full s → full `prefix_of` col → full !! s = Some val →
                    Rep (remove_ st val) full (S s)) →
  ∀ i : nat, (i < length col)%nat →
    Rep (roll setup add_ remove_ window_size col i) (take (S i) col) (S i - window_size)%nat.
Proof.
  intros Hsetup Hadd Hremove. induction i as [|j IH]; intros Hi.
  - destruct (lookup_lt_is_Some_2 col 0 Hi) as [v Hv].
    rewrite (roll_first _ _ _ _ _ Hv).
    assert (Ht : take 1 col = [] ++ [v]) by (rewrite (take_S_r _ _ _ Hv); reflexivity).
    rewrite Ht. apply Hadd; [apply Hsetup, Hv |]. rewrite <- Ht. apply prefix_take.
  - destruct (lookup_lt_is_Some_2 col (S j) Hi) as [v Hv].
    rewrite (roll_next _ _ _ _ _ _ Hv), (take_S_r _ _ _ Hv).
    apply Hadd; [| rewrite <- (take_S_r _ _ _ Hv); apply prefix_take].
    specialize (IH ltac:(lia)).
    destruct (decide (window_size ≤ S j)%nat) as [Hj | Hj].
    + destruct (lookup_lt_is_Some_2 col (S j - window_size)%nat ltac:(lia)) as [old Hold].
      rewrite Hold. replace (S (S j) - window_size)%nat with (S (S j - window_size)) by lia.
      apply Hremove; [exact IH | apply prefix_take |].
      rewrite lookup_take_lt by (unfold window_size in *; lia). exact Hold.
    + replace (S (S j) - window_size)%nat with (S j - window_size)%nat
        by (unfold window_size in *; lia).
      exact IH.
Qed.

End LoopFacts.

Section OnlineFacts.

Local Open Scope R_scope.

Import Arithmetic Aggregations Invariants.

(** *** Cells *)

Lemma eq_refl_Some (v : R) : eqb (Some v : float) (Some v) = true.
Proof. simpl. destruct (Req_dec_T v v); [reflexivity | congruence]. Qed.

Lemma eq_Some (a : float) (v : R) : eqb (Some v : float) a = true → a = Some v.
Proof.
  destruct a as [u|]; simpl; [| discriminate].
  destruct (Req_dec_T v u); [congruence | discriminate].
Qed.

Lemma dropna_app (l k : list float) : dropna (l ++ k) = dropna l ++ dropna k.
Proof. unfold dropna. apply omap_app. Qed.

Lemma sum_app (l k : list R) : sum (l ++ k) = sum l + sum k.
Proof. induction l as [|x l IH]; simpl; [lra | rewrite IH; lra]. Qed.

Lemma negatives_app (l k : list R) : negatives (l ++ k) = (negatives l + negatives k)%nat.
Proof. induction l as [|x l IH]; simpl; [reflexivity | rewrite IH; lia]. Qed.

Lemma negatives_none (xs : list R) : negatives xs = 0%nat → 0 <= sum xs.
Proof.
  induction xs as [|x xs IH]; simpl; [lra |].
  destruct (Rlt_dec x 0); [lia |]. intros Hn. specialize (IH Hn). lra.
Qed.

Lemma negatives_le (xs : list R) : (negatives xs ≤ length xs)%nat.
Proof. induction xs as [|x xs IH]; simpl; [lia |]. destruct (Rlt_dec x 0); lia. Qed.

Lemma negatives_all (xs : list R) :
  xs ≠ [] → negatives xs = length xs → sum xs < 0.
Proof.
  induction xs as [|x xs IH]; [congruence |]. intros _. simpl.
  pose proof (negatives_le xs).
  destruct (Rlt_dec x 0); [| lia]. intros Hn.
  destruct xs as [|y xs]; [simpl; lra |].
  assert (sum (y :: xs) < 0) by (apply IH; [discriminate | lia]). lra.
Qed.

Lemma same_run_all (k : nat) (prev : float) (h pre xs : list R) :
  same_run k prev h → h = pre ++ xs → (length xs ≤ k)%nat → ∀ x, x ∈ xs → prev = Some x.
Proof.
  intros Hrun -> Hk x Hx. apply Hrun. rewrite length_app.
  destruct (decide (k ≤ length pre + length xs)%nat) as [Hle | Hgt].
  - replace (length pre + length xs - k)%nat with (length pre - (k - length xs))%nat by lia.
    rewrite drop_app_le by lia. apply elem_of_app. right. exact Hx.
  - replace (length pre + length xs - k)%nat with 0%nat by lia.
    rewrite drop_0. apply elem_of_app. right. exact Hx.
Qed.

Lemma same_run_add (k : nat) (prev : float) (h : list R) (v : R) :
  same_run k prev h →
  same_run (if eqb (Some v : float) prev then k + 1 else 1) (Some v) (h ++ [v]).
Proof.
  intros Hrun x. rewrite length_app. cbn [length].
  destruct (eqb (Some v : float) prev) eqn:He.
  - apply eq_Some in He. subst prev.
    replace (length h + 1 - (k + 1))%nat with (length h - k)%nat by lia.
    rewrite drop_app_le by lia. intros [Hx | Hx%list_elem_of_singleton]%elem_of_app.
    + apply Hrun, Hx.
    + congruence.
  - replace (length h + 1 - 1)%nat with (length h) by lia.
    rewrite drop_app_length. intros Hx%list_elem_of_singleton. congruence.
Qed.

Lemma sum_constant (v : R) (xs : list R) :
  (∀ x, x ∈ xs → x = v) → sum xs = INR (length xs) * v.
Proof.
  induction xs as [|x xs IH]; intros Hall; [simpl; lra |].
  rewrite (Hall x) by left. change (sum (v :: xs)) with (v + sum xs).
  rewrite IH by (intros y Hy; apply Hall; right; exact Hy).
  change (length (v :: xs)) with (S (length xs)). rewrite S_INR. lra.
Qed.

Lemma ssqdm_constant (v : R) (xs : list R) :
  (∀ x, x ∈ xs → x = v) → ssqdm v xs = 0.
Proof.
  induction xs as [|x xs IH]; intros Hall; [reflexivity |].
  change (ssqdm v (x :: xs)) with ((x - v) * (x - v) + ssqdm v xs).
  rewrite IH by (intros y Hy; apply Hall; right; exact Hy). rewrite (Hall x) by left. lra.
Qed.


(** *** The state of [roll_mean] *)

Lemma mean_rep_setup (first : float) : mean_rep (setup_mean first) [] 0.
Proof.
  unfold mean_rep, setup_mean, same_run. cbn.
  repeat split; try reflexivity. intros x Hx. inversion Hx.
Qed.

Lemma mean_rep_add (st : mean_state) (full : list float) (s : nat) (val : float) :
  mean_rep st full s → mean_rep (add_mean st val) (full ++ [val]) s.
Proof.
  intros (Hs & Hn & Hsum & Hca & Hcr & Hneg & Hrun). unfold mean_rep.
  rewrite drop_app_le by exact Hs. rewrite !dropna_app, length_app.
  unfold add_mean. destruct val as [v|].
  - rewrite eq_refl_Some. cbn [nobs sum_x neg_ct compensation_add compensation_remove
                                 num_consecutive_same_value prev_value].
    rewrite Hsum, Hca. cbn [dropna omap list_omap].
    rewrite length_app, sum_app, negatives_app. cbn [length sum negatives].
    split; [lia |]. split; [lia |].
    split; [simpl; f_equal; lra |]. split; [simpl; f_equal; lra |].
    split; [exact Hcr |]. split.
    + simpl. destruct (Rlt_dec v 0); lia.
    + apply same_run_add, Hrun.
  - cbn. rewrite !app_nil_r. repeat split; try assumption. lia.
Qed.


Lemma dropna_cons_Some (v : R) (l : list float) : dropna (Some v :: l) = v :: dropna l.
Proof. reflexivity. Qed.

Lemma dropna_cons_None (l : list float) : dropna (None :: l) = dropna l.
Proof. reflexivity. Qed.

Lemma mean_rep_remove (st : mean_state) (full : list float) (s : nat) (val : float) :
  mean_rep st full s → full !! s = Some val → mean_rep (remove_mean st val) full (S s).
Proof.
  intros (Hs & Hn & Hsum & Hca & Hcr & Hneg & Hrun) Hval. unfold mean_rep in *.
  rewrite (drop_S _ _ _ Hval) in Hn, Hsum, Hneg.
  apply lookup_lt_Some in Hval as Hlt.
  unfold remove_mean. destruct val as [v|].
  - rewrite eq_refl_Some. cbn [nobs sum_x neg_ct compensation_add compensation_remove
                                 num_consecutive_same_value prev_value].
    rewrite dropna_cons_Some in Hn, Hsum, Hneg.
    set (xs := dropna (drop (S s) full)) in *.
    cbn [length sum negatives] in Hn, Hsum, Hneg.
    rewrite Hsum, Hcr, Hn, Hneg.
    split; [lia |]. split; [lia |].
    split; [simpl; f_equal; lra |]. split; [exact Hca |].
    split; [simpl; f_equal; lra |]. split; [| exact Hrun].
    simpl. destruct (Rlt_dec v 0); lia.
  - rewrite dropna_cons_None in Hn, Hsum, Hneg.
    cbn. repeat split; first [assumption | lia].
Qed.

Lemma mean_rep_calc (st : mean_state) (full : list float) (s : nat) :
  mean_rep st full s → calc_mean 1 st = mean_of 1 (drop s full).
Proof.
  intros (Hs & Hn & Hsum & Hca & Hcr & Hneg & Hrun).
  unfold calc_mean, mean_of. rewrite Hn.
  set (xs := dropna (drop s full)) in *.
  destruct (bool_decide (1 ≤ length xs)%nat && bool_decide (0 < length xs)%nat) eqn:Hlen;
    [| reflexivity].
  apply andb_prop in Hlen as [Hlen%bool_decide_eq_true _].
  assert (Hpos : 0 < INR (length xs)) by (apply lt_0_INR; lia).
  rewrite Hsum. cbn [divide Exact.exact of_nat]. unfold div.
  destruct (Req_dec_T (INR (length xs)) 0) as [H0 | _]; [lra |].
  destruct (bool_decide_reflect (length xs ≤ num_consecutive_same_value st)%nat) as [Hk | Hk].
  - destruct xs as [|x xs'] eqn:Hxs; [simpl in Hlen; lia |].
    assert (Hall : ∀ y, y ∈ x :: xs' → prev_value st = Some y).
    { apply (same_run_all _ _ (dropna full) (dropna (take s full)) (x :: xs') Hrun).
      - rewrite <- Hxs. unfold xs. rewrite <- dropna_app, take_drop. reflexivity.
      - exact Hk. }
    rewrite (Hall x) by left. f_equal.
    rewrite (sum_constant x).
    + field. lra.
    + intros y Hy. apply Hall in Hy. rewrite (Hall x) in Hy by left. congruence.
  - rewrite Hneg. unfold zero. cbn [of_nat Exact.exact ltb]. unfold lt. simpl INR.
    assert (Hq : sum xs / INR (length xs) * INR (length xs) = sum xs) by (field; lra).
    destruct (Rlt_dec (sum xs / INR (length xs)) 0) as [Hlt | _];
      destruct (Rlt_dec 0 (sum xs / INR (length xs))) as [Hgt | _];
      destruct (bool_decide_reflect (negatives xs = 0)%nat) as [Hz | Hz];
      destruct (bool_decide_reflect (negatives xs = length xs)) as [Ha | Ha];
      simpl; try reflexivity; exfalso;
      try (apply negatives_none in Hz);
      try (apply negatives_all in Ha; [| intros Hnil; rewrite Hnil in Hlen; simpl in Hlen; lia]);
      nra.
Qed.


(** *** The state after each row *)

Lemma prep_values_exact (col : list float) : prep_values col = col.
Proof. unfold prep_values. apply list_fmap_id. Qed.

Lemma window_at_drop_take {A} (col : list A) (i : nat) :
  drop (S i - window_size)%nat (take (S i) col) = window_at window_size col i.
Proof. unfold window_at. rewrite Nat.add_1_r. reflexivity. Qed.

(** In exact arithmetic the running mean of pandas is the mean of the
    non-missing cells of each window. *)
Lemma exact_rolling_mean (col : list float) :
  Aggregations.rolling_mean window_size 1 col = Rolling.rolling_mean window_size 1 col.
Proof.
  unfold Aggregations.rolling_mean, roll_mean, Rolling.rolling_mean. rewrite prep_values_exact.
  apply list_eq. intros i. rewrite list_lookup_fmap.
  destruct (decide (i < length col)%nat) as [Hi | Hi].
  - rewrite lookup_seq_lt by exact Hi. rewrite lookup_rolling by exact Hi. cbn [fmap option_fmap option_map].
    f_equal. rewrite <- window_at_drop_take.
    apply mean_rep_calc.
    apply (roll_rep mean_rep); [| | | exact Hi].
    + intros first _. apply mean_rep_setup.
    + intros st full s val Hrep _. apply mean_rep_add, Hrep.
    + intros st full s val Hrep _. apply mean_rep_remove, Hrep.
  - rewrite lookup_seq_ge by lia. symmetry. apply lookup_ge_None.
    rewrite length_rolling. lia.
Qed.


(** *** The state of [roll_var] *)

(** The sum of squared deviations from [a], from [b] in its place. *)
Lemma ssqdm_shift (a b : R) (xs : list R) :
  ssqdm a xs
  = ssqdm b xs + 2 * (b - a) * (sum xs - INR (length xs) * b)
    + INR (length xs) * ((b - a) * (b - a)).
Proof.
  induction xs as [|x xs IH]; [unfold ssqdm; simpl; lra |].
  change (ssqdm a (x :: xs)) with ((x - a) * (x - a) + ssqdm a xs).
  change (ssqdm b (x :: xs)) with ((x - b) * (x - b) + ssqdm b xs).
  change (sum (x :: xs)) with (x + sum xs).
  change (length (x :: xs)) with (S (length xs)). rewrite S_INR, IH. ring.
Qed.

Lemma ssqdm_app (m : R) (l k : list R) : ssqdm m (l ++ k) = ssqdm m l + ssqdm m k.
Proof. unfold ssqdm. rewrite fmap_app. apply sum_app. Qed.

(** Welford's update when a value enters. *)
Lemma welford_add (xs : list R) (m m' v : R) :
  INR (length xs) * m = sum xs →
  m' = m + (v - m) / INR (length xs + 1) →
  INR (length (xs ++ [v])) * m' = sum (xs ++ [v]) ∧
  ssqdm m' (xs ++ [v]) = ssqdm m xs + (v - m) * (v - m').
Proof.
  intros Hm Hm'. rewrite length_app, sum_app, ssqdm_app. cbn [length sum].
  set (n := INR (length xs)) in *.
  assert (Hn : 0 <= n) by apply pos_INR.
  assert (Hn1 : INR (length xs + 1) = n + 1) by (rewrite plus_INR; reflexivity).
  rewrite Hn1 in *.
  assert (Hv : v = (n + 1) * m' - n * m) by (rewrite Hm'; field; lra).
  split; [lra |].
  rewrite (ssqdm_shift m' m xs). fold n. rewrite <- Hm.
  unfold ssqdm at 2. simpl. rewrite Hv. ring.
Qed.

(** Welford's update when the oldest value leaves and others stay. *)
Lemma welford_remove (xs : list R) (m m' v : R) :
  xs ≠ [] →
  INR (length (v :: xs)) * m = sum (v :: xs) →
  m' = m - (v - m) / INR (length xs) →
  INR (length xs) * m' = sum xs ∧
  ssqdm m' xs = ssqdm m (v :: xs) - (v - m) * (v - m').
Proof.
  intros Hne Hm Hm'. cbn [length sum] in Hm. rewrite S_INR in Hm.
  set (n := INR (length xs)) in *.
  assert (Hn : 0 < n).
  { apply lt_0_INR. destruct xs; [congruence | simpl; lia]. }
  assert (Hv : v = (n + 1) * m - n * m') by (rewrite Hm'; field; lra).
  assert (Hs : n * m' = sum xs) by nra.
  split; [exact Hs |].
  change (ssqdm m (v :: xs)) with ((v - m) * (v - m) + ssqdm m xs).
  rewrite (ssqdm_shift m m' xs). fold n. rewrite <- Hs. rewrite Hv. ring.
Qed.

Lemma var_rep_setup (first : float) : var_rep (setup_var first) [] 0.
Proof.
  unfold var_rep, setup_var, same_run. cbn.
  split; [lia |]. split; [reflexivity |]. split.
  { exists 0. repeat split; try reflexivity. lra. }
  repeat split; try reflexivity. intros x Hx. inversion Hx.
Qed.

Lemma var_rep_add (st : var_state) (full : list float) (s : nat) (val : float) :
  var_rep st full s → var_rep (add_var st val) (full ++ [val]) s.
Proof.
  intros (Hs & Hn & (m & Hm & Hsum & Hss) & Hca & Hcr & Hrun). unfold var_rep.
  rewrite drop_app_le by exact Hs. rewrite !dropna_app.
  unfold add_var. destruct val as [v|].
  - rewrite eq_refl_Some. rewrite bool_decide_eq_false_2 by lia.
    cbn [v_nobs mean_x ssqdm_x v_compensation_add v_compensation_remove
           v_num_consecutive_same_value v_prev_value].
    rewrite Hm, Hss, Hca, Hn.
    change (dropna [Some v]) with [v].
    set (xs := dropna (drop s full)) in *.
    assert (Hpos : INR (length xs + 1) ≠ 0).
    { rewrite plus_INR. pose proof (pos_INR (length xs)). simpl. lra. }
    destruct (welford_add xs m (m + (v - m) / INR (length xs + 1)) v Hsum eq_refl)
      as [Hsum' Hss'].
    split; [rewrite length_app; simpl; lia |]. split; [rewrite length_app; reflexivity |].
    split.
    { exists (m + (v - m) / INR (length xs + 1)).
      cbn [plus minus times divide of_nat Exact.exact]. unfold div.
      destruct (Req_dec_T (INR (length xs + 1)) 0) as [H0 | _]; [contradiction |].
      simpl. split; [f_equal; lra |]. split; [exact Hsum' |].
      rewrite Hss'. f_equal. lra. }
    split; [simpl; f_equal; lra |]. split; [exact Hcr |].
    apply same_run_add, Hrun.
  - cbn. rewrite !app_nil_r. split; [rewrite length_app; simpl; lia |].
    split; [exact Hn |]. split; [exists m; auto |]. auto.
Qed.


Lemma var_rep_remove (st : var_state) (full : list float) (s : nat) (val : float) :
  var_rep st full s → full !! s = Some val → var_rep (remove_var st val) full (S s).
Proof.
  intros (Hs & Hn & (m & Hm & Hsum & Hss) & Hca & Hcr & Hrun) Hval. unfold var_rep in *.
  rewrite (drop_S _ _ _ Hval) in Hn, Hsum, Hss.
  apply lookup_lt_Some in Hval as Hlt.
  unfold remove_var. destruct val as [v|].
  - rewrite eq_refl_Some. rewrite dropna_cons_Some in Hn, Hsum, Hss.
    set (xs := dropna (drop (S s) full)) in *.
    rewrite Hn. cbn [length]. replace (S (length xs) - 1)%nat with (length xs) by lia.
    destruct (bool_decide_reflect (length xs = 0%nat)) as [Hz | Hz];
      cbn [v_nobs mean_x ssqdm_x v_compensation_add v_compensation_remove
             v_num_consecutive_same_value v_prev_value].
    + split; [lia |]. split; [reflexivity |]. split; [| auto].
      exists 0. unfold zero. cbn [of_nat Exact.exact]. simpl INR.
      destruct xs; [| discriminate]. unfold ssqdm. simpl. repeat split; try reflexivity. lra.
    + rewrite Hm, Hss, Hcr.
      assert (Hne : xs ≠ []) by (intros Hnil; rewrite Hnil in Hz; simpl in Hz; lia).
      assert (Hpos : INR (length xs) ≠ 0).
      { apply not_0_INR. exact Hz. }
      destruct (welford_remove xs m (m - (v - m) / INR (length xs)) v Hne Hsum eq_refl)
        as [Hsum' Hss'].
      split; [lia |]. split; [reflexivity |]. split.
      { exists (m - (v - m) / INR (length xs)).
        cbn [plus minus times divide of_nat Exact.exact]. unfold div.
        destruct (Req_dec_T (INR (length xs)) 0) as [H0 | _]; [contradiction |].
        simpl. split; [f_equal; lra |]. split; [exact Hsum' |].
        rewrite Hss'. f_equal. lra. }
      split; [exact Hca |]. split; [simpl; f_equal; lra | exact Hrun].
  - rewrite dropna_cons_None in Hn, Hsum, Hss.
    cbn. split; [lia |]. split; [exact Hn |]. split; [exists m; auto |]. auto.
Qed.

Lemma var_rep_calc (st : var_state) (full : list float) (s : nat) :
  var_rep st full s → calc_var (Nat.max 1 1) 1 st = var_of 1 1 (drop s full).
Proof.
  intros (Hs & Hn & (m & Hm & Hsum & Hss) & Hca & Hcr & Hrun).
  unfold calc_var, var_of. rewrite Hn. change (Nat.max 1 1) with 1%nat.
  set (xs := dropna (drop s full)) in *.
  destruct (bool_decide (1 ≤ length xs)%nat && bool_decide (1 < length xs)%nat) eqn:Hlen;
    [| reflexivity].
  apply andb_prop in Hlen as [_ Hlen%bool_decide_eq_true].
  assert (Hpos : 0 < INR (length xs)) by (apply lt_0_INR; lia).
  assert (Hd : INR (length xs) - INR 1 ≠ 0).
  { rewrite <- minus_INR by lia. apply not_0_INR. lia. }
  rewrite bool_decide_eq_false_2 by lia. cbn [orb].
  destruct (bool_decide_reflect (length xs ≤ v_num_consecutive_same_value st)%nat) as [Hk | Hk].
  - destruct xs as [|x xs'] eqn:Hxs; [simpl in Hlen; lia |].
    assert (Hall : ∀ y, y ∈ x :: xs' → v_prev_value st = Some y).
    { apply (same_run_all _ _ (dropna full) (dropna (take s full)) (x :: xs') Hrun).
      - rewrite <- Hxs. unfold xs. rewrite <- dropna_app, take_drop. reflexivity.
      - exact Hk. }
    assert (Hconst : ∀ y, y ∈ x :: xs' → y = x).
    { intros y Hy. apply Hall in Hy. rewrite (Hall x) in Hy by left. congruence. }
    unfold zero. cbn [of_nat Exact.exact]. change (INR 0) with 0. f_equal.
    rewrite (sum_constant x) by exact Hconst.
    replace (INR (length (x :: xs')) * x / INR (length (x :: xs'))) with x by (field; lra).
    rewrite (ssqdm_constant x) by exact Hconst. field. exact Hd.
  - rewrite Hss. cbn [divide minus of_nat Exact.exact]. unfold sub, div.
    destruct (Req_dec_T (INR (length xs) - INR 1) 0) as [H0 | _]; [contradiction |].
    f_equal. f_equal. f_equal. rewrite <- Hsum. field. lra.
Qed.

(** In exact arithmetic the running deviation of pandas is the sample
    standard deviation of the non-missing cells of each window. *)
Lemma exact_rolling_std (col : list float) :
  Aggregations.rolling_std window_size 1 col = Rolling.rolling_std window_size 1 col.
Proof.
  unfold Aggregations.rolling_std, roll_var, Rolling.rolling_std. rewrite prep_values_exact.
  apply list_eq. intros i. rewrite !list_lookup_fmap.
  destruct (decide (i < length col)%nat) as [Hi | Hi].
  - rewrite lookup_seq_lt by exact Hi. rewrite lookup_rolling by exact Hi.
    cbn [fmap option_fmap option_map]. f_equal. rewrite <- window_at_drop_take.
    rewrite (var_rep_calc _ (take (S i) col) (S i - window_size)).
    + unfold zsqrt, std_of.
      destruct (var_of 1 1 (drop (S i - window_size) (take (S i) col))) as [v|] eqn:Hv;
        [| reflexivity].
      apply var_of_nonneg in Hv. unfold zero. cbn [ltb root of_nat Exact.exact]. unfold lt.
      simpl INR. destruct (Rlt_dec v 0); [lra | reflexivity].
    + apply (roll_rep var_rep); [| | | exact Hi].
      * intros first _. apply var_rep_setup.
      * intros st full s val Hrep _. apply var_rep_add, Hrep.
      * intros st full s val Hrep _. apply var_rep_remove, Hrep.
  - rewrite lookup_seq_ge by lia. symmetry. apply lookup_ge_None.
    rewrite length_rolling. lia.
Qed.


(** Lines 55-66 in exact arithmetic give the numeric columns of the frame
    of a stock. *)
Lemma kernel_exact (stock_data : list (Row date)) :
  Kernel.analyze_stock (Close_col stock_data) = numeric <$> analyze_stock stock_data.
Proof.
  unfold Kernel.analyze_stock, analyze_stock.
  rewrite exact_rolling_mean, exact_rolling_std. unfold Close_col.
  apply list_eq. intros i.
  rewrite list_lookup_fmap, !lookup_zip_with, list_lookup_fmap.
  destruct (stock_data !! i) as [r|]; [| reflexivity].
  cbn [fmap option_fmap option_map mbind option_bind].
  destruct (Rolling.rolling_mean window_size 1 _ !! i) as [m|]; [| reflexivity].
  destruct (Rolling.rolling_std window_size 1 _ !! i) as [sd|]; reflexivity.
Qed.

End OnlineFacts.

(** ** A flat column in binary64

    Where the closes of a window are all the same, pandas does not go by
    the running sums: it gives the repeated value as the mean and 0 as the
    variance.  A column that repeats one close therefore holds in every
    row in binary64 too, whatever its length. *)

Section FlatFacts.

Import Arithmetic Aggregations SpecFloat Invariants.

Context (x : Binary64.float64) (Hx : Binary64.is_finite x = true).

Lemma compare_refl_finite : SFcompare x x = Some Eq.
Proof.
  destruct x as [s | s | | s m e]; try discriminate; [reflexivity |].
  simpl. rewrite Z.compare_refl, Pos.compare_cont_refl. destruct s; reflexivity.
Qed.

Lemma eqb_refl_finite : eqb x x = true.
Proof. simpl. unfold SFeqb. rewrite compare_refl_finite. reflexivity. Qed.

Lemma ltb_irrefl_finite : ltb x x = false.
Proof. simpl. unfold SFltb. rewrite compare_refl_finite. reflexivity. Qed.

Lemma prefix_replicate (n : nat) (full : list Binary64.float64) (val : Binary64.float64) :
  full ++ [val] `prefix_of` replicate n x → val = x.
Proof.
  intros [k Hk].
  assert (Hin : val ∈ replicate n x) by (rewrite Hk; set_solver).
  apply elem_of_replicate in Hin as [-> _]. reflexivity.
Qed.

Lemma flat_mean_add (n : nat) (st : mean_state) (full : list Binary64.float64) (s : nat)
    (val : Binary64.float64) :
  flat_mean x st full s → full ++ [val] `prefix_of` replicate n x →
  flat_mean x (add_mean st val) (full ++ [val]) s.
Proof.
  intros (Hp & Hs & Hn & Hk) ->%prefix_replicate. unfold flat_mean, add_mean.
  rewrite eqb_refl_finite, Hp, eqb_refl_finite, length_app.
  cbn [prev_value nobs num_consecutive_same_value length]. split; [reflexivity | lia].
Qed.

Lemma prefix_replicate_elem (n : nat) (full : list Binary64.float64) (c : Binary64.float64) :
  full `prefix_of` replicate n x → c ∈ full → c = x.
Proof.
  intros [k Hk] Hc.
  assert (Hin : c ∈ replicate n x) by (rewrite Hk; set_solver).
  apply elem_of_replicate in Hin as [-> _]. reflexivity.
Qed.

Lemma flat_mean_remove (n : nat) (st : mean_state) (full : list Binary64.float64) (s : nat)
    (val : Binary64.float64) :
  flat_mean x st full s → full `prefix_of` replicate n x → full !! s = Some val →
  flat_mean x (remove_mean st val) full (S s).
Proof.
  intros (Hp & Hs & Hn & Hk) Hpre Hval. apply lookup_lt_Some in Hval as Hlt.
  rewrite (prefix_replicate_elem n full val Hpre) by (eapply list_elem_of_lookup_2, Hval).
  unfold flat_mean, remove_mean. rewrite eqb_refl_finite.
  cbn [prev_value nobs num_consecutive_same_value]. split; [exact Hp | lia].
Qed.

Lemma flat_mean_calc (st : mean_state) (full : list Binary64.float64) (s : nat) :
  flat_mean x st full s → (s < length full)%nat → calc_mean 1 st = x.
Proof.
  intros (Hp & Hs & Hn & Hk) Hlt. unfold calc_mean.
  rewrite !bool_decide_eq_true_2 by lia. exact Hp.
Qed.

Lemma flat_var_add (n : nat) (st : var_state) (full : list Binary64.float64) (s : nat)
    (val : Binary64.float64) :
  flat_var x st full s → full ++ [val] `prefix_of` replicate n x →
  flat_var x (add_var st val) (full ++ [val]) s.
Proof.
  intros (Hp & Hs & Hn & Hk) ->%prefix_replicate. unfold flat_var, add_var.
  rewrite eqb_refl_finite, Hp, eqb_refl_finite, length_app.
  cbn [v_prev_value v_nobs v_num_consecutive_same_value length]. split; [reflexivity | lia].
Qed.

Lemma flat_var_remove (n : nat) (st : var_state) (full : list Binary64.float64) (s : nat)
    (val : Binary64.float64) :
  flat_var x st full s → full `prefix_of` replicate n x → full !! s = Some val →
  flat_var x (remove_var st val) full (S s).
Proof.
  intros (Hp & Hs & Hn & Hk) Hpre Hval. apply lookup_lt_Some in Hval as Hlt.
  rewrite (prefix_replicate_elem n full val Hpre) by (eapply list_elem_of_lookup_2, Hval).
  unfold flat_var, remove_var. rewrite eqb_refl_finite.
  destruct (bool_decide (v_nobs st - 1 = 0)%nat);
    cbn [v_prev_value v_nobs v_num_consecutive_same_value]; (split; [exact Hp | lia]).
Qed.

Lemma flat_var_calc (st : var_state) (full : list Binary64.float64) (s : nat) :
  flat_var x st full s → (s < length full)%nat →
  calc_var (Nat.max 1 1) 1 st = if decide (length full - s = 1)%nat then Binary64.NaN else Binary64.zero.
Proof.
  intros (Hp & Hs & Hn & Hk) Hlt. unfold calc_var. change (Nat.max 1 1) with 1%nat.
  rewrite Hn in *. destruct (decide (length full - s = 1)%nat) as [H1 | H1].
  - rewrite H1. reflexivity.
  - rewrite !bool_decide_eq_true_2 by lia. rewrite (bool_decide_eq_true_2 (_ ≤ _)%nat) by lia.
    rewrite orb_true_r. reflexivity.
Qed.


Lemma flat_setup_first (n : nat) (first : Binary64.float64) :
  replicate n x !! 0%nat = Some first → first = x.
Proof. intros [-> _]%lookup_replicate. reflexivity. Qed.

Lemma prep_values_flat (n : nat) : prep_values (replicate n x) = replicate n x.
Proof.
  unfold prep_values. rewrite fmap_replicate. f_equal.
  destruct x; try discriminate; reflexivity.
Qed.

(** The cells of a row whose window repeats [x]. *)
Lemma derive_flat (sd : Binary64.float64) :
  sd = Binary64.NaN ∨ sd = Binary64.zero →
  Kernel.Signal (Kernel.derive x x sd) = Hold ∧
  Kernel.Std_Deviations (Kernel.derive x x sd) = Binary64.NaN.
Proof.
  pose proof ltb_irrefl_finite as Hlt. simpl in Hlt.
  intros [-> | ->]; unfold Kernel.derive; cbn [Kernel.Signal Kernel.Std_Deviations].
  - split; [apply (binary64_nan_holds x x x) |].
    destruct (minus x x); reflexivity.
  - assert (H1 : times (of_nat 1) Binary64.zero = Binary64.zero) by (vm_compute; reflexivity).
    rewrite H1. split.
    + destruct x as [s | s | | s m e]; try discriminate.
      * destruct s; reflexivity.
      * simpl. unfold Binary64.zero. simpl. rewrite Hlt. reflexivity.
    + destruct x as [s | s | | s m e]; try discriminate.
      * destruct s; reflexivity.
      * simpl. rewrite Z.sub_diag. reflexivity.
Qed.

(** X21.  A column that repeats one finite close, of any length, in
    binary64: every moving average is that close, the standard deviation
    is NaN in the first row and 0 afterwards, and every row holds and has
    no score. *)
Theorem flat_column_binary64 (n i : nat) (p : Kernel.Point) :
  Kernel.analyze_stock (replicate n x) !! i = Some p →
  Kernel.Close p = x ∧ Kernel.MA_10 p = x ∧
  Kernel.STD_10 p = (if decide (i = 0)%nat then Binary64.NaN else Binary64.zero) ∧
  Kernel.Signal p = Hold ∧ Kernel.Std_Deviations p = Binary64.NaN.
Proof.
  unfold Kernel.analyze_stock, Aggregations.rolling_mean, Aggregations.rolling_std,
    roll_mean, roll_var.
  rewrite prep_values_flat, length_replicate.
  rewrite lookup_zip_with. intros Hp.
  destruct (replicate n x !! i) as [c|] eqn:Hc; [| discriminate].
  apply lookup_replicate in Hc as [-> Hi]. cbn [mbind option_bind] in Hp.
  rewrite (lookup_zip_with pair), !list_lookup_fmap, lookup_seq_lt in Hp by exact Hi.
  cbn [fmap option_fmap option_map mbind option_bind] in Hp.
  assert (Hlen : (i < length (replicate n x))%nat) by (rewrite length_replicate; exact Hi).
  assert (Hm : flat_mean x (roll setup_mean add_mean remove_mean window_size (replicate n x) i)
                 (take (S i) (replicate n x)) (S i - window_size)).
  { apply (roll_rep (flat_mean x)); [| apply flat_mean_add | apply flat_mean_remove | exact Hlen].
    intros first ->%flat_setup_first. unfold flat_mean, setup_mean. cbn. repeat split; lia. }
  assert (Hv : flat_var x (roll setup_var add_var remove_var window_size (replicate n x) i)
                 (take (S i) (replicate n x)) (S i - window_size)).
  { apply (roll_rep (flat_var x)); [| apply flat_var_add | apply flat_var_remove | exact Hlen].
    intros first ->%flat_setup_first. unfold flat_var, setup_var. cbn. repeat split; lia. }
  assert (Hlt : (S i - window_size < length (take (S i) (replicate n x)))%nat).
  { rewrite length_take, length_replicate. unfold window_size. lia. }
  change (0 + i)%nat with i in Hp.
  rewrite (flat_mean_calc _ _ _ Hm Hlt), (flat_var_calc _ _ _ Hv Hlt) in Hp.
  assert (Hone : (length (take (S i) (replicate n x)) - (S i - window_size) = 1 ↔ i = 0)%nat).
  { rewrite length_take, length_replicate. unfold window_size. lia. }
  destruct (decide (i = 0)%nat) as [Hz | Hz].
  - rewrite decide_True in Hp by (apply Hone, Hz). injection Hp as <-.
    split; [reflexivity |]. split; [reflexivity |]. split; [reflexivity |].
    apply derive_flat. left. reflexivity.
  - rewrite decide_False in Hp by (rewrite Hone; exact Hz). injection Hp as <-.
    split; [reflexivity |]. split; [reflexivity |]. split; [reflexivity |].
    apply derive_flat. right. reflexivity.
Qed.

End FlatFacts.

(** Fifteen closes of 0.1, whose sum is not a multiple of 0.1 in binary64:
    the thirteenth row has the average 0.1 and holds. *)
Lemma flat_column_binary64_example :
  ∃ p, Kernel.analyze_stock (replicate 15 (Binary64.decimal 1 1)) !! 12%nat = Some p ∧
       Kernel.MA_10 p = Binary64.decimal 1 1 ∧ Kernel.STD_10 p = Binary64.zero ∧
       Kernel.Signal p = Hold.
Proof.
  eexists. split; [vm_compute; reflexivity |].
  destruct (flat_column_binary64 (Binary64.decimal 1 1) eq_refl 15 12
              (Kernel.derive (Binary64.decimal 1 1) (Binary64.decimal 1 1) Binary64.zero))
    as (_ & Hm & Hs & Hh & _).
  - vm_compute. reflexivity.
  - split; [exact Hm | split; [exact Hs | exact Hh]].
Defined.


(** ** Rolling statistics against the design document *)

Section DesignFacts.

Local Open Scope R_scope.







End DesignFacts.




(** ** Sources that cannot be read *)

(** C6, as stated, fails: a source that is there but cannot be read raises
    an exception that the loop does not catch, and the run is aborted. *)
Lemma unreadable_source_aborts :
  Examples.corrupt_eternal "Eternal.csv" = OtherError ∧
  load_and_analyze_data Examples.corrupt_eternal = ([], Raised) ∧
  main Examples.corrupt_eternal = ([], Crashed).
Proof. repeat split. Qed.

Lemma length_warnings (read_csv : string → read_result) (fl : list (string * string)) :
  length (warnings read_csv fl) = length (filter (missing read_csv) fl).
Proof.
  induction fl as [|[n f] fl IH]; [reflexivity |].
  rewrite filter_cons. unfold warnings in *. cbn [omap list_omap].
  destruct (decide (missing read_csv (n, f))) as [Hf | Hf]; unfold missing in Hf;
    cbn [snd] in Hf.
  - rewrite Hf. cbn [length]. rewrite IH. reflexivity.
  - destruct (read_csv f); [congruence | exact IH..].
Qed.

(** C6, amended.  When no source raises another exception, every source
    whose file is missing is reported with 'File ... not found!' and
    skipped: the loader returns, with one message for each missing file and
    the normalized frame of each of the remaining instruments. *)
Theorem missing_source_is_skipped (read_csv : string → read_result) (name file : string) :
  Forall (fun entry => ¬ fatal read_csv entry) files →
  (name, file) ∈ files → read_csv file = FileNotFoundError →
  load read_csv files [] [] = (warnings read_csv files, Returned (frames read_csv files)) ∧
  (load_and_analyze_data read_csv).1 = warnings read_csv files ∧
  not_found file ∈ warnings read_csv files ∧
  length (warnings read_csv files) = length (filter (missing read_csv) files) ∧
  ∀ name' file' df, (name', file') ∈ files → read_csv file' = Table df →
                    normalize name' df ∈ frames read_csv files.
Proof.
  intros Hok Hin Hmiss. split; [| split; [| split; [| split]]].
  - rewrite load_ok by assumption. reflexivity.
  - rewrite load_and_analyze_data_ok by assumption. reflexivity.
  - unfold warnings. apply list_elem_of_omap. exists (name, file).
    split; [assumption |]. rewrite Hmiss. reflexivity.
  - apply length_warnings.
  - intros name' file' df Hin' Hread. unfold frames. apply list_elem_of_omap.
    exists (name', file'). split; [assumption |]. rewrite Hread. reflexivity.
Qed.

Lemma missing_source_is_skipped_example :
  load Examples.only_dlf files [] []
  = (Examples.dlf_shown, Returned [normalize "DLF" Examples.dlf_csv]) ∧
  not_found "NTPC.csv" ∈ Examples.dlf_shown.
Proof.
  destruct (missing_source_is_skipped Examples.only_dlf "NTPC" "NTPC.csv")
    as (Hload & _ & Hwarn & _).
  - apply (bool_decide_unpack _). vm_compute. exact I.
  - apply (bool_decide_unpack _). vm_compute. exact I.
  - reflexivity.
  - split; [exact Hload | exact Hwarn].
Defined.

(** ** The empty result *)

Section EmptyFacts.

Lemma unique_nil `{EqDecision A} (l : list A) : unique l = [] ↔ l = [].
Proof. destruct l; simpl; split; congruence. Qed.

Lemma sort_values_nil {A} (cmp : A → A → comparison) (l : list A) :
  sort_values cmp l = [] ↔ l = [].
Proof.
  split; [| intros ->; reflexivity].
  intros H. apply nil_length_inv. rewrite <- (length_sort_values cmp), H. reflexivity.
Qed.

Lemma normalize_nil (name : string) (df : list RawRow) :
  normalize name df = [] ↔ omap raw_Date df = [].
Proof.
  unfold normalize, groupby_Date_first. split.
  - intros H. do 2 apply fmap_nil_inv in H.
    rewrite sort_values_nil, unique_nil in H.
    apply Permutation_nil_r. rewrite <- H.
    apply omap_Permutation. symmetry. apply sort_values_perm.
  - intros H.
    assert (H' : omap raw_Date (sort_values cmp_Date_Expiry df) = []).
    { apply Permutation_nil_r. rewrite <- H.
      apply omap_Permutation, sort_values_perm. }
    rewrite H'. reflexivity.
Qed.

Lemma analyze_nil_iff (combined_df : list (Row date)) :
  analyze combined_df = [] ↔ combined_df = [].
Proof.
  split; [| intros ->; reflexivity].
  intros H. destruct combined_df as [|r l]; [reflexivity | exfalso].
  pose proof (points_of_analyze (Stock r) (r :: l)) as Hp.
  rewrite H in Hp. apply (f_equal length) in Hp.
  rewrite length_analyze_stock, length_sort_values, filter_cons_True in Hp by reflexivity.
  discriminate.
Qed.

Lemma parse_Date_nil (l : list (Row string)) (k : list (Row date)) :
  parse_Date l = Some k → (k = [] ↔ l = []).
Proof.
  intros H%length_mapM. destruct l, k; simpl in H; split; congruence.
Qed.

Context (read_csv : string → read_result).

Lemma frames_nil (fl : list (string * string)) :
  Forall (fun entry => ¬ fatal read_csv entry) fl →
  (concat (frames read_csv fl) = [] ↔ Forall (no_rows read_csv) fl).
Proof.
  induction 1 as [|[n f] fl Hf Hok IH]; simpl.
  - split; [constructor | reflexivity].
  - unfold fatal in Hf. simpl in Hf. rewrite Forall_cons. unfold no_rows at 1. simpl.
    destruct (read_csv f) as [| |df]; [| congruence |]; simpl.
    + rewrite IH. split; [intros ?; split; [left; reflexivity | assumption] | intros [_ ?]; assumption].
    + rewrite <- IH. split.
      * intros [Hn Hc]%app_eq_nil. split; [| assumption].
        right. exists df. split; [reflexivity |]. apply (normalize_nil n), Hn.
      * intros [[Hm | (df' & [= <-] & Hn)] Hc]; [discriminate |].
        apply (normalize_nil n) in Hn. rewrite Hn, Hc. reflexivity.
Qed.

Lemma no_rows_not_fatal (entry : string * string) :
  no_rows read_csv entry → ¬ fatal read_csv entry.
Proof. unfold no_rows, fatal. intros [H | (df & H & _)]; rewrite H; discriminate. Qed.

Lemma main_Stopped :
  (main read_csv).2 = Stopped ↔ ∃ shown, load_and_analyze_data read_csv = (shown, Returned []).
Proof.
  unfold main. destruct (load_and_analyze_data read_csv) as [shown [|[|p data]]]; simpl; split;
    try discriminate; try (intros [sh [=]]); eauto.
Qed.

Lemma Returned_nil_iff :
  (∃ shown, load_and_analyze_data read_csv = (shown, Returned []))
  ↔ Forall (no_rows read_csv) files.
Proof.
  split.
  - intros [shown (Hok & _ & combined & Hp & Hd)%load_and_analyze_data_Returned].
    apply frames_nil; [assumption |].
    symmetry in Hd. rewrite analyze_nil_iff, sort_values_nil in Hd.
    apply (parse_Date_nil _ _ Hp), Hd.
  - intros Hall.
    assert (Hok : Forall (fun entry => ¬ fatal read_csv entry) files)
      by (eapply Forall_impl; [exact Hall | apply no_rows_not_fatal]).
    rewrite load_and_analyze_data_ok by assumption.
    apply frames_nil in Hall; [| assumption]. rewrite Hall. eexists. reflexivity.
Qed.

End EmptyFacts.

(** C7, as stated, fails in the direction "only if": when every file is
    there but holds no row, the result is empty and the page stops, although
    no source was unavailable. *)
Lemma empty_tables_stop :
  Forall (fun entry => Examples.all_empty entry.2 = Table []) files ∧
  load_and_analyze_data Examples.all_empty = ([], Returned []) ∧
  main Examples.all_empty = ([no_data], Stopped).
Proof. split; [repeat constructor | split; reflexivity]. Qed.

(** C7, amended.  The page stops with 'No data available' exactly when the
    call returns an empty result, which happens exactly when every source
    is missing or holds no dated row; in particular when every file is
    missing. *)
Theorem hard_stop_iff (read_csv : string → read_result) :
  ((main read_csv).2 = Stopped
   ↔ ∃ shown, load_and_analyze_data read_csv = (shown, Returned [])) ∧
  ((main read_csv).2 = Stopped ↔ Forall (no_rows read_csv) files) ∧
  (Forall (missing read_csv) files →
   main read_csv = ((not_found <$> files.*2) ++ [no_data], Stopped)).
Proof.
  split; [apply main_Stopped |]. split.
  - rewrite main_Stopped. apply Returned_nil_iff.
  - intros Hall. unfold main, load_and_analyze_data.
    assert (Hload : ∀ fl shown, Forall (missing read_csv) fl →
              load read_csv fl [] shown = (shown ++ (not_found <$> fl.*2), Returned [])).
    { clear. induction fl as [|[n f] fl IH]; intros shown Hall; simpl.
      - rewrite app_nil_r. reflexivity.
      - apply Forall_cons in Hall as [Hf Hall]. unfold missing in Hf. simpl in Hf.
        rewrite Hf, IH by assumption. rewrite <- app_assoc. reflexivity. }
    rewrite Hload by assumption. reflexivity.
Qed.

Lemma hard_stop_iff_example :
  main Examples.all_missing = ((not_found <$> files.*2) ++ [no_data], Stopped).
Proof.
  apply (hard_stop_iff Examples.all_missing).
  apply (bool_decide_unpack _). vm_compute. exact I.
Defined.

(** ** Isolation of the instruments *)

Lemma files_file_name (fl : list (string * string)) (n1 n2 f : string) :
  NoDup fl.*2 → (n1, f) ∈ fl → (n2, f) ∈ fl → n1 = n2.
Proof.
  induction fl as [|[n f'] fl IH]; simpl; intros Hnd H1 H2; [inversion H1 |].
  apply NoDup_cons in Hnd as [Hf Hnd].
  apply elem_of_cons in H1 as [H1 | H1]; apply elem_of_cons in H2 as [H2 | H2].
  - congruence.
  - injection H1 as -> ->. exfalso. apply Hf, list_elem_of_fmap. exists (n2, f'). auto.
  - injection H2 as -> ->. exfalso. apply Hf, list_elem_of_fmap. exists (n1, f'). auto.
  - apply IH; assumption.
Qed.

Lemma NoDup_file_names : NoDup files.*2.
Proof. apply (bool_decide_unpack _). vm_compute. exact I. Qed.

(** The observations of a stock depend on its own file only. *)
Lemma own_rows_ext (read1 read2 : string → read_result) (name file : string) :
  read1 file = read2 file → own_rows read1 name file = own_rows read2 name file.
Proof. unfold own_rows. intros ->. reflexivity. Qed.

(** C8, as stated, fails: the two inputs differ in 'DLF.csv' only, yet the
    first run computes a row for 'Eternal' and the second computes nothing,
    because one date text of 'DLF.csv' makes [pd.to_datetime] raise. *)
Lemma foreign_date_aborts :
  (∀ file, file ≠ "DLF.csv"%string →
           Examples.eternal_and_dlf file = Examples.eternal_and_iso_dlf file) ∧
  computed Examples.eternal_and_dlf "Eternal" = Some [Examples.eternal_point1] ∧
  computed Examples.eternal_and_iso_dlf "Eternal" = None.
Proof.
  split; [| split].
  - intros file Hne. unfold Examples.eternal_and_dlf, Examples.eternal_and_iso_dlf.
    destruct (String.eqb file "Eternal.csv"); [reflexivity |].
    destruct (String.eqb_spec file "DLF.csv"); [contradiction | reflexivity].
  - vm_compute. reflexivity.
  - vm_compute. reflexivity.
Qed.

(** C8, amended.  For two runs that differ only in the file of instrument
    B and that both return, the rows of any other listed instrument A, with
    every computed value, are the same. *)
Theorem isolation (read1 read2 : string → read_result) (nameA fileA nameB fileB : string)
    (shown1 shown2 : list string) (data1 data2 : list Point) :
  (nameA, fileA) ∈ files → (nameB, fileB) ∈ files → nameA ≠ nameB →
  (∀ file, file ≠ fileB → read1 file = read2 file) →
  load_and_analyze_data read1 = (shown1, Returned data1) →
  load_and_analyze_data read2 = (shown2, Returned data2) →
  points_of nameA data1 = points_of nameA data2.
Proof.
  intros HA HB Hne Hsame Hrun1 Hrun2.
  rewrite (points_of_stock read1 shown1 data1 nameA fileA Hrun1 HA).
  rewrite (points_of_stock read2 shown2 data2 nameA fileA Hrun2 HA).
  f_equal. apply own_rows_ext, Hsame. intros ->.
  apply Hne. apply (files_file_name files nameA nameB fileB); [apply NoDup_file_names | assumption..].
Qed.

Lemma isolation_example :
  points_of "Eternal" [Examples.dlf_point1; Examples.dlf_point2; Examples.eternal_point1]
  = points_of "Eternal" [Examples.eternal_point1].
Proof.
  apply (isolation Examples.eternal_and_dlf Examples.only_eternal
           "Eternal" "Eternal.csv" "DLF" "DLF.csv"
           (not_found <$> ["ADANIGREEN.csv"; "PAYTM.csv"; "NTPC.csv"]%string)
           (not_found <$> ["ADANIGREEN.csv"; "PAYTM.csv"; "NTPC.csv"; "DLF.csv"]%string)).
  - apply (bool_decide_unpack _). vm_compute. exact I.
  - apply (bool_decide_unpack _). vm_compute. exact I.
  - discriminate.
  - intros file Hne. unfold Examples.eternal_and_dlf, Examples.only_eternal.
    destruct (String.eqb file "Eternal.csv"); [reflexivity |].
    destruct (String.eqb_spec file "DLF.csv"); [contradiction | reflexivity].
  - vm_compute. reflexivity.
  - vm_compute. reflexivity.
Defined.

(** ** The columns of the result *)

Lemma parse_Date_elem (l : list (Row string)) (k : list (Row date)) (r' : Row date) :
  parse_Date l = Some k → r' ∈ k → ∃ r, r ∈ l ∧ parse_row r = Some r'.
Proof.
  unfold parse_Date. rewrite mapM_Some. intros HF [i Hi]%list_elem_of_lookup.
  destruct (Forall2_lookup_r _ _ _ _ _ HF Hi) as (r & Hr & Hp).
  exists r. split; [apply list_elem_of_lookup; eauto | exact Hp].
Qed.

Lemma frames_elem (read_csv : string → read_result) (fl : list (string * string))
    (df' : list (Row string)) :
  df' ∈ frames read_csv fl →
  ∃ name file df, (name, file) ∈ fl ∧ read_csv file = Table df ∧ df' = normalize name df.
Proof.
  unfold frames. intros ([name file] & Hin & H)%list_elem_of_omap.
  destruct (read_csv file) as [| |df] eqn:Hread; try discriminate.
  injection H as <-. eauto 6.
Qed.

(** C9, as stated, fails: the tie-break column and the other columns of the
    file are still there in the row of the result. *)
Lemma raw_columns_are_kept :
  load_and_analyze_data Examples.only_ntpc
  = (not_found <$> ["Eternal.csv"; "ADANIGREEN.csv"; "PAYTM.csv"; "DLF.csv"]%string,
     Returned [Examples.ntpc_point1]) ∧
  Expiry (cells (row Examples.ntpc_point1)) = Some "25-Jan-2024"%string ∧
  Other (cells (row Examples.ntpc_point1)) !! "Open"%string = Some "348.5"%string.
Proof.
  split; [vm_compute; reflexivity | split; [reflexivity | vm_compute; reflexivity]].
Qed.

(** C9, amended.  No column is dropped: every row of the result carries
    the stock, the parsed date and, unchanged, all the cells ('Expiry',
    'Close' and every other column) of one normalized row of the file of its
    stock, next to the derived columns. *)
Theorem raw_columns_survive (read_csv : string → read_result) (shown : list string)
    (data : list Point) (p : Point) :
  load_and_analyze_data read_csv = (shown, Returned data) → p ∈ data →
  ∃ name file df r,
    (name, file) ∈ files ∧ read_csv file = Table df ∧ r ∈ normalize name df ∧
    point_Stock p = name ∧ to_datetime (Date r) = Some (Date (row p)) ∧
    cells (row p) = cells r.
Proof.
  intros (_ & _ & combined & Hparse & ->)%load_and_analyze_data_Returned Hp.
  rewrite analyze_bind in Hp. apply list_elem_of_bind in Hp as (s & Hp & _).
  apply analyze_stock_Stock in Hp. rewrite elem_of_sort_values in Hp.
  apply list_elem_of_filter in Hp as [_ Hp]. rewrite elem_of_sort_values in Hp.
  destruct (parse_Date_elem _ _ _ Hparse Hp) as (r & Hr & Hrow).
  apply list_elem_of_In, in_concat in Hr as (df' & Hdf' & Hr).
  apply list_elem_of_In in Hr. apply list_elem_of_In in Hdf'.
  apply frames_elem in Hdf' as (name & file & df & Hin & Hread & ->).
  apply parse_row_Stock in Hrow as (HS & HC & HD).
  exists name, file, df, r. repeat split; try assumption.
  unfold point_Stock. rewrite HS.
  pose proof (normalize_Stock name df) as Hall. rewrite Forall_forall in Hall.
  apply Hall, Hr.
Qed.

Lemma raw_columns_survive_example :
  ∃ name file df r,
    (name, file) ∈ files ∧ Examples.only_ntpc file = Table df ∧ r ∈ normalize name df ∧
    point_Stock Examples.ntpc_point1 = name ∧
    to_datetime (Date r) = Some (Date (row Examples.ntpc_point1)) ∧
    cells (row Examples.ntpc_point1) = cells r.
Proof.
  apply (raw_columns_survive Examples.only_ntpc
           (not_found <$> ["Eternal.csv"; "ADANIGREEN.csv"; "PAYTM.csv"; "DLF.csv"]%string)
           [Examples.ntpc_point1] Examples.ntpc_point1).
  - vm_compute. reflexivity.
  - left.
Defined.

(** ** Rows of one date *)

#[local] Instance Comparator_Expiry : Comparator cmp_Expiry.
Proof. apply (Comparator_on (fun r => Expiry (raw_cells r))), Comparator_na_last, _. Qed.

Section NormalizeFacts.

(** The group of a date in the sorted frame holds the rows of that date,
    sorted by 'Expiry'. *)
Lemma group_of_sorted (d : string) (df : list RawRow) :
  group_of d (sort_values cmp_Date_Expiry df) = candidates d df.
Proof.
  unfold group_of, candidates.
  rewrite (filter_sort_values cmp_Date_Expiry).
  apply sort_values_ext.
  intros x y [Hx _]%list_elem_of_filter [Hy _]%list_elem_of_filter.
  unfold cmp_Date_Expiry, cmp_Expiry. rewrite Hx, Hy. simpl.
  rewrite (cmp_refl String.compare). reflexivity.
Qed.

Lemma elem_of_keys (d : string) (df : list RawRow) :
  d ∈ sort_values String.compare (unique (omap raw_Date (sort_values cmp_Date_Expiry df)))
  ↔ Some d ∈ raw_Date <$> df.
Proof.
  rewrite elem_of_sort_values, elem_of_unique, list_elem_of_omap, list_elem_of_fmap.
  split.
  - intros (r & Hr & Hd). exists r. rewrite elem_of_sort_values in Hr. auto.
  - intros (r & Hd & Hr). exists r. rewrite elem_of_sort_values. auto.
Qed.

Lemma NoDup_keys (df : list RawRow) :
  NoDup (sort_values String.compare (unique (omap raw_Date (sort_values cmp_Date_Expiry df)))).
Proof. rewrite sort_values_perm. apply NoDup_unique. Qed.

Lemma filter_fmap_key {A B} `{EqDecision A} (key : B → A) (g : A → B) (k : A) (l : list A) :
  NoDup l → k ∈ l → (∀ a, key (g a) = a) →
  filter (fun b => key b = k) (g <$> l) = [g k].
Proof.
  intros Hnd Hin Hkey. induction Hnd as [|a l Ha Hnd IH]; [inversion Hin |].
  rewrite fmap_cons, filter_cons, Hkey.
  destruct (decide (a = k)) as [-> | Hne].
  - f_equal. apply filter_none, Forall_fmap, Forall_forall.
    intros a Hl. simpl. rewrite Hkey. intros ->. contradiction.
  - apply IH. apply elem_of_cons in Hin as [-> | Hin]; [congruence | assumption].
Qed.

Lemma normalize_unfold (stock : string) (df : list RawRow) :
  normalize stock df
  = (fun d => mkRow stock d
                (first (raw_cells <$> group_of d (sort_values cmp_Date_Expiry df))))
      <$> sort_values String.compare
            (unique (omap raw_Date (sort_values cmp_Date_Expiry df))).
Proof.
  unfold normalize, groupby_Date_first. rewrite <- list_fmap_compose. reflexivity.
Qed.

(** The union of the further columns has a cell only where some row has. *)
Lemma lookup_foldr_union (ms : list (gmap string string)) (k v : string) :
  foldr (∪) ∅ ms !! k = Some v → ∃ m, m ∈ ms ∧ is_Some (m !! k).
Proof.
  induction ms as [|m ms IH]; simpl.
  - rewrite lookup_empty. discriminate.
  - intros [H | [_ H]]%lookup_union_Some_raw.
    + exists m. split; [left | eauto].
    + destruct (IH H) as (m' & Hm' & Hk). exists m'. split; [right; assumption | assumption].
Qed.

(** A complete first row is the result of [first]. *)
Lemma first_complete (r : RawRow) (rest : list RawRow) :
  complete r rest → first (raw_cells <$> (r :: rest)) = raw_cells r.
Proof.
  intros ([e He] & [c Hc] & Hdom). unfold first. rewrite !fmap_cons.
  destruct (raw_cells r) as [e' c' o]. simpl in *. subst e' c'.
  unfold first_valid. simpl. f_equal.
  apply map_eq. intros k. rewrite lookup_union.
  destruct (o !! k) as [v|] eqn:Hk.
  - destruct (foldr _ _ _ !! k); reflexivity.
  - destruct (foldr _ _ _ !! k) as [v|] eqn:Hu; [| reflexivity].
    apply lookup_foldr_union in Hu as (m & Hm & Hs).
    apply list_elem_of_fmap in Hm as (c0 & -> & Hc0).
    apply list_elem_of_fmap in Hc0 as (r' & -> & Hr').
    rewrite Forall_forall in Hdom. specialize (Hdom r' Hr').
    apply elem_of_dom in Hs. apply Hdom in Hs. apply elem_of_dom in Hs as [v' Hv'].
    simpl in Hv'. congruence.
Qed.

End NormalizeFacts.

(** C5.  Line 33 sorts the rows by date and expiry and then asks for the
    first of each date, but [GroupBy.first()] takes, in each column, the
    first cell that is not missing.  Of the two rows of one date in
    [Samples.unpriced_csv] the row of the earlier expiry comes first after
    sorting and has no close: the row kept has the expiry of that row and
    the close of the other one.  It is neither of the two rows, and it
    prices the near contract with the close of the far one. *)
Theorem first_mixes_rows :
  let kept := mkCells (Some "25-Jan-2024"%string) (Some 101%R) ∅ in
  candidates "01-Jan-2024" Samples.unpriced_csv
  = [Samples.near_unpriced; Samples.far_priced] ∧
  normalize "Z" Samples.unpriced_csv = [mkRow "Z"%string "01-Jan-2024"%string kept] ∧
  Expiry kept = Expiry (raw_cells Samples.near_unpriced) ∧
  Close kept = Close (raw_cells Samples.far_priced) ∧
  kept ≠ raw_cells Samples.near_unpriced ∧ kept ≠ raw_cells Samples.far_priced.
Proof.
  split; [vm_compute; reflexivity |]. split; [vm_compute; reflexivity |].
  split; [reflexivity |]. split; [reflexivity |]. split.
  - intros H. apply (f_equal Close) in H. discriminate.
  - intros H. apply (f_equal Expiry) in H. vm_compute in H. discriminate.
Qed.

(** The same with a further column: the row kept has the expiry and the
    close of the first row after sorting and the 'Open' of the second. *)
Lemma merged_row_is_no_raw_row :
  let kept := mkCells (Some "25-Jan-2024"%string) (Some 100%R) {["Open"%string := "99"%string]} in
  candidates "01-Jan-2024" Examples.duplicate_csv
  = [Examples.near_month; Examples.far_month] ∧
  normalize "Z" Examples.duplicate_csv = [mkRow "Z"%string "01-Jan-2024"%string kept] ∧
  kept ≠ raw_cells Examples.near_month ∧ kept ≠ raw_cells Examples.far_month.
Proof.
  split; [vm_compute; reflexivity |]. split; [vm_compute; reflexivity |]. split.
  - intros H. apply (f_equal (fun c => Other c !! "Open"%string)) in H.
    vm_compute in H. discriminate.
  - intros H. apply (f_equal Expiry) in H. vm_compute in H. discriminate.
Qed.

(** What line 33 keeps, in general.  For every date text [d] of the
    table there is exactly one row of that date.  Each of its cells is the
    first non-missing cell of its column among the rows of that date (the
    candidates) sorted by 'Expiry' ascending.  The first candidate has the
    least expiry, and when it is complete it is the row kept. *)
Lemma one_row_per_date (stock : string) (df : list RawRow) (d : string) :
  Some d ∈ raw_Date <$> df →
  filter (fun r => Date r = d) (normalize stock df)
  = [mkRow stock d (first (raw_cells <$> candidates d df))] ∧
  ∀ r rest, candidates d df = r :: rest →
    (∀ r', r' ∈ group_of d df → le cmp_Expiry r r') ∧
    (complete r rest →
     filter (fun r => Date r = d) (normalize stock df) = [mkRow stock d (raw_cells r)]).
Proof.
  intros Hd.
  assert (Hone : filter (fun r => Date r = d) (normalize stock df)
                 = [mkRow stock d (first (raw_cells <$> candidates d df))]).
  { rewrite normalize_unfold.
    rewrite (filter_fmap_key (fun r : Row string => Date r)
               (fun d => mkRow stock d
                  (first (raw_cells <$> group_of d (sort_values cmp_Date_Expiry df))))).
    - rewrite group_of_sorted. reflexivity.
    - apply NoDup_keys.
    - apply elem_of_keys, Hd.
    - reflexivity. }
  split; [exact Hone |].
  intros r rest Hc. split.
  - intros r' Hr'. apply (sort_values_head cmp_Expiry (group_of d df)); [| assumption].
    unfold candidates in Hc. rewrite Hc. reflexivity.
  - intros Hcomplete. rewrite Hone, Hc, first_complete by assumption. reflexivity.
Qed.

Lemma one_row_per_date_example :
  filter (fun r => Date r = "01-Jan-2024"%string)
    (normalize "DLF" (Examples.quote "01-Jan-2024" "29-Feb-2024" 2 :: Examples.dlf_csv))
  = [mkRow "DLF"%string "01-Jan-2024"%string
       (raw_cells (Examples.quote "01-Jan-2024" "25-Jan-2024" 1))].
Proof.
  apply (one_row_per_date "DLF"
           (Examples.quote "01-Jan-2024" "29-Feb-2024" 2 :: Examples.dlf_csv) "01-Jan-2024")
    with (rest := [Examples.quote "01-Jan-2024" "29-Feb-2024" 2]).
  - left.
  - vm_compute. reflexivity.
  - split; [eexists; reflexivity |]. split; [eexists; reflexivity |].
    repeat constructor. reflexivity.
Defined.

(** The two spellings of one date give two groups, hence two rows of the
    same calendar date for one instrument. *)
Lemma respelled_date_is_kept_twice :
  Date <$> normalize "Z" Examples.respelled_csv = ["01-Jan-2024"; "1-Jan-2024"]%string ∧
  to_datetime "1-Jan-2024" = to_datetime "01-Jan-2024".
Proof. split; vm_compute; reflexivity. Qed.

(** The day may be padded with a blank; there is no day 0 and no year 0. *)
Lemma day_and_year_forms :
  to_datetime " 1-Jan-2024" = to_datetime "01-Jan-2024" ∧
  to_datetime "00-Jan-2024" = None ∧ to_datetime " 0-Jan-2024" = None ∧
  to_datetime "01-Jan-0000" = None ∧ to_datetime "29-Feb-2023" = None.
Proof. repeat split; vm_compute; reflexivity. Qed.

(** ** A standard deviation of zero *)

(** In exact arithmetic, a row of the result with a standard deviation of
    0 has its close (when it is a number) on the moving average: the score
    divides 0 by 0 and is NaN.  In binary64 the deviation of distinct
    closes can round to 0; the score is then an infinity
    ([zero_deviation_sells]). *)
Lemma zero_deviation_score (read_csv : string → read_result) (shown : list string)
    (data : list Point) (p : Point) :
  load_and_analyze_data read_csv = (shown, Returned data) → p ∈ data →
  STD_10 p = Some 0%R →
  Std_Deviations p = None ∧ ∀ c, point_Close p = Some c → MA_10 p = Some c.
Proof.
  intros Hrun Hp Hs.
  destruct (result_point _ _ _ _ Hrun Hp) as (r & ma & sd & -> & [Hnn Hz]).
  unfold point_Close. cbn [STD_10 MA_10 Std_Deviations row derive] in *. subst sd.
  destruct (Hnn 0%R eq_refl) as [_ [m ->]]. split.
  - destruct (Close (cells r)) as [c|]; simpl; [| reflexivity].
    destruct (Req_dec_T 0 0); [reflexivity | congruence].
  - intros c Hc. rewrite (Hz eq_refl c m Hc eq_refl). reflexivity.
Qed.

(** ** The scenarios of the design document *)

Section Scenarios.

Local Open Scope R_scope.

(** Nine closes of 100 then 80: the average is 98, the deviation is the
    square root of 40 (about 6.32) and the last row is a 'Buy'. *)
Lemma scenario_X (r : Row date) :
  Close (cells r) = Some 80 →
  let p := derive r (mean_of 1 Examples.closes_X) (std_of 1 1 Examples.closes_X) in
  MA_10 p = Some 98 ∧ (∃ s, STD_10 p = Some s ∧ s * s = 40 ∧ 0 <= s) ∧ Signal p = Buy.
Proof.
  intros Hc.
  assert (Hm : mean_of 1 Examples.closes_X = Some 98).
  { apply mean_of_Some. split; [simpl; lia |]. simpl. lra. }
  assert (Hs : std_of 1 1 Examples.closes_X = Some (sqrt 40)).
  { apply std_of_Some. exists 40. split; [| reflexivity].
    apply var_of_Some. split; [simpl; lia |]. unfold ssqdm. simpl. lra. }
  assert (Hsq : sqrt 40 * sqrt 40 = 40) by (apply sqrt_sqrt; lra).
  pose proof (sqrt_pos 40) as Hpos.
  unfold derive. cbn [MA_10 STD_10 Signal]. rewrite Hm, Hs, Hc, mul_one.
  split; [reflexivity |]. split; [eauto |]. simpl.
  destruct (Rlt_dec 80 (98 - sqrt 40)) as [Hlt | Hge].
  - destruct (Rlt_dec (98 + sqrt 40) 80); [lra | reflexivity].
  - exfalso. apply Hge. nra.
Qed.

(** A flat window: the deviation is 0, the score is NaN, the row holds. *)
Lemma scenario_flat (r : Row date) :
  Close (cells r) = Some 10 →
  let p := derive r (mean_of 1 Examples.closes_flat) (std_of 1 1 Examples.closes_flat) in
  MA_10 p = Some 10 ∧ STD_10 p = Some 0 ∧ Std_Deviations p = None ∧ Signal p = Hold.
Proof.
  intros Hc.
  assert (Hm : mean_of 1 Examples.closes_flat = Some 10).
  { apply mean_of_Some. split; [simpl; lia |]. simpl. lra. }
  assert (Hs : std_of 1 1 Examples.closes_flat = Some 0).
  { apply std_of_Some. exists 0. split; [| symmetry; apply sqrt_0].
    apply var_of_Some. split; [simpl; lia |]. unfold ssqdm. simpl. lra. }
  unfold derive. cbn [MA_10 STD_10 Signal Std_Deviations]. rewrite Hm, Hs, Hc, mul_one.
  split; [reflexivity |]. split; [reflexivity |]. simpl.
  destruct (Req_dec_T 0 0); [| congruence]. split; [reflexivity |].
  destruct (Rlt_dec 10 (10 - 0)), (Rlt_dec (10 + 0) 10); try reflexivity; lra.
Qed.

End Scenarios.

(** The same scenarios in binary64, with the running update of pandas.
    At the tenth row of the first the average is 98, the deviation lies
    between 6.32 and 6.33 and the row is a 'Buy'; at the tenth row of the
    second the average is 52 and the row is a 'Sell'. *)
Lemma scenario_X_binary64 :
  ∃ p, Kernel.analyze_stock Samples.X_closes !! 9%nat = Some p ∧
       Kernel.MA_10 p = Binary64.of_Z 98 0 ∧
       Arithmetic.ltb (Binary64.decimal 632 2) (Kernel.STD_10 p) = true ∧
       Arithmetic.ltb (Kernel.STD_10 p) (Binary64.decimal 633 2) = true ∧
       Kernel.Signal p = Buy.
Proof. eexists. split; [vm_compute; reflexivity |]. vm_compute. repeat split; reflexivity. Qed.

Lemma scenario_Y_binary64 :
  ∃ p, Kernel.analyze_stock Samples.Y_closes !! 9%nat = Some p ∧
       Kernel.MA_10 p = Binary64.of_Z 52 0 ∧
       Arithmetic.ltb (Binary64.decimal 5832 2) (Kernel.Upper_Band p) = true ∧
       Arithmetic.ltb (Kernel.Upper_Band p) (Binary64.decimal 5833 2) = true ∧
       Kernel.Signal p = Sell.
Proof. eexists. split; [vm_compute; reflexivity |]. vm_compute. repeat split; reflexivity. Qed.

(** Fifteen closes of 10: every average is 10, every deviation after the
    first row is 0 and every row holds, also where rows have left the
    window. *)
Lemma scenario_flat_binary64 :
  let rows := Kernel.analyze_stock Samples.flat_closes in
  Kernel.MA_10 <$> rows = replicate 15 (Binary64.of_Z 10 0) ∧
  Kernel.STD_10 <$> rows = Binary64.NaN :: replicate 14 Binary64.zero ∧
  Kernel.Signal <$> rows = replicate 15 Hold.
Proof. vm_compute. repeat split; reflexivity. Qed.

(** * Further properties of the program *)

(** ** Exceptions of the run *)

Section RaiseFacts.
Context (read_csv : string → read_result).

Lemma load_app (fl1 fl2 : list (string * string)) (dfs : list (list (Row string)))
    (shown : list string) :
  Forall (fun entry => ¬ fatal read_csv entry) fl1 →
  load read_csv (fl1 ++ fl2) dfs shown
  = load read_csv fl2 (dfs ++ frames read_csv fl1) (shown ++ warnings read_csv fl1).
Proof.
  revert dfs shown. induction fl1 as [|[n f] fl1 IH]; intros dfs shown Hok; simpl.
  - rewrite !app_nil_r. reflexivity.
  - apply Forall_cons in Hok as [Hf Hok]. unfold fatal in Hf. simpl in Hf.
    destruct (read_csv f); [| congruence |]; rewrite IH by assumption;
      rewrite <- !app_assoc; reflexivity.
Qed.

Lemma elem_of_frames (r : Row string) :
  r ∈ concat (frames read_csv files) ↔
  ∃ name file df, (name, file) ∈ files ∧ read_csv file = Table df ∧ r ∈ normalize name df.
Proof.
  rewrite list_elem_of_In, in_concat. split.
  - intros (df' & Hdf' & Hr). apply list_elem_of_In in Hdf', Hr.
    apply frames_elem in Hdf' as (name & file & df & Hin & Hread & ->). eauto 6.
  - intros (name & file & df & Hin & Hread & Hr). exists (normalize name df).
    rewrite <- !list_elem_of_In. split; [| assumption].
    unfold frames. apply list_elem_of_omap. exists (name, file).
    rewrite Hread. auto.
Qed.

End RaiseFacts.

(** X2.  When the first file that cannot be read comes after some missing
    files, the messages for these missing files have been shown, no later
    file is looked at, and the call raises. *)
Theorem messages_before_raise (read_csv : string → read_result)
    (before after : list (string * string)) (entry : string * string) :
  files = before ++ entry :: after →
  Forall (fun e => ¬ fatal read_csv e) before → fatal read_csv entry →
  load_and_analyze_data read_csv = (warnings read_csv before, Raised) ∧
  main read_csv = (warnings read_csv before, Crashed).
Proof.
  intros Hfiles Hok Hfatal.
  assert (Hrun : load_and_analyze_data read_csv = (warnings read_csv before, Raised)).
  { unfold load_and_analyze_data. rewrite Hfiles, load_app by assumption.
    destruct entry as [n f]. unfold fatal in Hfatal. simpl in *. rewrite Hfatal.
    reflexivity. }
  split; [exact Hrun |]. unfold main. rewrite Hrun. reflexivity.
Qed.

Lemma messages_before_raise_example :
  load_and_analyze_data
    (fun file => if String.eqb file "PAYTM.csv" then OtherError else FileNotFoundError)
  = ([not_found "Eternal.csv"; not_found "ADANIGREEN.csv"], Raised).
Proof.
  apply (messages_before_raise
           (fun file => if String.eqb file "PAYTM.csv" then OtherError else FileNotFoundError)
           [("Eternal", "Eternal.csv"); ("ADANIGREEN", "ADANIGREEN.csv")]%string
           [("NTPC", "NTPC.csv"); ("DLF", "DLF.csv")]%string
           ("PAYTM", "PAYTM.csv")%string).
  - reflexivity.
  - repeat constructor; discriminate.
  - reflexivity.
Defined.

(** ** Order and number of the rows of the result *)

Section GroupFacts.
Context {A : Type} (key : A → string).

#[local] Abbreviation key_le := (key_le key).

Lemma bind_ext_elem {B C} (f g : B → list C) (l : list B) :
  (∀ b, b ∈ l → f b = g b) → l ≫= f = l ≫= g.
Proof.
  induction l as [|b l IH]; intros H; [reflexivity |].
  rewrite !bind_cons, (H b) by left. f_equal. apply IH. intros b' Hb'. apply H. right. exact Hb'.
Qed.

Lemma key_le_first (r h : A) (l : list A) :
  StronglySorted key_le (r :: h :: l) → key r ∈ key <$> (h :: l) → key h = key r.
Proof.
  intros Hs Hin. apply StronglySorted_inv in Hs as [Hs Hr].
  apply Forall_cons in Hr as [Hrh _].
  apply list_elem_of_fmap in Hin as (a & Ha & Hin).
  assert (Hha : key_le h a).
  { apply elem_of_cons in Hin as [-> | Hin].
    - unfold key_le. rewrite (cmp_refl String.compare). discriminate.
    - apply StronglySorted_inv in Hs as [_ Hh]. rewrite Forall_forall in Hh. apply Hh, Hin. }
  unfold key_le in *. rewrite <- Ha in Hha.
  rewrite (cmp_opp (cmp := String.compare) (key r) (key h)) in Hha.
  destruct (String.compare (key r) (key h)) eqn:E; simpl in *; try congruence.
  symmetry. apply String.compare_eq_iff, E.
Qed.

(** Splitting a frame sorted by key into the frames of its keys, and laying
    these end to end in the order in which the keys first appear, gives the
    frame back. *)
Lemma bind_unique_filter (l : list A) :
  StronglySorted key_le l →
  unique (key <$> l) ≫= (fun s => filter (fun a => key a = s) l) = l.
Proof.
  induction l as [|r l IH]; intros Hs; [reflexivity |].
  pose proof (proj1 (StronglySorted_inv Hs)) as Hl. specialize (IH Hl).
  rewrite fmap_cons. cbn [unique]. rewrite bind_cons, filter_cons_True by reflexivity.
  cbn [app]. f_equal.
  assert (Hrest : ∀ U : list string, Forall (fun s => s ≠ key r) U →
            U ≫= (fun s => filter (fun a => key a = s) (r :: l))
            = U ≫= (fun s => filter (fun a => key a = s) l)).
  { intros U HU. apply bind_ext_elem. intros s Hs'. rewrite Forall_forall in HU.
    apply filter_cons_False. intros E. apply (HU s Hs'). symmetry. exact E. }
  rewrite Hrest by (apply Forall_forall; intros s [Hs' _]%list_elem_of_filter; exact Hs').
  destruct l as [|h l'].
  - reflexivity.
  - destruct (decide (key r ∈ key <$> (h :: l'))) as [Hin | Hout].
    + pose proof (key_le_first r h l' Hs Hin) as Hh.
      rewrite fmap_cons in *. cbn [unique] in *. rewrite Hh in *.
      rewrite (filter_cons_False (fun s => s ≠ key r))
        by (intros E; apply E; reflexivity).
      rewrite (filter_all (fun s => s ≠ key r))
        by (apply Forall_forall; intros s [Hs' _]%list_elem_of_filter; exact Hs').
      rewrite bind_cons in IH. exact IH.
    + rewrite (filter_none (fun a => key a = key r)).
      * rewrite (filter_all (fun s => s ≠ key r)); [exact IH |].
        apply Forall_forall. intros s Hs' E. subst s.
        rewrite elem_of_unique in Hs'. contradiction.
      * apply Forall_forall. intros a Ha E. apply Hout. rewrite <- E.
        apply list_elem_of_fmap_2, Ha.
Qed.

(** The keys of a frame sorted by key appear in ascending order. *)
Lemma unique_sorted (l : list A) :
  StronglySorted key_le l → StronglySorted (le String.compare) (unique (key <$> l)).
Proof.
  induction 1 as [|r l Hl IH Hr]; [constructor |].
  rewrite fmap_cons. cbn [unique]. constructor.
  - clear Hr. induction IH as [|s U HU IHU HsU]; [constructor |].
    rewrite filter_cons. destruct (decide (s ≠ key r)); [| exact IHU].
    constructor; [exact IHU |]. apply Forall_forall.
    intros s' [_ Hs']%list_elem_of_filter. rewrite Forall_forall in HsU. apply HsU, Hs'.
  - apply Forall_forall. intros s [_ Hs]%list_elem_of_filter.
    rewrite elem_of_unique in Hs.
    apply list_elem_of_fmap in Hs as (a & -> & Ha).
    rewrite Forall_forall in Hr. apply Hr, Ha.
Qed.

End GroupFacts.

Section OrderFacts.

Lemma le_Stock_Date_key (a b : Row date) :
  le cmp_Stock_Date a b → key_le (fun r : Row date => Stock r) a b.
Proof.
  unfold le, key_le, cmp_Stock_Date, lex.
  destruct (String.compare (Stock a) (Stock b)); congruence.
Qed.

Lemma sorted_by_Stock (l : list (Row date)) :
  StronglySorted (le cmp_Stock_Date) l →
  StronglySorted (key_le (fun r : Row date => Stock r)) l.
Proof.
  induction 1 as [|r l Hl IH Hr]; constructor; [exact IH |].
  eapply Forall_impl; [exact Hr |]. intros b. apply le_Stock_Date_key.
Qed.

(** The rows of one stock in the sorted combined frame are in date order. *)
Lemma filter_Stock_sorted (stock : string) (combined_df : list (Row date)) :
  filter (fun r => Stock r = stock) (sort_values cmp_Stock_Date combined_df)
  = sort_values cmp_Date (filter (fun r => Stock r = stock) combined_df).
Proof.
  rewrite (filter_sort_values cmp_Stock_Date).
  apply sort_values_ext.
  intros a b [Ha _]%list_elem_of_filter [Hb _]%list_elem_of_filter.
  unfold cmp_Stock_Date. rewrite Ha, Hb, (cmp_refl String.compare). reflexivity.
Qed.

Lemma fmap_bind_list {A B C} (f : B → C) (g : A → list B) (l : list A) :
  f <$> (l ≫= g) = l ≫= (fun a => f <$> g a).
Proof.
  induction l as [|a l IH]; [reflexivity |].
  rewrite !bind_cons, fmap_app, IH. reflexivity.
Qed.

(** The analysis adds columns: it keeps every row of the sorted combined
    frame, in the same order. *)
Lemma rows_of_analyze (combined_df : list (Row date)) :
  row <$> analyze (sort_values cmp_Stock_Date combined_df)
  = sort_values cmp_Stock_Date combined_df.
Proof.
  rewrite analyze_bind, fmap_bind_list.
  rewrite (bind_ext_elem _
             (fun s => filter (fun r : Row date => Stock r = s)
                         (sort_values cmp_Stock_Date combined_df))).
  - apply (bind_unique_filter (fun r : Row date => Stock r)).
    apply sorted_by_Stock, sort_values_sorted, _.
  - intros s _. rewrite analyze_stock_row, stock_data_sorted, filter_Stock_sorted.
    reflexivity.
Qed.

Lemma length_unique_perm `{EqDecision A} (l k : list A) :
  l ≡ₚ k → length (unique l) = length (unique k).
Proof.
  intros Hp. apply Permutation_length, NoDup_Permutation; try apply NoDup_unique.
  intros a. rewrite !elem_of_unique, Hp. reflexivity.
Qed.

Lemma length_normalize (name : string) (df : list RawRow) :
  length (normalize name df) = length (unique (omap raw_Date df)).
Proof.
  rewrite normalize_unfold, length_fmap, length_sort_values.
  apply length_unique_perm, omap_Permutation, sort_values_perm.
Qed.

End OrderFacts.

Lemma result_rows_sorted_aux (read_csv : string → read_result) (shown : list string)
    (data : list Point) :
  load_and_analyze_data read_csv = (shown, Returned data) →
  (∃ combined_df,
     parse_Date (concat (frames read_csv files)) = Some combined_df ∧
     row <$> data = sort_values cmp_Stock_Date combined_df) ∧
  StronglySorted (le cmp_Stock_Date) (row <$> data).
Proof.
  intros (_ & _ & combined & Hp & ->)%load_and_analyze_data_Returned.
  rewrite rows_of_analyze. split; [eauto | apply sort_values_sorted, _].
Qed.

(** X3.  The result holds the rows of the combined frame sorted by stock
    name and then by date, each with its derived columns: no row is lost,
    none is added, and the order of the sorted frame is kept. *)
Theorem result_rows_sorted (read_csv : string → read_result) (shown : list string)
    (data : list Point) :
  load_and_analyze_data read_csv = (shown, Returned data) →
  StronglySorted (le cmp_Stock_Date) (row <$> data) ∧
  ∃ combined_df,
    parse_Date (concat (frames read_csv files)) = Some combined_df ∧
    row <$> data = sort_values cmp_Stock_Date combined_df.
Proof.
  intros (_ & _ & combined & Hp & ->)%load_and_analyze_data_Returned.
  rewrite rows_of_analyze. split; [apply sort_values_sorted, _ | eauto].
Qed.

Lemma result_rows_sorted_example :
  StronglySorted (le cmp_Stock_Date)
    (row <$> [Examples.dlf_point1; Examples.dlf_point2; Examples.eternal_point1]).
Proof.
  apply (result_rows_sorted Examples.eternal_and_dlf
           (not_found <$> ["ADANIGREEN.csv"; "PAYTM.csv"; "NTPC.csv"]%string)).
  vm_compute. reflexivity.
Defined.

(** X4.  The result has one row for each distinct date text of each file
    that is there. *)
Theorem result_length (read_csv : string → read_result) (shown : list string)
    (data : list Point) :
  load_and_analyze_data read_csv = (shown, Returned data) →
  length data = sum_list (distinct_dates read_csv <$> files).
Proof.
  intros (_ & _ & combined & Hp & ->)%load_and_analyze_data_Returned.
  rewrite <- (length_fmap row), rows_of_analyze, length_sort_values.
  apply length_mapM in Hp. rewrite <- Hp. clear.
  induction files as [|[n f] fl IH]; [reflexivity |].
  rewrite fmap_cons. cbn [sum_list sum_list_with]. unfold distinct_dates at 1. simpl.
  destruct (read_csv f) as [| |df]; simpl; try exact IH.
  rewrite length_app, length_normalize. f_equal. exact IH.
Qed.

Lemma result_length_example :
  length [Examples.dlf_point1; Examples.dlf_point2; Examples.eternal_point1]
  = sum_list (distinct_dates Examples.eternal_and_dlf <$> files).
Proof.
  apply (result_length Examples.eternal_and_dlf
           (not_found <$> ["ADANIGREEN.csv"; "PAYTM.csv"; "NTPC.csv"]%string)).
  vm_compute. reflexivity.
Defined.

(** X5.  The frame of one file after line 33 has one row for each date
    text of the file, in ascending order of the texts; rows without a date
    are dropped. *)
Theorem normalize_dates (stock : string) (df : list RawRow) :
  NoDup (Date <$> normalize stock df) ∧
  StronglySorted (le String.compare) (Date <$> normalize stock df) ∧
  ∀ d, d ∈ Date <$> normalize stock df ↔ Some d ∈ raw_Date <$> df.
Proof.
  assert (Hd : Date <$> normalize stock df
               = sort_values String.compare
                   (unique (omap raw_Date (sort_values cmp_Date_Expiry df)))).
  { rewrite normalize_unfold, <- list_fmap_compose. apply list_fmap_id. }
  rewrite Hd. split; [apply NoDup_keys |]. split; [apply sort_values_sorted, _ |].
  intros d. apply elem_of_keys.
Qed.

(** ** More on the rolling statistics and the signals *)

Section WindowFacts.

Local Open Scope R_scope.

Lemma sum_bounds (lo hi : R) (xs : list R) :
  Forall (fun x => lo <= x <= hi) xs →
  INR (length xs) * lo <= sum xs <= INR (length xs) * hi.
Proof.
  induction 1 as [|x xs Hx Hxs IH].
  - simpl. lra.
  - cbn [sum]. rewrite length_cons, S_INR. lra.
Qed.

(** The mean of a window lies between any bounds of its values. *)
Lemma mean_of_bounds (lo hi m : R) (w : list float) :
  (∀ x, Some x ∈ w → lo <= x <= hi) → mean_of 1 w = Some m → lo <= m <= hi.
Proof.
  intros Hw [Hn ->]%mean_of_Some.
  assert (Hall : Forall (fun x => lo <= x <= hi) (dropna w)).
  { apply Forall_forall. intros x Hx. apply Hw.
    unfold dropna in Hx. apply list_elem_of_omap in Hx as (c & Hc & ->). exact Hc. }
  pose proof (sum_bounds lo hi _ Hall) as Hs.
  assert (Hpos : 0 < INR (length (dropna w))) by (apply lt_0_INR; lia).
  set (n := INR (length (dropna w))) in *. set (t := sum (dropna w)) in *.
  assert (Ht : t = t / n * n) by (field; lra).
  split; nra.
Qed.

(** The cells of a window are cells of the column. *)
Lemma window_at_subseteq {A} (window : nat) (col : list A) (i : nat) :
  window_at window col i ⊆ col.
Proof.
  unfold window_at. etransitivity; [apply subseteq_drop | apply subseteq_take].
Qed.

Lemma win_Close (stock_data : list (Row date)) (i : nat) (c : float) :
  c ∈ win stock_data i → ∃ r, r ∈ stock_data ∧ Close (cells r) = c.
Proof.
  intros Hc. apply (window_at_subseteq window_size (Close_col stock_data) i) in Hc.
  unfold Close_col in Hc. apply list_elem_of_fmap in Hc as (r & -> & Hr). eauto.
Qed.

(** With ten rows or more behind it, a window does not reach the older
    rows of the frame. *)
Lemma mean_of_flat (c : R) (w : list float) :
  (∀ x, Some x ∈ w → x = c) → ∀ m, mean_of 1 w = Some m → m = c.
Proof.
  intros Hw m Hm.
  assert (c <= m <= c); [| lra].
  apply (mean_of_bounds c c m w); [| exact Hm].
  intros x Hx. rewrite (Hw x Hx). lra.
Qed.

End WindowFacts.

Section ResultFacts.

Lemma analyze_stock_of_row (stock_data : list (Row date)) (r : Row date) :
  r ∈ stock_data → ∃ q, q ∈ analyze_stock stock_data ∧ row q = r.
Proof.
  intros Hr. rewrite <- (analyze_stock_row stock_data) in Hr.
  apply list_elem_of_fmap in Hr as (q & -> & Hq). eauto.
Qed.

(** The rows of one stock in the result, as the analysis of one frame. *)
Lemma points_of_result (read_csv : string → read_result) (shown : list string)
    (data : list Point) (stock : string) :
  load_and_analyze_data read_csv = (shown, Returned data) →
  ∃ stock_data, points_of stock data = analyze_stock stock_data.
Proof.
  intros (_ & _ & combined & _ & ->)%load_and_analyze_data_Returned.
  rewrite points_of_analyze. eauto.
Qed.

End ResultFacts.



(** X9.  A stock whose closes are all the same number never trades: every
    one of its rows has that number as moving average and holds. *)
Theorem flat_series_holds (read_csv : string → read_result) (shown : list string)
    (data : list Point) (stock : string) (c : R) (p : Point) :
  load_and_analyze_data read_csv = (shown, Returned data) →
  (∀ q, q ∈ points_of stock data → point_Close q = Some c) →
  p ∈ points_of stock data →
  MA_10 p = Some c ∧ Signal p = Hold ∧ (STD_10 p = None ∨ STD_10 p = Some 0%R).
Proof.
  intros Hrun Hall Hp.
  destruct (points_of_result _ _ _ stock Hrun) as [sd Hsd]. rewrite Hsd in *.
  pose proof (Hall p Hp) as Hc.
  apply analyze_stock_elem in Hp as (i & r & Hr & ->).
  unfold point_Close in Hc. cbn [row derive] in Hc.
  assert (Hflat : ∀ x, Some x ∈ win sd i → x = c).
  { intros x Hx. apply win_Close in Hx as (r' & Hr' & Hc').
    destruct (analyze_stock_of_row sd r' Hr') as (q & Hq & Hrow).
    specialize (Hall q Hq). unfold point_Close in Hall. rewrite Hrow in Hall. congruence. }
  assert (Hm : mean_of 1 (win sd i) = Some c).
  { destruct (mean_of 1 (win sd i)) as [m|] eqn:Hm.
    - f_equal. eapply mean_of_flat; eassumption.
    - exfalso. assert (Hin : Some c ∈ win sd i)
        by (rewrite <- Hc; apply Close_in_window, Hr).
      unfold mean_of in Hm.
      assert (0 < length (dropna (win sd i)))%nat.
      { assert (Hd : c ∈ dropna (win sd i))
          by (unfold dropna; apply list_elem_of_omap; eauto).
        destruct (dropna (win sd i)); [inversion Hd | simpl; lia]. }
      destruct (bool_decide_reflect (1 ≤ length (dropna (win sd i)))%nat);
        destruct (bool_decide_reflect (0 < length (dropna (win sd i)))%nat);
        simpl in Hm; try discriminate; lia. }
  pose proof (window_statistics sd i r Hr) as Hst. rewrite Hm in *.
  assert (Hsd0 : std_of 1 1 (win sd i) = None ∨ std_of 1 1 (win sd i) = Some 0%R).
  { destruct (std_of 1 1 (win sd i)) as [s|] eqn:Hs; [right | left; reflexivity].
    f_equal. apply std_of_Some in Hs as (v & Hv & ->).
    apply var_of_Some in Hv as [Hn ->].
    replace (ssqdm _ _) with 0%R; [unfold Rdiv; rewrite Rmult_0_l; apply sqrt_0 |].
    symmetry. unfold ssqdm.
    assert (Hxs : ∀ x, x ∈ dropna (win sd i) → x = c).
    { intros x Hx. unfold dropna in Hx.
      apply list_elem_of_omap in Hx as (c' & Hc' & ->). apply Hflat, Hc'. }
    assert (Hmean : (sum (dropna (win sd i)) / INR (length (dropna (win sd i))))%R = c).
    { apply mean_of_Some in Hm as [_ Hm]. symmetry. exact Hm. }
    rewrite Hmean. clear - Hxs.
    induction (dropna (win sd i)) as [|x xs IH]; [reflexivity |].
    csimpl. rewrite IH by (intros y Hy; apply Hxs; right; exact Hy).
    rewrite (Hxs x) by left. lra. }
  cbn [MA_10 STD_10]. split; [reflexivity |]. split; [| exact Hsd0].
  apply derive_Hold; [exact Hst | tauto].
Qed.

Lemma flat_series_holds_example :
  MA_10 Examples.eternal_point1 = Some 7%R ∧ Signal Examples.eternal_point1 = Hold.
Proof.
  destruct (flat_series_holds Examples.only_eternal
              (not_found <$> ["ADANIGREEN.csv"; "PAYTM.csv"; "NTPC.csv"; "DLF.csv"]%string)
              [Examples.eternal_point1] "Eternal" 7 Examples.eternal_point1)
    as (Hm & Hs & _).
  - vm_compute. reflexivity.
  - intros q Hq. apply list_elem_of_filter in Hq as [_ Hq].
    apply list_elem_of_singleton in Hq as ->. reflexivity.
  - vm_compute. left.
  - split; assumption.
Defined.

(** X10.  A row whose close is missing holds and has no score, whatever
    its bands. *)
Theorem missing_close_holds (read_csv : string → read_result) (shown : list string)
    (data : list Point) (p : Point) :
  load_and_analyze_data read_csv = (shown, Returned data) → p ∈ data →
  point_Close p = None → Signal p = Hold ∧ Std_Deviations p = None.
Proof.
  intros Hrun Hp Hc.
  destruct (result_point _ _ _ _ Hrun Hp) as (r & ma & sd & -> & _).
  unfold point_Close in Hc. cbn [row derive] in Hc.
  unfold derive. cbn [Signal Std_Deviations]. rewrite Hc. unfold gt.
  destruct (add ma (mul (Some 1%R) sd)); split; reflexivity.
Qed.

Lemma missing_close_holds_example :
  Signal Samples.blank_point = Hold ∧ Std_Deviations Samples.blank_point = None.
Proof.
  apply (missing_close_holds Samples.only_blank
           (not_found <$> ["Eternal.csv"; "ADANIGREEN.csv"; "PAYTM.csv"; "NTPC.csv"]%string)
           [Samples.blank_point]).
  - vm_compute. reflexivity.
  - left.
  - reflexivity.
Defined.

(** ** Dates and day numbers *)

Section CalendarFacts.

Lemma cmp_date_Eq (a b : date) : cmp_date a b = Eq → a = b.
Proof.
  destruct a as [ya ma da], b as [yb mb db]. unfold cmp_date, lex. simpl.
  destruct (Nat.compare_spec ya yb); try discriminate.
  destruct (Nat.compare_spec ma mb); try discriminate.
  destruct (Nat.compare_spec da db); try discriminate.
  intros _. congruence.
Qed.

Lemma month_of_abbr_range (s : string) (m : nat) :
  month_of_abbr s = Some m → 1 ≤ m ≤ 12.
Proof.
  unfold month_of_abbr.
  repeat (destruct (String.eqb (lowercase s) _); [intros [= <-]; lia |]).
  discriminate.
Qed.

(** [pd.to_datetime] delivers dates of the calendar only. *)
Lemma to_datetime_valid (s : string) (d : date) : to_datetime s = Some d → valid d.
Proof.
  unfold to_datetime.
  destruct (split "-" s) as [|t1 [|t2 [|t3 [|t4 rest]]]]; try discriminate.
  destruct (_ && _); [| discriminate].
  destruct (number 0 (day_digits t1)) as [dd|]; [| discriminate].
  destruct (month_of_abbr t2) as [mm|] eqn:Hm; [| discriminate].
  destruct (number 0 t3) as [yy|]; [| discriminate].
  destruct (bool_decide_reflect (1 ≤ dd ≤ days_in_month yy mm)) as [Hd | _]; [| discriminate].
  destruct (bool_decide (1 ≤ yy)); [| discriminate].
  intros [= <-]. split; [apply (month_of_abbr_range t2), Hm | exact Hd].
Qed.

Local Open Scope Z_scope.

Lemma leap_spec (y : nat) :
  leap y = true ↔
  (Z.of_nat y mod 4 = 0 ∧ Z.of_nat y mod 100 ≠ 0) ∨ Z.of_nat y mod 400 = 0.
Proof.
  assert (Hmod : ∀ k : nat, (y mod k =? 0)%nat = (Z.of_nat y mod Z.of_nat k =? 0)).
  { intros k. rewrite <- Nat2Z.inj_mod.
    destruct (Nat.eqb_spec (y mod k) 0), (Z.eqb_spec (Z.of_nat (y mod k)) 0);
      try reflexivity; exfalso; lia. }
  unfold leap. rewrite (Hmod 4%nat), (Hmod 100%nat), (Hmod 400%nat).
  change (Z.of_nat 4) with 4. change (Z.of_nat 100) with 100. change (Z.of_nat 400) with 400.
  destruct (Z.eqb_spec (Z.of_nat y mod 4) 0), (Z.eqb_spec (Z.of_nat y mod 100) 0),
    (Z.eqb_spec (Z.of_nat y mod 400) 0); simpl; split; intros H;
    first [reflexivity | discriminate | lia | exfalso; lia].
Qed.

Lemma days_before_year_succ (y : nat) :
  days_before_year (Z.of_nat y + 1) = days_before_year (Z.of_nat y) + days_in_year y.
Proof.
  unfold days_before_year, days_in_year.
  pose proof (leap_spec y) as Hl. destruct (leap y).
  - destruct (proj1 Hl eq_refl); Z.to_euclidean_division_equations; lia.
  - assert (¬ ((Z.of_nat y mod 4 = 0 ∧ Z.of_nat y mod 100 ≠ 0) ∨ Z.of_nat y mod 400 = 0))
      by (intros H; apply Hl in H; discriminate).
    Z.to_euclidean_division_equations. lia.
Qed.

Lemma days_before_year_mono (y1 y2 : Z) :
  y1 ≤ y2 → days_before_year y1 ≤ days_before_year y2.
Proof. unfold days_before_year. intros H. Z.to_euclidean_division_equations. lia. Qed.

Lemma day_of_year_bounds (y m d : nat) :
  (1 ≤ m ≤ 12)%nat → (1 ≤ d ≤ days_in_month y m)%nat →
  1 ≤ days_before_month y m + Z.of_nat d ≤ days_in_year y.
Proof.
  unfold days_before_month, days_in_month, days_in_year. intros Hm.
  do 13 (destruct m as [|m]; [simpl; destruct (leap y); lia |]). lia.
Qed.

Lemma days_before_month_mono (y m1 m2 d : nat) :
  (1 ≤ m1)%nat → (m1 < m2 ≤ 12)%nat → (d ≤ days_in_month y m1)%nat →
  days_before_month y m1 + Z.of_nat d ≤ days_before_month y m2.
Proof.
  unfold days_before_month, days_in_month. intros H1 H2.
  do 13 (destruct m1 as [|m1]; [do 13 (destruct m2 as [|m2];
    [simpl; destruct (leap y); lia |]); lia |]). lia.
Qed.

(** The day number grows with the date. *)
Lemma toordinal_mono (a b : date) :
  valid a → valid b → le cmp_date a b → toordinal a ≤ toordinal b.
Proof.
  destruct a as [ya ma da], b as [yb mb db]. unfold valid, le, cmp_date, lex, toordinal.
  simpl. intros [Hma Hda] [Hmb Hdb].
  pose proof (day_of_year_bounds ya ma da Hma Hda) as Ba.
  pose proof (day_of_year_bounds yb mb db Hmb Hdb) as Bb.
  destruct (Nat.compare_spec ya yb) as [-> | Hy | Hy]; [| intros _ | congruence].
  - destruct (Nat.compare_spec ma mb) as [-> | Hm | Hm]; [| intros _ | congruence].
    + destruct (Nat.compare_spec da db); [lia | lia | congruence].
    + pose proof (days_before_month_mono yb ma mb da) as H. lia.
  - pose proof (days_before_year_succ ya) as Hs.
    pose proof (days_before_year_mono (Z.of_nat ya + 1) (Z.of_nat yb)) as Hmono. lia.
Qed.

End CalendarFacts.

(** ** The date selector and the three columns (lines 81-131, 243-256) *)

Section SelectorFacts.

Lemma last_sorted_max {A} (cmp : A → A → comparison) `{!Comparator cmp}
    (l : list A) (d : A) :
  StronglySorted (le cmp) l → last l = Some d → ∀ a, a ∈ l → le cmp a d.
Proof.
  induction 1 as [|b l Hl IH Hb]; intros Hlast a Ha; [inversion Ha |].
  destruct l as [|c l'].
  - injection Hlast as <-. apply list_elem_of_singleton in Ha as ->.
    unfold le. rewrite (cmp_refl cmp). discriminate.
  - rewrite last_cons_cons in Hlast. apply elem_of_cons in Ha as [-> | Ha].
    + rewrite Forall_forall in Hb. apply Hb, last_Some_elem_of, Hlast.
    + apply IH; assumption.
Qed.

Lemma sorted_NoDup_strict (l : list date) :
  StronglySorted (le cmp_date) l → NoDup l →
  StronglySorted (fun a b => cmp_date a b = Lt) l.
Proof.
  induction 1 as [|a l Hl IH Ha]; intros Hnd; [constructor |].
  apply NoDup_cons in Hnd as [Hna Hnd]. constructor; [apply IH, Hnd |].
  apply Forall_forall. intros b Hb. rewrite Forall_forall in Ha.
  specialize (Ha b Hb). unfold le in Ha.
  destruct (cmp_date a b) eqn:E; [| reflexivity | congruence].
  apply cmp_date_Eq in E as ->. contradiction.
Qed.

Lemma elem_of_available_dates (data : list Point) (d : date) :
  d ∈ available_dates data ↔ ∃ p, p ∈ data ∧ Date (row p) = d.
Proof.
  unfold available_dates.
  rewrite elem_of_sort_values, elem_of_unique, list_elem_of_fmap.
  split; intros (p & H1 & H2); exists p; auto.
Qed.

Lemma max_Date_spec (data : list Point) :
  data ≠ [] →
  ∃ m, max_Date data = Some m ∧ (∃ p, p ∈ data ∧ Date (row p) = m) ∧
       ∀ p, p ∈ data → le cmp_date (Date (row p)) m.
Proof.
  induction data as [|q data IH]; [congruence | intros _].
  destruct data as [|q' data'].
  - exists (Date (row q)). split; [reflexivity |]. split; [exists q; split; [left | reflexivity] |].
    intros p ->%list_elem_of_singleton. unfold le. rewrite (cmp_refl cmp_date). discriminate.
  - destruct (IH ltac:(discriminate)) as (m & Hm & (p0 & Hp0 & Hd0) & Hmax).
    change (max_Date (q :: q' :: data'))
      with (match max_Date (q' :: data') with
            | Some m => Some (if cmp_date (Date (row q)) m is Gt then Date (row q) else m)
            | None => Some (Date (row q))
            end).
    rewrite Hm. destruct (cmp_date (Date (row q)) m) eqn:E.
    + exists m. split; [reflexivity |]. split; [exists p0; split; [right |]; assumption |].
      intros p [-> | Hp]%elem_of_cons; [unfold le; congruence | apply Hmax, Hp].
    + exists m. split; [reflexivity |]. split; [exists p0; split; [right |]; assumption |].
      intros p [-> | Hp]%elem_of_cons; [unfold le; congruence | apply Hmax, Hp].
    + exists (Date (row q)). split; [reflexivity |].
      split; [exists q; split; [left | reflexivity] |].
      intros p [-> | Hp]%elem_of_cons.
      * unfold le. rewrite (cmp_refl cmp_date). discriminate.
      * apply (cmp_le_trans (cmp := cmp_date) _ m); [apply Hmax, Hp |].
        apply (cmp_Gt_le cmp_date), E.
Qed.

Lemma le_antisym_date (a b : date) : le cmp_date a b → le cmp_date b a → a = b.
Proof.
  unfold le. intros H1 H2. rewrite (cmp_opp (cmp := cmp_date) a b) in H2.
  apply cmp_date_Eq. destruct (cmp_date a b); simpl in *; congruence.
Qed.

Lemma length_with_signal (s : signal) (rows : list Point) :
  length (filter (fun s' => s' = s) (Signal <$> rows)) = length (with_signal s rows).
Proof.
  unfold with_signal. induction rows as [|p rows IH]; [reflexivity |].
  rewrite fmap_cons, !filter_cons.
  destruct (decide (Signal p = s)); simpl; rewrite IH; reflexivity.
Qed.

Lemma get_value_counts (s : signal) (rows : list Point) :
  get (value_counts (Signal <$> rows)) s 0 = length (with_signal s rows).
Proof.
  unfold get, value_counts. rewrite length_with_signal.
  destruct (length (with_signal s rows)); reflexivity.
Qed.

Lemma signal_partition (rows : list Point) :
  length (with_signal Buy rows) + length (with_signal Sell rows)
  + length (with_signal Hold rows) = length rows.
Proof.
  unfold with_signal. induction rows as [|p rows IH]; [reflexivity |].
  rewrite !filter_cons.
  destruct (Signal p); repeat case_decide; try congruence; simpl; lia.
Qed.

End SelectorFacts.

(** X11.  The dates offered by the selector are the dates of the rows of
    the result, each once, in strictly ascending order. *)
Theorem available_dates_sorted (data : list Point) :
  StronglySorted (fun a b => cmp_date a b = Lt) (available_dates data) ∧
  ∀ d, d ∈ available_dates data ↔ ∃ p, p ∈ data ∧ Date (row p) = d.
Proof.
  split; [| apply elem_of_available_dates].
  apply sorted_NoDup_strict.
  - apply sort_values_sorted, _.
  - unfold available_dates. rewrite sort_values_perm. apply NoDup_unique.
Qed.

(** X12.  With a result that has rows, the selector starts on the latest
    date of the result, which is also the date [data['Date'].max()] from
    which the chart periods are counted. *)
Theorem default_date_latest (data : list Point) :
  data ≠ [] →
  ∃ d, default_date data = Some d ∧ max_Date data = Some d ∧
       (∃ p, p ∈ data ∧ Date (row p) = d) ∧
       ∀ p, p ∈ data → le cmp_date (Date (row p)) d.
Proof.
  intros Hne.
  destruct (max_Date_spec data Hne) as (m & Hm & (p0 & Hp0 & Hd0) & Hmax).
  assert (Hin : m ∈ available_dates data) by (apply elem_of_available_dates; eauto).
  destruct (last (available_dates data)) as [d|] eqn:Hlast.
  - pose proof (last_sorted_max cmp_date (available_dates data) d
                  ltac:(apply sort_values_sorted, _) Hlast m Hin) as Hmd.
    pose proof (last_Some_elem_of _ _ Hlast) as Hd.
    apply elem_of_available_dates in Hd as (p & Hp & Hpd).
    assert (d = m) as -> by (apply le_antisym_date; [rewrite <- Hpd; apply Hmax, Hp | exact Hmd]).
    exists m. unfold default_date. rewrite Hlast. eauto 8.
  - apply last_None in Hlast. rewrite Hlast in Hin. inversion Hin.
Qed.

Lemma default_date_latest_example :
  ∃ d, default_date Samples.two_stocks = Some d ∧ max_Date Samples.two_stocks = Some d.
Proof.
  destruct (default_date_latest Samples.two_stocks) as (d & Hd & Hm & _).
  - discriminate.
  - exists d. split; assumption.
Defined.

(** X13.  Every date that can be selected has rows: the three columns are
    shown, the warning 'No data available for ...' of line 131 never is. *)
Theorem selected_date_has_rows (data : list Point) (selected : date) :
  selected ∈ available_dates data →
  date_data data selected ≠ [] ∧
  ∃ buy sell hold, signals_for data selected = Columns buy sell hold.
Proof.
  intros (p & Hp & Hd)%elem_of_available_dates.
  assert (Hin : p ∈ date_data data selected)
    by (apply list_elem_of_filter; split; assumption).
  unfold signals_for. destruct (date_data data selected) as [|q rows]; [inversion Hin |].
  split; [discriminate | eauto].
Qed.

Lemma selected_date_has_rows_example :
  ∃ buy sell hold,
    signals_for Samples.two_stocks (mkDate 2024 1 2) = Columns buy sell hold.
Proof.
  apply (selected_date_has_rows Samples.two_stocks (mkDate 2024 1 2)).
  vm_compute. right. left.
Defined.

(** X14.  For a date with rows, the three metrics are the numbers of
    entries of the three columns, they add up to the number of rows of the
    date, and a column shows its note exactly when its metric is 0. *)
Theorem summary_counts (rows : list Point) (s : signal) (note : string) :
  rows ≠ [] →
  summary rows = Some (length (with_signal Buy rows), length (with_signal Sell rows),
                       length (with_signal Hold rows)) ∧
  length (with_signal Buy rows) + length (with_signal Sell rows)
  + length (with_signal Hold rows) = length rows ∧
  (signal_column s note rows = Info note ↔ length (with_signal s rows) = 0) ∧
  (length (with_signal s rows) ≠ 0 → signal_column s note rows = Entries (with_signal s rows)).
Proof.
  intros Hne. split; [| split; [apply signal_partition |]].
  - destruct rows as [|p rows]; [congruence |]. unfold summary.
    rewrite !get_value_counts. reflexivity.
  - unfold signal_column. destruct (with_signal s rows) as [|q found]; simpl.
    + split; [tauto | congruence].
    + split; [split; [discriminate | lia] | reflexivity].
Qed.

Lemma summary_counts_example :
  summary Samples.first_rows = Some (0, 0, 2).
Proof.
  destruct (summary_counts Samples.first_rows Hold "No hold signals") as (Hs & _).
  - discriminate.
  - rewrite Hs. reflexivity.
Defined.

(** ** Chart periods and charts (lines 133-241) *)

Section ChartFacts.

Lemma filter_sublist_impl {A} (P Q : A → Prop) `{!∀ a, Decision (P a)}
    `{!∀ a, Decision (Q a)} (l : list A) :
  (∀ a, P a → Q a) → filter P l `sublist_of` filter Q l.
Proof.
  intros HPQ. induction l as [|a l IH]; [constructor |].
  rewrite !filter_cons. destruct (decide (P a)) as [HP | HP].
  - rewrite decide_True by (apply HPQ, HP). constructor. exact IH.
  - destruct (decide (Q a)); [constructor |]; exact IH.
Qed.

Lemma since_sublist (n : Z) (data : list Point) : since n data `sublist_of` data.
Proof.
  unfold since. destruct (max_Date data); [apply sublist_filter | apply sublist_nil_l].
Qed.

Lemma chart_data_sublist (period : time_period) (data : list Point) :
  chart_data period data `sublist_of` data.
Proof. destruct period; simpl; [reflexivity | apply since_sublist..]. Qed.

Lemma elem_of_since (n : Z) (data : list Point) (m : date) (p : Point) :
  max_Date data = Some m →
  (p ∈ since n data ↔ (toordinal m - n ≤ toordinal (Date (row p)))%Z ∧ p ∈ data).
Proof. intros Hm. unfold since. rewrite Hm, list_elem_of_filter. reflexivity. Qed.

(** The date of every row of the result was delivered by [pd.to_datetime]. *)
Lemma result_dates_valid (read_csv : string → read_result) (shown : list string)
    (data : list Point) (p : Point) :
  load_and_analyze_data read_csv = (shown, Returned data) → p ∈ data →
  valid (Date (row p)).
Proof.
  intros (_ & _ & combined & Hparse & ->)%load_and_analyze_data_Returned Hp.
  assert (Hrow : row p ∈ sort_values cmp_Stock_Date combined).
  { rewrite <- rows_of_analyze. apply list_elem_of_fmap_2, Hp. }
  rewrite elem_of_sort_values in Hrow.
  destruct (parse_Date_elem _ _ _ Hparse Hrow) as (r & _ & Hr).
  apply parse_row_Stock in Hr as (_ & _ & Hd).
  apply (to_datetime_valid (Date r)), Hd.
Qed.

Lemma string_length_append (s t : string) :
  String.length (String.append s t) = String.length s + String.length t.
Proof. induction s as [|c s IH]; simpl; [reflexivity | rewrite IH; reflexivity]. Qed.

Lemma string_append_inj (t s1 s2 : string) :
  String.append s1 t = String.append s2 t → s1 = s2.
Proof.
  intros H.
  assert (Hlen : String.length s1 = String.length s2).
  { apply (f_equal String.length) in H. rewrite !string_length_append in H. lia. }
  revert s2 H Hlen. induction s1 as [|c s1 IH]; intros [|c' s2] H Hlen;
    simpl in *; try discriminate; [reflexivity |].
  injection H as -> H. f_equal. apply IH; [exact H | lia].
Qed.

Lemma chart_title_inj (s1 s2 : string) : chart_title s1 = chart_title s2 → s1 = s2.
Proof. apply string_append_inj. Qed.

Lemma charts_omap (selected_stocks : list string) (period : time_period)
    (data : list Point) :
  charts selected_stocks period data
  = omap (fun stock =>
            match filter (fun p => point_Stock p = stock) (chart_data period data) with
            | [] => None
            | stock_data => Some (chart stock stock_data)
            end) selected_stocks.
Proof. destruct selected_stocks; reflexivity. Qed.

(** The stocks of a result are listed in ascending order already. *)
Lemma stock_options_unique (read_csv : string → read_result) (shown : list string)
    (data : list Point) :
  load_and_analyze_data read_csv = (shown, Returned data) →
  stock_options data = unique (point_Stock <$> data).
Proof.
  intros [_ Hrows]%result_rows_sorted_aux.
  unfold stock_options. apply sort_values_id.
  replace (point_Stock <$> data) with ((fun r : Row date => Stock r) <$> (row <$> data))
    by (rewrite <- list_fmap_compose; reflexivity).
  apply unique_sorted, sorted_by_Stock, Hrows.
Qed.

End ChartFacts.

(** X15.  The chart periods are nested: the rows of the last 7 days are
    among those of the last 14 days, which are among all rows, in the same
    order; and the rows of the latest date are charted in every period. *)
Theorem periods_nested (data : list Point) (period : time_period) (p : Point) :
  p ∈ data → max_Date data = Some (Date (row p)) →
  chart_data Last_7_Days data `sublist_of` chart_data Last_14_Days data ∧
  chart_data Last_14_Days data `sublist_of` chart_data All_Data data ∧
  p ∈ chart_data period data.
Proof.
  intros Hp Hm. split; [| split].
  - simpl. unfold since. rewrite Hm. apply filter_sublist_impl. intros q. lia.
  - apply chart_data_sublist.
  - destruct period; simpl; [exact Hp | |];
      apply (elem_of_since _ data _ p Hm); split; try exact Hp; lia.
Qed.

Lemma periods_nested_example :
  Examples.dlf_point2 ∈ chart_data Last_7_Days Samples.two_stocks.
Proof.
  apply (periods_nested Samples.two_stocks Last_7_Days Examples.dlf_point2).
  - right. left.
  - reflexivity.
Defined.

(** X16.  In the result of a run, a chart period keeps the most recent
    part of the data: when a row is charted, so is every row of the result
    with the same or a later date. *)
Theorem period_keeps_later (read_csv : string → read_result) (shown : list string)
    (data : list Point) (period : time_period) (p q : Point) :
  load_and_analyze_data read_csv = (shown, Returned data) →
  p ∈ chart_data period data → q ∈ data →
  le cmp_date (Date (row p)) (Date (row q)) →
  q ∈ chart_data period data.
Proof.
  intros Hrun Hp Hq Hle.
  assert (Hpd : p ∈ data).
  { eapply elem_of_sublist; [exact Hp | apply chart_data_sublist]. }
  pose proof (toordinal_mono _ _ (result_dates_valid _ _ _ p Hrun Hpd)
                (result_dates_valid _ _ _ q Hrun Hq) Hle) as Hord.
  destruct (max_Date_spec data) as (m & Hm & _ & _); [intros ->; inversion Hq |].
  destruct period; simpl in *; [exact Hq | |];
    apply (elem_of_since _ data m _ Hm) in Hp as [Hp _];
    apply (elem_of_since _ data m _ Hm); split; try exact Hq; lia.
Qed.

Lemma period_keeps_later_example :
  Examples.eternal_point1 ∈ chart_data Last_7_Days Samples.two_stocks.
Proof.
  apply (period_keeps_later Examples.eternal_and_dlf
           (not_found <$> ["ADANIGREEN.csv"; "PAYTM.csv"; "NTPC.csv"]%string)
           Samples.two_stocks Last_7_Days Examples.dlf_point1).
  - vm_compute. reflexivity.
  - apply list_elem_of_filter. split; [vm_compute; discriminate | left].
  - right. right. left.
  - vm_compute. discriminate.
Defined.

(** X17.  With the selection and the period that the page starts with
    (every stock, 'All Data'), a run that returns rows is shown as one
    chart for each stock of the result, in the order of the stocks in the
    result, which is ascending by name. *)
Theorem default_charts (read_csv : string → read_result) (shown : list string)
    (data : list Point) :
  load_and_analyze_data read_csv = (shown, Returned data) →
  stock_options data = unique (point_Stock <$> data) ∧
  StronglySorted (le String.compare) (stock_options data) ∧
  title <$> charts (stock_options data) All_Data data = chart_title <$> stock_options data.
Proof.
  intros Hrun. split; [apply (stock_options_unique read_csv shown), Hrun |].
  split; [apply sort_values_sorted, _ |].
  rewrite charts_omap. simpl.
  assert (Hall : ∀ s, s ∈ stock_options data → ∃ p, p ∈ data ∧ point_Stock p = s).
  { intros s Hs. unfold stock_options in Hs.
    rewrite elem_of_sort_values, elem_of_unique in Hs.
    apply list_elem_of_fmap in Hs as (p & -> & Hp). eauto. }
  induction (stock_options data) as [|s l IH]; [reflexivity |].
  destruct (Hall s ltac:(left)) as (p & Hp & Hs).
  assert (Hin : p ∈ filter (fun p => point_Stock p = s) data)
    by (apply list_elem_of_filter; split; assumption).
  cbn [omap list_omap]. destruct (filter (fun p => point_Stock p = s) data) as [|q sd];
    [inversion Hin |].
  rewrite !fmap_cons. f_equal. apply IH. intros s' Hs'. apply Hall. right. exact Hs'.
Qed.

Lemma default_charts_example :
  title <$> charts ["DLF"; "Eternal"]%string All_Data Samples.two_stocks
  = [chart_title "DLF"; chart_title "Eternal"].
Proof.
  destruct (default_charts Examples.eternal_and_dlf
              (not_found <$> ["ADANIGREEN.csv"; "PAYTM.csv"; "NTPC.csv"]%string)
              Samples.two_stocks) as (Hopt & _ & Hcharts).
  - vm_compute. reflexivity.
  - exact Hcharts.
Defined.

(** X18.  A chart is drawn for a stock exactly when the stock is selected
    and has a row in the chosen period. *)
Theorem chart_iff_rows (selected_stocks : list string) (period : time_period)
    (data : list Point) (stock : string) :
  chart_title stock ∈ title <$> charts selected_stocks period data ↔
  stock ∈ selected_stocks ∧ ∃ p, p ∈ chart_data period data ∧ point_Stock p = stock.
Proof.
  rewrite charts_omap, list_elem_of_fmap. split.
  - intros (fig & Htitle & (s & Hs & Hfig)%list_elem_of_omap).
    destruct (filter (fun p => point_Stock p = s) (chart_data period data))
      as [|q sd] eqn:Hsd; [discriminate |].
    injection Hfig as <-. simpl in Htitle. apply chart_title_inj in Htitle as ->.
    split; [exact Hs |]. exists q.
    assert (Hq : q ∈ filter (fun p => point_Stock p = s) (chart_data period data))
      by (rewrite Hsd; left).
    apply list_elem_of_filter in Hq as [Hq1 Hq2]. auto.
  - intros (Hs & p & Hp & Hstock).
    assert (Hin : p ∈ filter (fun p => point_Stock p = stock) (chart_data period data))
      by (apply list_elem_of_filter; split; assumption).
    destruct (filter (fun p => point_Stock p = stock) (chart_data period data))
      as [|q sd] eqn:Hsd; [inversion Hin |].
    exists (chart stock (q :: sd)). split; [reflexivity |].
    apply list_elem_of_omap. exists stock. rewrite Hsd. auto.
Qed.

(** ** Files that are not there *)

(** X20.  In the result of a run every row belongs to a listed stock, and
    a listed stock whose file is missing has no row. *)
Theorem missing_source_has_no_rows (read_csv : string → read_result) (shown : list string)
    (data : list Point) (name file : string) :
  load_and_analyze_data read_csv = (shown, Returned data) →
  (name, file) ∈ files → read_csv file = FileNotFoundError →
  points_of name data = [] ∧ ∀ p, p ∈ data → point_Stock p ∈ files.*1.
Proof.
  intros Hrun Hin Hmiss. split.
  - rewrite (points_of_stock read_csv shown data name file Hrun Hin).
    unfold own_rows. rewrite Hmiss. reflexivity.
  - intros p Hp.
    apply load_and_analyze_data_Returned in Hrun as (_ & _ & combined & Hparse & ->).
    assert (Hrow : row p ∈ sort_values cmp_Stock_Date combined).
    { rewrite <- rows_of_analyze. apply list_elem_of_fmap_2, Hp. }
    rewrite elem_of_sort_values in Hrow.
    destruct (parse_Date_elem _ _ _ Hparse Hrow) as (r & Hr & Hprs).
    apply elem_of_frames in Hr as (n & f & df & Hnf & _ & Hr).
    apply parse_row_Stock in Hprs as (HS & _ & _).
    unfold point_Stock. rewrite HS.
    pose proof (normalize_Stock n df) as Hall. rewrite Forall_forall in Hall.
    rewrite (Hall r Hr). apply list_elem_of_fmap. exists (n, f). auto.
Qed.

Lemma missing_source_has_no_rows_example :
  points_of "NTPC" [Examples.dlf_point1; Examples.dlf_point2] = [].
Proof.
  apply (missing_source_has_no_rows Examples.only_dlf Examples.dlf_shown
           [Examples.dlf_point1; Examples.dlf_point2] "NTPC" "NTPC.csv").
  - vm_compute. reflexivity.
  - apply (bool_decide_unpack _). vm_compute. exact I.
  - reflexivity.
Defined.
